(** * line-stock-bot: the alert registry and its polling evaluator

    A shallow embedding of [src/app.js] (the version with price, change and
    volume alerts): the four process-wide [Map]s, the body of [checkAlerts],
    the state-changing branches of [handleEvent] and the [setInterval]
    scheduler, followed by the properties the specification states about
    them.

    JavaScript numbers are IEEE 754 binary64 values; they are modelled by
    Rocq's primitive floats, whose operations are the same ones. *)

From Stdlib Require Import String List Bool Arith ZArith Lia.
From Stdlib Require Import Floats Uint63.
Import ListNotations.

Open Scope list_scope.
Open Scope nat_scope.

(* ================================================================= *)
(** ** JavaScript numbers *)

Module JS.

Definition number := float.

(** [ToBoolean] on a number: [NaN], [+0] and [-0] are the falsy ones. *)
Definition truthy (x : number) : bool :=
  negb (PrimFloat.is_nan x || PrimFloat.is_zero x).

(** [x || d] on numbers. *)
Definition or_else (x d : number) : number :=
  if truthy x then x else d.

(** [x >= y], [x <= y], [x > y], [x !== y]; every comparison with [NaN]
    is false, and [NaN !== y] is true. *)
Definition ge (x y : number) : bool := PrimFloat.leb y x.
Definition le (x y : number) : bool := PrimFloat.leb x y.
Definition gt (x y : number) : bool := PrimFloat.ltb y x.
Definition strict_ne (x y : number) : bool := negb (PrimFloat.eqb x y).

(** An array length as a number.  Lengths stay below [2^32], far inside
    the range where the conversion is exact. *)
Definition of_length (n : nat) : number :=
  PrimFloat.of_uint63 (Uint63.of_Z (Z.of_nat n)).

(** [arr.reduce((sum, value) => sum + value, 0)] *)
Definition sum (arr : list number) : number :=
  fold_left PrimFloat.add arr 0%float.

(** [arr.slice(start)] for [0 <= start]. *)
Definition slice {A : Type} (start : nat) (arr : list A) : list A :=
  skipn start arr.

(** [arr.findIndex(p)], with [None] for the [-1] of JavaScript. *)
Fixpoint findIndex {A : Type} (p : A -> bool) (arr : list A) : option nat :=
  match arr with
  | [] => None
  | x :: rest =>
      if p x then Some 0
      else match findIndex p rest with
           | Some i => Some (S i)
           | None => None
           end
  end.

(** [arr[i] = f(arr[i])]: an in-place update of one element.  The source
    only does so at an index [findIndex] returned, hence in range. *)
Fixpoint update {A : Type} (i : nat) (f : A -> A) (arr : list A) : list A :=
  match arr, i with
  | [], _ => []
  | x :: rest, 0 => f x :: rest
  | x :: rest, S j => x :: update j f rest
  end.

End JS.

(* ================================================================= *)
(** ** JavaScript [Map] and [Set] with string keys

    Both iterate in insertion order, so a [Map] is an association list and
    a [Set] a list; [set] on a key that is present keeps its position. *)

Module JSMap.
Section Ops.
Context {V : Type}.

Definition t := list (string * V).

Definition empty : t := [].

Fixpoint get (k : string) (m : t) : option V :=
  match m with
  | [] => None
  | (k', v) :: rest => if String.eqb k' k then Some v else get k rest
  end.

Definition has (k : string) (m : t) : bool :=
  match get k m with Some _ => true | None => false end.

Fixpoint set (k : string) (v : V) (m : t) : t :=
  match m with
  | [] => [(k, v)]
  | (k', v') :: rest =>
      if String.eqb k' k then (k, v) :: rest else (k', v') :: set k v rest
  end.

Definition delete (k : string) (m : t) : t :=
  filter (fun e => negb (String.eqb (fst e) k)) m.

Definition keys (m : t) : list string := map fst m.
Definition values (m : t) : list V := map snd m.
Definition entries (m : t) : list (string * V) := m.

End Ops.
Arguments t : clear implicits.
End JSMap.

Module JSSet.

Definition t := list string.

Definition empty : t := [].

Definition has (x : string) (s : t) : bool := existsb (String.eqb x) s.

Definition add (x : string) (s : t) : t :=
  if has x s then s else s ++ [x].

End JSSet.

(* ================================================================= *)
(** ** Data model *)

Definition ALERT_POLL_INTERVAL_MS : Z := 60000.
Definition VOLUME_HISTORY_LIMIT : nat := 20.
Definition VOLUME_MIN_SAMPLES : nat := 3.

Inductive direction := ABOVE | BELOW.

Definition direction_eqb (a b : direction) : bool :=
  match a, b with
  | ABOVE, ABOVE | BELOW, BELOW => true
  | _, _ => false
  end.

Module PriceAlert.
Record t := mk { stockCode : string; direction : direction; targetPrice : JS.number }.
End PriceAlert.

Module VolumeAlert.
Record t := mk { stockCode : string; multiplier : JS.number }.
End VolumeAlert.

Module ChangeAlert.
Record t := mk { stockCode : string; changePercent : JS.number }.
End ChangeAlert.

(** The four [Map]s that [main] creates empty. *)
Record State := mkState {
  userPriceAlerts : JSMap.t (list PriceAlert.t);
  userVolumeAlerts : JSMap.t (list VolumeAlert.t);
  userChangeAlerts : JSMap.t (list ChangeAlert.t);
  volumeHistory : JSMap.t (list JS.number)
}.

Definition initial : State :=
  mkState JSMap.empty JSMap.empty JSMap.empty JSMap.empty.

(** [map.get(userId) || []] *)
Definition listByUser {A : Type} (userId : string) (m : JSMap.t (list A)) : list A :=
  match JSMap.get userId m with
  | Some alerts => alerts
  | None => []
  end.

(** The fields of [msgArray[0]] that [checkAlerts] reads, each as the number
    [parseFloat] makes of it: [nan] when the field is missing or holds no
    number (the feed writes "-" when there was no trade). *)
Record StockData := mkStockData { z : JS.number; y : JS.number; v : JS.number }.

(** What [await fetchStockData(stockCode)] comes to: the request throws,
    [msgArray] is missing or empty ([null]), or its first element. *)
Inductive fetched :=
| Rejected
| NoData
| Data (stockData : StockData).

(** The text pushed to a user, by what it is built from ([stockName] is a
    function of [stockCode]). *)
Inductive message :=
| PriceMessage (stockCode : string) (dir : direction) (targetPrice currentPrice : JS.number)
| ChangeMessage (stockCode : string) (percentageChange : JS.number)
| VolumeMessage (stockCode : string) (currentVolume multiplier : JS.number).

Inductive effect :=
| pushMessage (userId : string) (text : message)
| pushFailed (userId : string) (text : message)
| fetchFailed (stockCode : string).

(* ================================================================= *)
(** ** The evaluator: [checkAlerts] *)

(** [client.pushMessage(userId, ...).catch(err => console.error(...))]: the
    push is not awaited; [delivered] says whether the promise is fulfilled,
    and a rejection only leaves a line in the log. *)
Definition notify (delivered : string -> message -> bool)
    (userId : string) (text : message) : list effect :=
  pushMessage userId text ::
  (if delivered userId text then [] else [pushFailed userId text]).

(** The loop over one of the three alert maps.  The source has it three
    times, with the trigger test and the message text as the only
    differences; [codeOf] reads [alert.stockCode]. *)
Section Sweep.
Context {A : Type}.
Variable codeOf : A -> string.
Variable delivered : string -> message -> bool.
Variable stockCode : string.
Variable trigger : A -> bool.
Variable text : A -> message.

(** The body of [for (const alert of alerts)], on [remaining] and on the
    effects so far. *)
Definition scanStep (userId : string)
    (acc : list A * list effect) (alert : A) : list A * list effect :=
  let '(remaining, out) := acc in
  if negb (String.eqb (codeOf alert) stockCode) then (remaining ++ [alert], out)
  else if trigger alert then (remaining, out ++ notify delivered userId (text alert))
  else (remaining ++ [alert], out).

Definition scan (userId : string) (alerts : list A) : list A * list effect :=
  fold_left (scanStep userId) alerts ([], []).

(** The body of [for (const [userId, alerts] of map.entries())].  The
    iterator is live, but an iteration writes the entry it is at and no
    other, so it meets the entries the map had when the loop began, each
    with the array it had then. *)
Definition sweepUser (acc : JSMap.t (list A) * list effect)
    (entry : string * list A) : JSMap.t (list A) * list effect :=
  let '(m, out) := acc in
  let '(userId, alerts) := entry in
  let '(remaining, fired) := scan userId alerts in
  (if 0 <? length remaining then JSMap.set userId remaining m
   else JSMap.delete userId m,
   out ++ fired).

Definition sweep (m : JSMap.t (list A)) : JSMap.t (list A) * list effect :=
  fold_left sweepUser (JSMap.entries m) (m, []).

End Sweep.

(** The numbers derived from a snapshot. *)
Definition currentPrice (stockData : StockData) : JS.number :=
  JS.or_else (z stockData) 0%float.

Definition previousClose (stockData : StockData) : JS.number :=
  JS.or_else (y stockData) (currentPrice stockData).

Definition priceChange (stockData : StockData) : JS.number :=
  (currentPrice stockData - previousClose stockData)%float.

Definition percentageChange (stockData : StockData) : JS.number :=
  if JS.strict_ne (previousClose stockData) 0%float
  then (priceChange stockData / previousClose stockData * 100)%float
  else 0%float.

Definition currentVolume (stockData : StockData) : JS.number :=
  JS.or_else (v stockData) 0%float.

(** The three trigger tests. *)
Definition priceTrigger (currentPrice : JS.number) (alert : PriceAlert.t) : bool :=
  (direction_eqb (PriceAlert.direction alert) ABOVE
     && JS.ge currentPrice (PriceAlert.targetPrice alert))
  || (direction_eqb (PriceAlert.direction alert) BELOW
     && JS.le currentPrice (PriceAlert.targetPrice alert)).

Definition changeTrigger (percentageChange : JS.number) (alert : ChangeAlert.t) : bool :=
  JS.ge (PrimFloat.abs percentageChange) (ChangeAlert.changePercent alert).

Definition averageVolume (history : list JS.number) : JS.number :=
  if 0 <? length history
  then (JS.sum history / JS.of_length (length history))%float
  else 0%float.

Definition volumeTrigger (history : list JS.number) (currentVolume : JS.number)
    (alert : VolumeAlert.t) : bool :=
  if (VOLUME_MIN_SAMPLES <=? length history) && JS.gt (averageVolume history) 0%float
  then JS.ge currentVolume (averageVolume history * VolumeAlert.multiplier alert)%float
  else false.

(** [volumeHistory.get(stockCode) || []] *)
Definition historyOf (stockCode : string) (st : State) : list JS.number :=
  listByUser stockCode (volumeHistory st).

(** The last lines of the loop body: append, then keep the newest
    [VOLUME_HISTORY_LIMIT] samples. *)
Definition appendSample (history : list JS.number) (currentVolume : JS.number)
    : list JS.number :=
  let history := history ++ [currentVolume] in
  if VOLUME_HISTORY_LIMIT <? length history
  then JS.slice (length history - VOLUME_HISTORY_LIMIT) history
  else history.

(** The body of [for (const stockCode of stockCodes)] once the fetch has
    returned a snapshot. *)
Definition evaluate (delivered : string -> message -> bool)
    (stockCode : string) (stockData : StockData) (st : State)
    : State * list effect :=
  let currentPrice := currentPrice stockData in
  let percentageChange := percentageChange stockData in
  let currentVolume := currentVolume stockData in
  let '(prices, out1) :=
    sweep PriceAlert.stockCode delivered stockCode
      (priceTrigger currentPrice)
      (fun alert => PriceMessage stockCode (PriceAlert.direction alert)
                      (PriceAlert.targetPrice alert) currentPrice)
      (userPriceAlerts st) in
  let '(changes, out2) :=
    sweep ChangeAlert.stockCode delivered stockCode
      (changeTrigger percentageChange)
      (fun _ => ChangeMessage stockCode percentageChange)
      (userChangeAlerts st) in
  let history := historyOf stockCode st in
  let '(volumes, out3) :=
    sweep VolumeAlert.stockCode delivered stockCode
      (volumeTrigger history currentVolume)
      (fun alert => VolumeMessage stockCode currentVolume (VolumeAlert.multiplier alert))
      (userVolumeAlerts st) in
  (mkState prices volumes changes
     (JSMap.set stockCode (appendSample history currentVolume) (volumeHistory st)),
   out1 ++ out2 ++ out3).

(** [alerts.forEach(alert => stockCodes.add(alert.stockCode))] over the
    values of one map. *)
Definition addCodes {A : Type} (codeOf : A -> string)
    (m : JSMap.t (list A)) (stockCodes : JSSet.t) : JSSet.t :=
  fold_left
    (fun stockCodes alerts =>
       fold_left (fun stockCodes alert => JSSet.add (codeOf alert) stockCodes)
         alerts stockCodes)
    (JSMap.values m) stockCodes.

Definition collectCodes (st : State) : JSSet.t :=
  addCodes ChangeAlert.stockCode (userChangeAlerts st)
    (addCodes VolumeAlert.stockCode (userVolumeAlerts st)
       (addCodes PriceAlert.stockCode (userPriceAlerts st) JSSet.empty)).

(** One iteration of [for (const stockCode of stockCodes)]: a request that
    throws is logged and the code skipped, [null] skips it silently. *)
Definition visit (fetchStockData : string -> fetched)
    (delivered : string -> message -> bool)
    (acc : State * list effect) (stockCode : string) : State * list effect :=
  let '(st, out) := acc in
  match fetchStockData stockCode with
  | Rejected => (st, out ++ [fetchFailed stockCode])
  | NoData => (st, out)
  | Data stockData =>
      let '(st', fired) := evaluate delivered stockCode stockData st in
      (st', out ++ fired)
  end.

Definition visitAll (fetchStockData : string -> fetched)
    (delivered : string -> message -> bool)
    (stockCodes : list string) (acc : State * list effect) : State * list effect :=
  fold_left (visit fetchStockData delivered) stockCodes acc.

(** One evaluation cycle.  Each code is fetched once, so the feed is a
    function from codes to what the fetch gives. *)
Definition checkAlerts (fetchStockData : string -> fetched)
    (delivered : string -> message -> bool) (st : State) : State * list effect :=
  visitAll fetchStockData delivered (collectCodes st) (st, []).

(* ================================================================= *)
(** ** The commands of [handleEvent] that touch the registry *)

(** A text message once one of the patterns has matched it; [Other] stands
    for the quote query, the help text and anything unmatched. *)
Inductive command :=
| AlertDirected (stockCode : string) (dir : direction) (targetPrice : JS.number)
| AlertSimple (stockCode : string) (targetPrice : JS.number)
| AlertChange (stockCode : string) (changePercent : JS.number)
| AlertList
| AlertClear
| Vol (stockCode : string) (multiplier : JS.number)
| VolList
| VolClear
| Other.

Definition getUserAlertBucket {A : Type} (m : JSMap.t (list A)) (userId : string)
    : JSMap.t (list A) * list A :=
  let m := if negb (JSMap.has userId m) then JSMap.set userId [] m else m in
  (m, listByUser userId m).

(** [findIndex], then either a write to the element found or a [push].
    The array is the one the map holds, so the map sees the change: that
    is the final [set]. *)
Definition upsert {A : Type} (same : A -> bool) (replace : A -> A) (fresh : A)
    (m : JSMap.t (list A)) (userId : string) : JSMap.t (list A) :=
  let '(m, userAlerts) := getUserAlertBucket m userId in
  let userAlerts :=
    match JS.findIndex same userAlerts with
    | Some existingIndex => JS.update existingIndex replace userAlerts
    | None => userAlerts ++ [fresh]
    end in
  JSMap.set userId userAlerts m.

Definition samePriceKey (stockCode : string) (dir : direction)
    (alert : PriceAlert.t) : bool :=
  String.eqb (PriceAlert.stockCode alert) stockCode
  && direction_eqb (PriceAlert.direction alert) dir.

Definition upsertPrice (stockCode : string) (dir : direction)
    (targetPrice : JS.number) (userId : string) (st : State) : State :=
  mkState
    (upsert (samePriceKey stockCode dir)
       (fun alert => PriceAlert.mk (PriceAlert.stockCode alert)
                       (PriceAlert.direction alert) targetPrice)
       (PriceAlert.mk stockCode dir targetPrice)
       (userPriceAlerts st) userId)
    (userVolumeAlerts st) (userChangeAlerts st) (volumeHistory st).

Definition upsertChange (stockCode : string) (changePercent : JS.number)
    (userId : string) (st : State) : State :=
  mkState (userPriceAlerts st) (userVolumeAlerts st)
    (upsert (fun alert => String.eqb (ChangeAlert.stockCode alert) stockCode)
       (fun alert => ChangeAlert.mk (ChangeAlert.stockCode alert) changePercent)
       (ChangeAlert.mk stockCode changePercent)
       (userChangeAlerts st) userId)
    (volumeHistory st).

Definition upsertVolume (stockCode : string) (multiplier : JS.number)
    (userId : string) (st : State) : State :=
  mkState (userPriceAlerts st)
    (upsert (fun alert => String.eqb (VolumeAlert.stockCode alert) stockCode)
       (fun alert => VolumeAlert.mk (VolumeAlert.stockCode alert) multiplier)
       (VolumeAlert.mk stockCode multiplier)
       (userVolumeAlerts st) userId)
    (userChangeAlerts st) (volumeHistory st).

(** The registry after [handleEvent] has served [cmd] for [userId].  The
    simple form of [ALERT] fetches the quote first; when that throws the
    handler's promise rejects with the registry as it was. *)
Definition handleEvent (fetchStockData : string -> fetched)
    (userId : string) (cmd : command) (st : State) : State :=
  match cmd with
  | AlertDirected stockCode dir targetPrice =>
      upsertPrice stockCode dir targetPrice userId st
  | AlertSimple stockCode targetPrice =>
      match fetchStockData stockCode with
      | Rejected | NoData => st
      | Data stockData =>
          let dir := if JS.le (currentPrice stockData) targetPrice
                     then ABOVE else BELOW in
          upsertPrice stockCode dir targetPrice userId st
      end
  | AlertChange stockCode changePercent =>
      upsertChange stockCode changePercent userId st
  | AlertClear =>
      mkState (JSMap.delete userId (userPriceAlerts st)) (userVolumeAlerts st)
        (JSMap.delete userId (userChangeAlerts st)) (volumeHistory st)
  | Vol stockCode multiplier =>
      if negb (PrimFloat.is_finite multiplier) || JS.le multiplier 1%float
      then st
      else upsertVolume stockCode multiplier userId st
  | VolClear =>
      mkState (userPriceAlerts st) (JSMap.delete userId (userVolumeAlerts st))
        (userChangeAlerts st) (volumeHistory st)
  | AlertList | VolList | Other => st
  end.

(* ================================================================= *)
(** ** The scheduler

    [setInterval(() => { checkAlerts()... }, ALERT_POLL_INTERVAL_MS)]
    followed by one direct call: cycle [0] starts when [main] reaches that
    call, and the timer starts cycle [n] after [n] periods, whether or not
    an earlier call has settled.  Times are milliseconds since startup, on
    an ideal timer. *)

Definition cycleStart (n : nat) : Z := Z.of_nat n * ALERT_POLL_INTERVAL_MS.

(** [duration n] is how long cycle [n] takes to settle. *)
Definition cycleEnd (duration : nat -> Z) (n : nat) : Z :=
  cycleStart n + duration n.

Definition runningAt (duration : nat -> Z) (n : nat) (time : Z) : bool :=
  (cycleStart n <=? time)%Z && (time <? cycleEnd duration n)%Z.

(* ================================================================= *)
(** ** What a sweep comes to, and the invariants of the registry *)

Section Swept.
Context {A : Type}.
Variable codeOf : A -> string.
Variable delivered : string -> message -> bool.
Variable stockCode : string.
Variable trigger : A -> bool.
Variable text : A -> message.

(** An alert fires in the sweep for [stockCode] when it is on that code
    and its trigger test holds. *)
Definition fires (alert : A) : bool :=
  String.eqb (codeOf alert) stockCode && trigger alert.

Definition kept (alerts : list A) : list A :=
  filter (fun alert => negb (fires alert)) alerts.

Definition firedOf (userId : string) (alerts : list A) : list effect :=
  flat_map
    (fun alert => if fires alert then notify delivered userId (text alert) else [])
    alerts.

Definition sweptEntry (entry : string * list A) : list (string * list A) :=
  match kept (snd entry) with
  | [] => []
  | remaining => [(fst entry, remaining)]
  end.

Definition sweptMap (m : JSMap.t (list A)) : JSMap.t (list A) :=
  flat_map sweptEntry m.

Definition sweptEffects (m : JSMap.t (list A)) : list effect :=
  flat_map (fun entry => firedOf (fst entry) (snd entry)) m.

End Swept.

(** No two equal elements, for a boolean equality. *)
Fixpoint distinct {K : Type} (eqb : K -> K -> bool) (l : list K) : bool :=
  match l with
  | [] => true
  | x :: rest => negb (existsb (eqb x) rest) && distinct eqb rest
  end.

(** The dedup keys: (identifier, direction) for a price alert, the
    identifier alone for the other two kinds. *)
Definition priceKey (alert : PriceAlert.t) : string * direction :=
  (PriceAlert.stockCode alert, PriceAlert.direction alert).

Definition priceKey_eqb (k1 k2 : string * direction) : bool :=
  String.eqb (fst k1) (fst k2) && direction_eqb (snd k1) (snd k2).

(** A [Map] has each user once. *)
Definition usersOk {A : Type} (m : JSMap.t (list A)) : bool :=
  distinct String.eqb (JSMap.keys m).

(** No user holds two alerts with one dedup key. *)
Definition bucketsOk {A K : Type} (eqb : K -> K -> bool) (key : A -> K)
    (m : JSMap.t (list A)) : bool :=
  forallb (fun alerts => distinct eqb (map key alerts)) (JSMap.values m).

Definition registry_ok (st : State) : bool :=
  usersOk (userPriceAlerts st) && usersOk (userVolumeAlerts st)
  && usersOk (userChangeAlerts st)
  && bucketsOk priceKey_eqb priceKey (userPriceAlerts st)
  && bucketsOk String.eqb VolumeAlert.stockCode (userVolumeAlerts st)
  && bucketsOk String.eqb ChangeAlert.stockCode (userChangeAlerts st).

(** No user is mapped to an empty collection. *)
Definition pruned {A : Type} (m : JSMap.t (list A)) : bool :=
  forallb (fun alerts => 0 <? length alerts) (JSMap.values m).

(** The histories respect the window. *)
Definition bounded (st : State) : bool :=
  forallb (fun history => length history <=? VOLUME_HISTORY_LIMIT)
    (JSMap.values (volumeHistory st)).

(** What the program does to its state between two suspension points: it
    serves a command, or it evaluates one identifier of a running cycle.
    Commands may arrive between the identifiers of a cycle, so the states
    the program goes through are those of the runs of such events. *)
Inductive event :=
| Command (fetchStockData : string -> fetched) (userId : string) (cmd : command)
| Evaluated (delivered : string -> message -> bool)
    (stockCode : string) (stockData : StockData).

Definition perform (st : State) (e : event) : State :=
  match e with
  | Command fetchStockData userId cmd => handleEvent fetchStockData userId cmd st
  | Evaluated delivered stockCode stockData =>
      fst (evaluate delivered stockCode stockData st)
  end.

Definition run (trace : list event) : State := fold_left perform trace initial.

(** Each of the three maps has each user once. *)
Definition users_ok (st : State) : Prop :=
  NoDup (JSMap.keys (userPriceAlerts st))
  /\ NoDup (JSMap.keys (userVolumeAlerts st))
  /\ NoDup (JSMap.keys (userChangeAlerts st)).

Definition pruned_ok (st : State) : bool :=
  pruned (userPriceAlerts st) && pruned (userVolumeAlerts st)
  && pruned (userChangeAlerts st).

(** The numbers the command patterns accept.  Each pattern takes its number
    from text matching [\d+(?:\.\d+)?], an unsigned decimal, and
    [parseFloat] of such text is neither negative nor [NaN]. *)
Definition unsignedDecimal (x : JS.number) : bool := JS.le 0%float x.

(** The collection [upsert] leaves for the user. *)
Definition upserted {A : Type} (same : A -> bool) (replace : A -> A) (fresh : A)
    (alerts : list A) : list A :=
  match JS.findIndex same alerts with
  | Some existingIndex => JS.update existingIndex replace alerts
  | None => alerts ++ [fresh]
  end.

(** Whether an alert of some kind fires in a cycle: its code is fetched and
    the kind's trigger test, [trig], holds on the snapshot. *)
Definition firesIn {A : Type} (codeOf : A -> string)
    (trig : State -> string -> StockData -> A -> bool)
    (fetchStockData : string -> fetched) (st : State) (a : A) : bool :=
  match fetchStockData (codeOf a) with
  | Data stockData => trig st (codeOf a) stockData a
  | _ => false
  end.

(** Whether an alert fires in a cycle: its code is fetched, and the trigger
    test holds on the snapshot (for a volume alert, against the history the
    code has when the cycle begins). *)
Definition priceFires (fetchStockData : string -> fetched)
    (alert : PriceAlert.t) : bool :=
  match fetchStockData (PriceAlert.stockCode alert) with
  | Data stockData => priceTrigger (currentPrice stockData) alert
  | _ => false
  end.

Definition changeFires (fetchStockData : string -> fetched)
    (alert : ChangeAlert.t) : bool :=
  match fetchStockData (ChangeAlert.stockCode alert) with
  | Data stockData => changeTrigger (percentageChange stockData) alert
  | _ => false
  end.

Definition volumeFires (fetchStockData : string -> fetched) (st : State)
    (alert : VolumeAlert.t) : bool :=
  match fetchStockData (VolumeAlert.stockCode alert) with
  | Data stockData =>
      volumeTrigger (historyOf (VolumeAlert.stockCode alert) st)
        (currentVolume stockData) alert
  | _ => false
  end.

(** The pushes that tell [userId] about one alert, by its dedup key. *)
Definition isPricePush (userId stockCode : string) (dir : direction)
    (e : effect) : bool :=
  match e with
  | pushMessage userId' (PriceMessage stockCode' dir' _ _) =>
      String.eqb userId' userId && String.eqb stockCode' stockCode
      && direction_eqb dir' dir
  | _ => false
  end.

Definition isChangePush (userId stockCode : string) (e : effect) : bool :=
  match e with
  | pushMessage userId' (ChangeMessage stockCode' _) =>
      String.eqb userId' userId && String.eqb stockCode' stockCode
  | _ => false
  end.

Definition isVolumePush (userId stockCode : string) (e : effect) : bool :=
  match e with
  | pushMessage userId' (VolumeMessage stockCode' _ _) =>
      String.eqb userId' userId && String.eqb stockCode' stockCode
  | _ => false
  end.

Definition count (p : effect -> bool) (out : list effect) : nat :=
  length (filter p out).

(* ================================================================= *)
(** ** A registry to try things on

    User U1 watches 2330 for a rise to 640 and for a 5% change, and 2454
    for a rise to 1000; user U2 watches 2330 for a fall to 500 and 2317
    for twice its average volume and for a 5% change.  Three cycles have already seen a volume
    of 100 for 2317. *)

Definition noFeed : string -> fetched := fun _ => NoData.

Definition silent : string -> message -> bool := fun _ _ => false.

Definition exampleState : State :=
  run [ Command noFeed "U1" (AlertDirected "2330" ABOVE 640%float);
        Command noFeed "U1" (AlertChange "2330" 5%float);
        Command noFeed "U1" (AlertDirected "2454" ABOVE 1000%float);
        Command noFeed "U2" (AlertDirected "2330" BELOW 500%float);
        Command noFeed "U2" (Vol "2317" 2%float);
        Command noFeed "U2" (AlertChange "2317" 5%float);
        Evaluated silent "2317" (mkStockData 100%float 100%float 100%float);
        Evaluated silent "2317" (mkStockData 100%float 100%float 100%float);
        Evaluated silent "2317" (mkStockData 100%float 100%float 100%float) ]%string.

(** 2330 trades at 650 after a close at 600, 2317 at 100 with a volume of
    250 and no previous close; the request for 2454 fails. *)
Definition exampleFeed (stockCode : string) : fetched :=
  if String.eqb stockCode "2330"
  then Data (mkStockData 650%float 600%float 1000%float)
  else if String.eqb stockCode "2317"
  then Data (mkStockData 100%float nan 250%float)
  else if String.eqb stockCode "2454" then Rejected
  else NoData.

(** 2330 has not traded: the feed gives "-" for its price. *)
Definition exampleFeedNoTrade (stockCode : string) : fetched :=
  if String.eqb stockCode "2330"
  then Data (mkStockData nan 600%float 0%float)
  else NoData.

(** 2330 dropped from 100 to 94. *)
Definition exampleFeedDrop (stockCode : string) : fetched :=
  if String.eqb stockCode "2330"
  then Data (mkStockData 94%float 100%float 1000%float)
  else NoData.

(* ================================================================= *)
(** ** Start-up: [startBot]

    [process.env] as the loop finds it at each try; a variable counts when
    it is defined and not the empty string. *)

Record Env := mkEnv {
  CHANNEL_ACCESS_TOKEN : option string;
  CHANNEL_SECRET : option string
}.

Record Config := mkConfig {
  channelAccessToken : string;
  channelSecret : string
}.

(** [process.env.CHANNEL_ACCESS_TOKEN && process.env.CHANNEL_SECRET] *)
Definition loaded (env : Env) : option Config :=
  match CHANNEL_ACCESS_TOKEN env, CHANNEL_SECRET env with
  | Some token, Some secret =>
      if negb (String.eqb token "") && negb (String.eqb secret "")
      then Some (mkConfig token secret)
      else None
  | _, _ => None
  end.

Definition START_TRIES : nat := 10.
Definition START_WAIT_MS : Z := 2000.

(** The [for] loop from [iTryCount] on, with [remaining] tries left: the
    configuration it returns, or [None] when it falls through to the
    [throw], and the number of two-second waits it went through. *)
Fixpoint tryFrom (env : nat -> Env) (iTryCount remaining : nat)
    : option Config * nat :=
  match remaining with
  | 0 => (None, 0)
  | S remaining' =>
      match loaded (env iTryCount) with
      | Some config => (Some config, 0)
      | None =>
          let '(result, waits) := tryFrom env (S iTryCount) remaining' in
          (result, S waits)
      end
  end.

Definition startBot (env : nat -> Env) : option Config * nat :=
  tryFrom env 0 START_TRIES.

(* ================================================================= *)
(** ** Further invariants and selections of effects *)

(** What [VOL] lets through: [Number.isFinite(multiplier)] and not
    [multiplier <= 1]. *)
Definition validMultiplier (multiplier : JS.number) : bool :=
  PrimFloat.is_finite multiplier && negb (JS.le multiplier 1%float).

Definition multipliers_ok (st : State) : bool :=
  forallb
    (forallb (fun alert => validMultiplier (VolumeAlert.multiplier alert)))
    (JSMap.values (userVolumeAlerts st)).

(** No history holds a [NaN]. *)
Definition samples_ok (st : State) : bool :=
  forallb (forallb (fun sample => negb (PrimFloat.is_nan sample)))
    (JSMap.values (volumeHistory st)).

Definition isFetchFailed (stockCode : string) (e : effect) : bool :=
  match e with
  | fetchFailed stockCode' => String.eqb stockCode' stockCode
  | _ => false
  end.

(** Every failed push is logged, and nothing else is logged as one. *)
Definition failures_logged (delivered : string -> message -> bool)
    (out : list effect) : Prop :=
  forall userId text,
    In (pushFailed userId text) out
    <-> In (pushMessage userId text) out /\ delivered userId text = false.

(** What a command makes of the collections of the user who sent it, kind
    by kind. *)
Definition ownPrice (fetchStockData : string -> fetched) (cmd : command)
    (alerts : list PriceAlert.t) : list PriceAlert.t :=
  let set stockCode dir targetPrice :=
    upserted (samePriceKey stockCode dir)
      (fun alert => PriceAlert.mk (PriceAlert.stockCode alert)
                      (PriceAlert.direction alert) targetPrice)
      (PriceAlert.mk stockCode dir targetPrice) alerts in
  match cmd with
  | AlertDirected stockCode dir targetPrice => set stockCode dir targetPrice
  | AlertSimple stockCode targetPrice =>
      match fetchStockData stockCode with
      | Data stockData =>
          set stockCode
            (if JS.le (currentPrice stockData) targetPrice then ABOVE else BELOW)
            targetPrice
      | _ => alerts
      end
  | AlertClear => []
  | _ => alerts
  end.

Definition ownChange (cmd : command) (alerts : list ChangeAlert.t)
    : list ChangeAlert.t :=
  match cmd with
  | AlertChange stockCode changePercent =>
      upserted (fun alert => String.eqb (ChangeAlert.stockCode alert) stockCode)
        (fun alert => ChangeAlert.mk (ChangeAlert.stockCode alert) changePercent)
        (ChangeAlert.mk stockCode changePercent) alerts
  | AlertClear => []
  | _ => alerts
  end.

Definition ownVolume (cmd : command) (alerts : list VolumeAlert.t)
    : list VolumeAlert.t :=
  match cmd with
  | Vol stockCode multiplier =>
      if validMultiplier multiplier
      then upserted (fun alert => String.eqb (VolumeAlert.stockCode alert) stockCode)
             (fun alert => VolumeAlert.mk (VolumeAlert.stockCode alert) multiplier)
             (VolumeAlert.mk stockCode multiplier) alerts
      else alerts
  | VolClear => []
  | _ => alerts
  end.

(* ================================================================= *)
(** * Properties *)

(** ** Facts about [JSMap] and [JSSet] *)

Module JSMapFacts.
Section Facts.
Context {V : Type}.
Implicit Types (m : JSMap.t V) (k : string) (v : V).

Lemma get_set_same m k v : JSMap.get k (JSMap.set k v m) = Some v.
Proof.
  induction m as [|[k' v'] m IH]; simpl.
  - now rewrite String.eqb_refl.
  - destruct (String.eqb k' k) eqn:E; simpl.
    + now rewrite String.eqb_refl.
    + now rewrite E.
Qed.

Lemma get_set_other m k k' v :
  k <> k' -> JSMap.get k' (JSMap.set k v m) = JSMap.get k' m.
Proof.
  intros Hne. induction m as [|[k0 v0] m IH]; simpl.
  - destruct (String.eqb_spec k k'); congruence.
  - destruct (String.eqb_spec k0 k) as [->|Hk0]; simpl.
    + destruct (String.eqb_spec k k'); congruence.
    + now rewrite IH.
Qed.

Lemma get_delete_same m k : JSMap.get k (JSMap.delete k m) = None.
Proof.
  induction m as [|[k0 v0] m IH]; simpl; auto.
  destruct (String.eqb_spec k0 k) as [->|Hk0]; simpl; auto.
  destruct (String.eqb_spec k0 k); congruence.
Qed.

Lemma get_delete_other m k k' :
  k <> k' -> JSMap.get k' (JSMap.delete k m) = JSMap.get k' m.
Proof.
  intros Hne. induction m as [|[k0 v0] m IH]; simpl; auto.
  destruct (String.eqb_spec k0 k) as [->|Hk0]; simpl.
  - destruct (String.eqb_spec k k'); congruence.
  - now rewrite IH.
Qed.

Lemma get_In m k v : JSMap.get k m = Some v -> In (k, v) m.
Proof.
  induction m as [|[k0 v0] m IH]; simpl; [discriminate|].
  destruct (String.eqb_spec k0 k) as [->|Hk0]; intros H.
  - injection H as ->. now left.
  - right. now apply IH.
Qed.

Lemma get_None m k : ~ In k (JSMap.keys m) -> JSMap.get k m = None.
Proof.
  induction m as [|[k0 v0] m IH]; simpl; auto.
  intros Hn. destruct (String.eqb_spec k0 k) as [->|Hk0].
  - exfalso. apply Hn. now left.
  - apply IH. intros Hin. apply Hn. now right.
Qed.

Lemma get_Some_key m k v : JSMap.get k m = Some v -> In k (JSMap.keys m).
Proof.
  intros H. apply get_In in H. unfold JSMap.keys.
  change k with (fst (k, v)). now apply in_map.
Qed.

Lemma keys_set m k v k' :
  In k' (JSMap.keys (JSMap.set k v m)) <-> k' = k \/ In k' (JSMap.keys m).
Proof.
  induction m as [|[k0 v0] m IH]; simpl.
  - intuition congruence.
  - destruct (String.eqb_spec k0 k) as [->|Hk0]; simpl.
    + intuition congruence.
    + rewrite IH. intuition congruence.
Qed.

Lemma NoDup_keys_set m k v :
  NoDup (JSMap.keys m) -> NoDup (JSMap.keys (JSMap.set k v m)).
Proof.
  induction m as [|[k0 v0] m IH]; simpl; intros Hnd.
  - constructor; [easy | constructor].
  - inversion Hnd as [|? ? Hnotin Hnd']; subst.
    destruct (String.eqb_spec k0 k) as [->|Hk0]; simpl.
    + now constructor.
    + constructor; [|now apply IH].
      rewrite (keys_set m k v k0). intuition congruence.
Qed.

Lemma keys_delete m k k' :
  In k' (JSMap.keys (JSMap.delete k m)) <-> k' <> k /\ In k' (JSMap.keys m).
Proof.
  induction m as [|[k0 v0] m IH]; simpl.
  - intuition.
  - destruct (String.eqb_spec k0 k) as [->|Hk0]; simpl.
    + rewrite IH. intuition congruence.
    + rewrite IH. intuition congruence.
Qed.

Lemma NoDup_keys_delete m k :
  NoDup (JSMap.keys m) -> NoDup (JSMap.keys (JSMap.delete k m)).
Proof.
  induction m as [|[k0 v0] m IH]; simpl; intros Hnd; [constructor|].
  inversion Hnd as [|? ? Hnotin Hnd']; subst.
  destruct (String.eqb_spec k0 k) as [->|Hk0]; simpl; auto.
  constructor; [|now apply IH].
  rewrite (keys_delete m k k0). intuition.
Qed.

  (** Writing the entry an iteration is at, when the keys before it are
    other keys. *)
Lemma set_at pre k v0 v rest :
  ~ In k (JSMap.keys pre) ->
  JSMap.set k v (pre ++ (k, v0) :: rest) = pre ++ (k, v) :: rest.
Proof.
  induction pre as [|[k0 w] pre IH]; simpl; intros Hn.
  - now rewrite String.eqb_refl.
  - destruct (String.eqb_spec k0 k) as [->|Hk0].
    + exfalso. apply Hn. now left.
    + f_equal. apply IH. intros Hin. apply Hn. now right.
Qed.

Lemma delete_fresh m k : ~ In k (JSMap.keys m) -> JSMap.delete k m = m.
Proof.
  induction m as [|[k0 w] m IH]; simpl; intros Hn; auto.
  destruct (String.eqb_spec k0 k) as [->|Hk0]; simpl.
  - exfalso. apply Hn. now left.
  - f_equal. apply IH. intros Hin. apply Hn. now right.
Qed.

Lemma delete_at pre k v0 rest :
  ~ In k (JSMap.keys pre) -> ~ In k (JSMap.keys rest) ->
  JSMap.delete k (pre ++ (k, v0) :: rest) = pre ++ rest.
Proof.
  intros Hpre Hrest. unfold JSMap.delete.
  rewrite filter_app. simpl. rewrite String.eqb_refl. simpl.
  fold (JSMap.delete k pre). fold (JSMap.delete k rest).
  now rewrite !delete_fresh.
Qed.

End Facts.
End JSMapFacts.

Module JSSetFacts.

Lemma has_In x s : JSSet.has x s = true <-> In x s.
Proof.
  unfold JSSet.has. rewrite existsb_exists. split.
  - intros [y [Hin Heq]]. apply String.eqb_eq in Heq. now subst.
  - intros Hin. exists x. split; [assumption | apply String.eqb_refl].
Qed.

Lemma In_add x y s : In x (JSSet.add y s) <-> x = y \/ In x s.
Proof.
  unfold JSSet.add. destruct (JSSet.has y s) eqn:E.
  - apply has_In in E. split; [auto | intros [->|]; auto].
  - rewrite in_app_iff. simpl. intuition congruence.
Qed.

Lemma has_cons x y s :
  JSSet.has x (y :: s) = (String.eqb x y || JSSet.has x s)%bool.
Proof. reflexivity. Qed.

Lemma NoDup_add y s : NoDup s -> NoDup (JSSet.add y s).
Proof.
  intros Hnd. unfold JSSet.add. destruct (JSSet.has y s) eqn:E; auto.
  assert (Hn : ~ In y s).
  { intros Hin. apply has_In in Hin. congruence. }
  clear E. induction s as [|a s IH]; simpl.
  - constructor; [easy | constructor].
  - inversion Hnd; subst. simpl in Hn. constructor.
    + rewrite in_app_iff. simpl. intuition congruence.
    + apply IH; auto.
Qed.

End JSSetFacts.

(** ** One Sweep *)

Section SweepFacts.
Context {A : Type}.
Variable codeOf : A -> string.
Variable delivered : string -> message -> bool.
Variable stockCode : string.
Variable trigger : A -> bool.
Variable text : A -> message.

Local Abbreviation Scan := (scan codeOf delivered stockCode trigger text).
Local Abbreviation ScanStep := (scanStep codeOf delivered stockCode trigger text).
Local Abbreviation SweepUser := (sweepUser codeOf delivered stockCode trigger text).
Local Abbreviation Sweep := (sweep codeOf delivered stockCode trigger text).
Local Abbreviation Kept := (kept codeOf stockCode trigger).
Local Abbreviation Fires := (fires codeOf stockCode trigger).
Local Abbreviation FiredOf := (firedOf codeOf delivered stockCode trigger text).
Local Abbreviation SweptEntry := (sweptEntry codeOf stockCode trigger).
Local Abbreviation SweptMap := (sweptMap codeOf stockCode trigger).
Local Abbreviation SweptEffects := (sweptEffects codeOf delivered stockCode trigger text).

Lemma scan_acc userId alerts remaining out :
  fold_left (ScanStep userId) alerts (remaining, out)
  = (remaining ++ Kept alerts, out ++ FiredOf userId alerts).
Proof.
  revert remaining out.
  induction alerts as [|alert alerts IH]; intros remaining out; simpl.
  - now rewrite !app_nil_r.
  - unfold fires.
    destruct (String.eqb (codeOf alert) stockCode); simpl.
    + destruct (trigger alert); simpl; rewrite IH.
      * now rewrite <- app_assoc.
      * now rewrite <- app_assoc.
    + rewrite IH. now rewrite <- app_assoc.
Qed.

Lemma scan_eq userId alerts :
  Scan userId alerts = (Kept alerts, FiredOf userId alerts).
Proof. unfold scan. now rewrite scan_acc. Qed.

Lemma sweep_acc rest : forall pre out,
  NoDup (JSMap.keys (pre ++ rest)) ->
  fold_left SweepUser rest (pre ++ rest, out)
  = (pre ++ SweptMap rest, out ++ SweptEffects rest).
Proof.
  induction rest as [|[userId alerts] rest IH]; intros pre out Hnd; simpl.
  - now rewrite !app_nil_r.
  - unfold JSMap.keys in Hnd. rewrite map_app in Hnd. simpl in Hnd.
    pose proof (NoDup_remove_2 _ _ _ Hnd) as Hfresh.
    rewrite in_app_iff in Hfresh.
    rewrite scan_eq. unfold sweptEntry. simpl.
    destruct (Kept alerts) as [|alert remaining] eqn:Hkept.
    + cbn [length Nat.ltb Nat.leb].
      rewrite JSMapFacts.delete_at by (unfold JSMap.keys; tauto).
      rewrite IH.
      * simpl. now rewrite <- app_assoc.
      * unfold JSMap.keys. rewrite map_app.
        now apply NoDup_remove_1 in Hnd.
    + cbn [length Nat.ltb Nat.leb].
      rewrite JSMapFacts.set_at by (unfold JSMap.keys; tauto).
      change (pre ++ (userId, alert :: remaining) :: rest)
        with (pre ++ [(userId, alert :: remaining)] ++ rest).
      rewrite app_assoc, IH.
      * now rewrite <- !app_assoc.
      * unfold JSMap.keys. rewrite <- app_assoc, map_app. simpl. exact Hnd.
Qed.

  (** With each user once in the map, the loop is a filter of every
    collection, emptied ones dropped. *)
Lemma sweep_eq m :
  NoDup (JSMap.keys m) -> Sweep m = (SweptMap m, SweptEffects m).
Proof.
  intros Hnd. exact (sweep_acc m [] [] Hnd).
Qed.

End SweepFacts.

Section SweptMapFacts.
Context {A : Type}.
Variable codeOf : A -> string.
Variable stockCode : string.
Variable trigger : A -> bool.

Local Abbreviation Kept := (kept codeOf stockCode trigger).
Local Abbreviation SweptMap := (sweptMap codeOf stockCode trigger).

Lemma keys_sweptMap m userId :
  In userId (JSMap.keys (SweptMap m)) -> In userId (JSMap.keys m).
Proof.
  induction m as [|[u alerts] m IH]; simpl; auto.
  unfold JSMap.keys in *. unfold sweptMap in *. simpl.
  rewrite map_app, in_app_iff. unfold sweptEntry at 1. simpl.
  destruct (Kept alerts); simpl; intuition.
Qed.

Lemma NoDup_keys_sweptMap m :
  NoDup (JSMap.keys m) -> NoDup (JSMap.keys (SweptMap m)).
Proof.
  induction m as [|[u alerts] m IH]; simpl; intros Hnd; [constructor|].
  inversion Hnd as [|? ? Hnotin Hnd']; subst.
  unfold JSMap.keys, sweptMap. simpl. rewrite map_app.
  unfold sweptEntry at 1. simpl.
  destruct (Kept alerts); simpl; [now apply IH|].
  constructor; [|now apply IH].
  intros Hin. apply Hnotin. now apply keys_sweptMap.
Qed.

Lemma listByUser_sweptMap m userId :
  NoDup (JSMap.keys m) ->
  listByUser userId (SweptMap m) = Kept (listByUser userId m).
Proof.
  unfold listByUser.
  induction m as [|[u alerts] m IH]; simpl; intros Hnd; auto.
  inversion Hnd as [|? ? Hnotin Hnd']; subst.
  unfold sweptEntry at 1. simpl.
  destruct (String.eqb_spec u userId) as [->|Hne].
  - destruct (Kept alerts) as [|a r] eqn:Hk; simpl.
    + rewrite JSMapFacts.get_None; auto.
      intros Hin. apply Hnotin. now apply keys_sweptMap.
    + now rewrite String.eqb_refl.
  - destruct (Kept alerts) as [|a r] eqn:Hk; simpl.
    + now apply IH.
    + destruct (String.eqb_spec u userId); [congruence|]. now apply IH.
Qed.

Lemma values_sweptMap m remaining :
  In remaining (JSMap.values (SweptMap m)) ->
  remaining <> [] /\ exists alerts, In alerts (JSMap.values m) /\ remaining = Kept alerts.
Proof.
  unfold JSMap.values, sweptMap.
  rewrite in_map_iff. intros [[u r] [Heq Hin]]. simpl in Heq. subst r.
  apply in_flat_map in Hin. destruct Hin as [[u' alerts] [Hin Hentry]].
  unfold sweptEntry in Hentry. simpl in Hentry.
  destruct (Kept alerts) as [|a r] eqn:Hk; simpl in Hentry; [easy|].
  destruct Hentry as [Heq|[]]. injection Heq as <- <-.
  split; [discriminate|].
  exists alerts. split; [|now rewrite Hk].
  rewrite in_map_iff. exists (u', alerts). now split.
Qed.

End SweptMapFacts.

(** ** Counting effects *)

Lemma count_app p out1 out2 : count p (out1 ++ out2) = count p out1 + count p out2.
Proof. unfold count. now rewrite filter_app, length_app. Qed.

Lemma count_notify p delivered userId text :
  (forall u t, p (pushFailed u t) = false) ->
  count p (notify delivered userId text)
  = if p (pushMessage userId text) then 1 else 0.
Proof.
  intros Hfail. unfold count, notify. simpl.
  destruct (delivered userId text); simpl; rewrite ?Hfail;
    destruct (p (pushMessage userId text)); reflexivity.
Qed.

Lemma length_filter_false {A : Type} (p : A -> bool) (l : list A) :
  (forall a, In a l -> p a = false) -> length (filter p l) = 0.
Proof.
  induction l as [|a l IH]; simpl; intros H; auto.
  rewrite (H a) by now left. apply IH. intros b Hb. apply H. now right.
Qed.

(** Two disjoint tests counted apart come to their union counted once. *)
Lemma length_filter_split {A : Type} (f g h : A -> bool) (l : list A) :
  (forall a, In a l ->
     (if f a then 1 else 0) + (if g a then 1 else 0) = if h a then 1 else 0) ->
  length (filter f l) + length (filter g l) = length (filter h l).
Proof.
  induction l as [|a l IH]; simpl; intros H; auto.
  assert (Ha := H a (or_introl eq_refl)).
  assert (IH' : length (filter f l) + length (filter g l) = length (filter h l)).
  { apply IH. intros b Hb. apply H. now right. }
  destruct (f a), (g a), (h a); simpl in *; lia.
Qed.

Lemma filter_filter {A : Type} (f g : A -> bool) (l : list A) :
  filter f (filter g l) = filter (fun a => g a && f a) l.
Proof.
  induction l as [|a l IH]; simpl; auto.
  destruct (g a); simpl; [destruct (f a)|]; now rewrite IH.
Qed.

Section SweepCount.
Context {A : Type}.
Variable codeOf : A -> string.
Variable delivered : string -> message -> bool.
Variable stockCode : string.
Variable trigger : A -> bool.
Variable text : A -> message.
Variable p : effect -> bool.
Hypothesis p_pushFailed : forall u t, p (pushFailed u t) = false.

Local Abbreviation Fires := (fires codeOf stockCode trigger).
Local Abbreviation FiredOf := (firedOf codeOf delivered stockCode trigger text).
Local Abbreviation SweptEffects := (sweptEffects codeOf delivered stockCode trigger text).

Lemma count_firedOf userId alerts :
  count p (FiredOf userId alerts)
  = length (filter (fun a => Fires a && p (pushMessage userId (text a))) alerts).
Proof.
  induction alerts as [|a alerts IH]; simpl; auto.
  unfold firedOf in *. simpl. rewrite count_app, IH.
  destruct (Fires a); simpl; auto.
  rewrite count_notify by assumption.
  destruct (p (pushMessage userId (text a))); simpl; auto.
Qed.

(** No push of this Sweep is one that [p] selects. *)
Lemma count_sweptEffects_none m :
  (forall u a, p (pushMessage u (text a)) = false) ->
  count p (SweptEffects m) = 0.
Proof.
  intros Hnone. induction m as [|[u alerts] m IH]; simpl; auto.
  unfold sweptEffects in *. simpl.
  rewrite count_app, IH, count_firedOf.
  rewrite length_filter_false; auto.
  intros a _. rewrite Hnone. apply andb_false_r.
Qed.

(** [p] selects the pushes to [userId] about the alerts that [pa] selects. *)
Lemma count_sweptEffects userId (pa : A -> bool) m :
  NoDup (JSMap.keys m) ->
  (forall u a, p (pushMessage u (text a)) = String.eqb u userId && pa a) ->
  count p (SweptEffects m)
  = length (filter (fun a => Fires a && pa a) (listByUser userId m)).
Proof.
  intros Hnd Hp. unfold listByUser.
  induction m as [|[u alerts] m IH]; simpl; auto.
  inversion Hnd as [|? ? Hnotin Hnd']; subst.
  unfold sweptEffects in *. simpl.
  rewrite count_app, count_firedOf, (IH Hnd').
  destruct (String.eqb_spec u userId) as [->|Hne].
  - rewrite JSMapFacts.get_None by assumption. simpl.
    rewrite Nat.add_0_r. f_equal. apply filter_ext.
    intros a. now rewrite Hp, String.eqb_refl.
  - rewrite length_filter_false; auto.
    intros a _. rewrite Hp.
    destruct (String.eqb_spec u userId); [congruence|].
    simpl. apply andb_false_r.
Qed.

Lemma In_notify userId t :
  In (pushMessage userId t) (notify delivered userId t).
Proof. unfold notify. now left. Qed.

Lemma In_sweptEffects userId a m :
  In a (listByUser userId m) -> Fires a = true ->
  In (pushMessage userId (text a)) (SweptEffects m).
Proof.
  intros Hin Hfires. unfold listByUser in Hin.
  destruct (JSMap.get userId m) as [alerts|] eqn:E; [|destruct Hin].
  apply JSMapFacts.get_In in E. unfold sweptEffects.
  apply in_flat_map. exists (userId, alerts). split; auto. simpl.
  unfold firedOf. apply in_flat_map. exists a. split; auto.
  rewrite Hfires. apply In_notify.
Qed.

End SweepCount.

(** ** Reading the boolean invariants *)

Lemma distinct_NoDup {K : Type} (eqb : K -> K -> bool) (l : list K) :
  (forall x y, eqb x y = true <-> x = y) ->
  distinct eqb l = true <-> NoDup l.
Proof.
  intros Heqb. induction l as [|x l IH]; simpl.
  - split; [constructor | reflexivity].
  - rewrite andb_true_iff, negb_true_iff, IH. split.
    + intros [Hx Hl]. constructor; auto. intros Hin.
      assert (existsb (eqb x) l = true); [|congruence].
      apply existsb_exists. exists x. split; auto. now apply Heqb.
    + intros Hnd. inversion Hnd as [|? ? Hnotin Hl]; subst. split; auto.
      destruct (existsb (eqb x) l) eqn:E; auto.
      apply existsb_exists in E. destruct E as [x' [Hin Heq]].
      apply Heqb in Heq. subst. contradiction.
Qed.

Lemma direction_eqb_eq a b : direction_eqb a b = true <-> a = b.
Proof. destruct a, b; simpl; split; congruence. Qed.

Lemma priceKey_eqb_eq k1 k2 : priceKey_eqb k1 k2 = true <-> k1 = k2.
Proof.
  destruct k1 as [c1 d1], k2 as [c2 d2]. unfold priceKey_eqb. simpl.
  rewrite andb_true_iff, String.eqb_eq, direction_eqb_eq.
  split; [intros [-> ->] | intros H; injection H]; auto.
Qed.

Lemma usersOk_NoDup {A : Type} (m : JSMap.t (list A)) :
  usersOk m = true <-> NoDup (JSMap.keys m).
Proof. apply distinct_NoDup, String.eqb_eq. Qed.

Lemma bucketsOk_NoDup {A K : Type} (eqb : K -> K -> bool) (key : A -> K)
    (m : JSMap.t (list A)) :
  (forall x y, eqb x y = true <-> x = y) ->
  bucketsOk eqb key m = true <->
  forall alerts, In alerts (JSMap.values m) -> NoDup (map key alerts).
Proof.
  intros Heqb. unfold bucketsOk. rewrite forallb_forall.
  split; intros H alerts Hin; apply (distinct_NoDup eqb _ Heqb); auto.
Qed.

Lemma listByUser_values {A : Type} (m : JSMap.t (list A)) userId :
  listByUser userId m = [] \/ In (listByUser userId m) (JSMap.values m).
Proof.
  unfold listByUser. destruct (JSMap.get userId m) as [alerts|] eqn:E; auto.
  right. apply JSMapFacts.get_In in E. unfold JSMap.values.
  change alerts with (snd (userId, alerts)). now apply in_map.
Qed.

Lemma bucketsOk_listByUser {A K : Type} (eqb : K -> K -> bool) (key : A -> K)
    (m : JSMap.t (list A)) userId :
  (forall x y, eqb x y = true <-> x = y) ->
  bucketsOk eqb key m = true -> NoDup (map key (listByUser userId m)).
Proof.
  intros Heqb Hok.
  destruct (listByUser_values m userId) as [->|Hin]; [constructor|].
  now apply (bucketsOk_NoDup eqb key m Heqb).
Qed.

Lemma registry_ok_users st : registry_ok st = true -> users_ok st.
Proof.
  unfold registry_ok, users_ok. rewrite !andb_true_iff, !usersOk_NoDup. tauto.
Qed.

(** ** One identifier *)

Lemma evaluate_eq delivered stockCode stockData st :
  users_ok st ->
  evaluate delivered stockCode stockData st
  = (mkState
       (sweptMap PriceAlert.stockCode stockCode
          (priceTrigger (currentPrice stockData)) (userPriceAlerts st))
       (sweptMap VolumeAlert.stockCode stockCode
          (volumeTrigger (historyOf stockCode st) (currentVolume stockData))
          (userVolumeAlerts st))
       (sweptMap ChangeAlert.stockCode stockCode
          (changeTrigger (percentageChange stockData)) (userChangeAlerts st))
       (JSMap.set stockCode
          (appendSample (historyOf stockCode st) (currentVolume stockData))
          (volumeHistory st)),
     sweptEffects PriceAlert.stockCode delivered stockCode
       (priceTrigger (currentPrice stockData))
       (fun alert => PriceMessage stockCode (PriceAlert.direction alert)
                       (PriceAlert.targetPrice alert) (currentPrice stockData))
       (userPriceAlerts st)
     ++ sweptEffects ChangeAlert.stockCode delivered stockCode
          (changeTrigger (percentageChange stockData))
          (fun _ => ChangeMessage stockCode (percentageChange stockData))
          (userChangeAlerts st)
     ++ sweptEffects VolumeAlert.stockCode delivered stockCode
          (volumeTrigger (historyOf stockCode st) (currentVolume stockData))
          (fun alert => VolumeMessage stockCode (currentVolume stockData)
                          (VolumeAlert.multiplier alert))
          (userVolumeAlerts st)).
Proof.
  intros (Hp & Hv & Hc). unfold evaluate.
  now rewrite !sweep_eq by assumption.
Qed.

Lemma users_ok_evaluate delivered stockCode stockData st :
  users_ok st -> users_ok (fst (evaluate delivered stockCode stockData st)).
Proof.
  intros Hok. rewrite evaluate_eq by assumption.
  destruct Hok as (Hp & Hv & Hc).
  unfold users_ok. simpl. repeat split; now apply NoDup_keys_sweptMap.
Qed.

Lemma historyOf_evaluate delivered stockCode stockData st code :
  historyOf code (fst (evaluate delivered stockCode stockData st))
  = if String.eqb stockCode code
    then appendSample (historyOf stockCode st) (currentVolume stockData)
    else historyOf code st.
Proof.
  unfold evaluate.
  destruct (sweep PriceAlert.stockCode _ _ _ _ _) as [prices out1].
  destruct (sweep ChangeAlert.stockCode _ _ _ _ _) as [changes out2].
  destruct (sweep VolumeAlert.stockCode _ _ _ _ _) as [volumes out3].
  unfold historyOf at 1, listByUser. simpl.
  destruct (String.eqb_spec stockCode code) as [->|Hne].
  - now rewrite JSMapFacts.get_set_same.
  - now rewrite JSMapFacts.get_set_other.
Qed.

Lemma visitAll_cons fetchStockData delivered stockCode rest acc :
  visitAll fetchStockData delivered (stockCode :: rest) acc
  = visitAll fetchStockData delivered rest
      (visit fetchStockData delivered acc stockCode).
Proof. reflexivity. Qed.

Lemma users_ok_visit fetchStockData delivered st out stockCode :
  users_ok st ->
  users_ok (fst (visit fetchStockData delivered (st, out) stockCode)).
Proof.
  intros Hok. unfold visit.
  destruct (fetchStockData stockCode) as [| |stockData]; simpl; auto.
  pose proof (users_ok_evaluate delivered stockCode stockData st Hok) as H.
  destruct (evaluate delivered stockCode stockData st). exact H.
Qed.

(** ** One cycle, for one kind of alert

    The three kinds go through a cycle in the same way; what differs is
    the map they live in and the trigger test, which for volume alerts
    reads the state. *)

Section Kind.
Context {A : Type}.
Variable codeOf : A -> string.
Variable proj : State -> JSMap.t (list A).
Variable trig : State -> string -> StockData -> A -> bool.
Variable userId : string.
Variable p : effect -> bool.
Variable pa : A -> bool.

Hypothesis proj_evaluate : forall delivered stockCode stockData st,
  users_ok st ->
  proj (fst (evaluate delivered stockCode stockData st))
  = sweptMap codeOf stockCode (trig st stockCode stockData) (proj st).

Hypothesis trig_frame : forall delivered stockCode stockData st code stockData' a,
  code <> stockCode ->
  trig (fst (evaluate delivered stockCode stockData st)) code stockData' a
  = trig st code stockData' a.

Hypothesis count_evaluate : forall delivered stockCode stockData st,
  users_ok st ->
  count p (snd (evaluate delivered stockCode stockData st))
  = length (filter
      (fun a => fires codeOf stockCode (trig st stockCode stockData) a && pa a)
      (listByUser userId (proj st))).

Hypothesis p_fetchFailed : forall stockCode, p (fetchFailed stockCode) = false.

Hypothesis proj_users : forall st, users_ok st -> NoDup (JSMap.keys (proj st)).

Variable fetchStockData : string -> fetched.
Variable delivered : string -> message -> bool.

Local Abbreviation FiresIn := (firesIn codeOf trig fetchStockData).

Lemma firesIn_frame stockCode stockData st a :
  codeOf a <> stockCode ->
  FiresIn (fst (evaluate delivered stockCode stockData st)) a = FiresIn st a.
Proof.
  intros Hne. unfold firesIn.
  destruct (fetchStockData (codeOf a)); auto.
Qed.

Lemma visitAll_listByUser stockCodes : forall st out user,
  users_ok st -> NoDup stockCodes ->
  listByUser user (proj (fst (visitAll fetchStockData delivered stockCodes (st, out))))
  = filter (fun a => negb (JSSet.has (codeOf a) stockCodes && FiresIn st a))
      (listByUser user (proj st)).
Proof.
  induction stockCodes as [|code rest IH]; intros st out user Hok Hnd.
  - simpl. symmetry. apply forallb_filter_id. apply forallb_forall. auto.
  - inversion Hnd as [|? ? Hnotin Hnd']; subst.
    rewrite visitAll_cons.
    pose proof (users_ok_visit fetchStockData delivered st out code Hok) as Hok'.
    unfold visit in *.
    destruct (fetchStockData code) as [| |stockData] eqn:Hfetch.
    + rewrite IH by assumption. apply filter_ext. intros a.
      unfold firesIn. rewrite ?JSSetFacts.has_cons.
      destruct (String.eqb_spec (codeOf a) code) as [->|Hne]; simpl; auto.
      now rewrite Hfetch, !andb_false_r.
    + rewrite IH by assumption. apply filter_ext. intros a.
      unfold firesIn. rewrite ?JSSetFacts.has_cons.
      destruct (String.eqb_spec (codeOf a) code) as [->|Hne]; simpl; auto.
      now rewrite Hfetch, !andb_false_r.
    + pose proof (proj_evaluate delivered code stockData st Hok) as Hproj.
      destruct (evaluate delivered code stockData st) as [st' fired] eqn:Hev.
      simpl in Hok', Hproj.
      rewrite IH by assumption. rewrite Hproj.
      rewrite listByUser_sweptMap by now apply proj_users.
      unfold kept. rewrite filter_filter. apply filter_ext. intros a.
      unfold fires. rewrite ?JSSetFacts.has_cons.
      destruct (String.eqb_spec (codeOf a) code) as [Heq|Hne]; simpl.
      * assert (Hrest : JSSet.has (codeOf a) rest = false).
        { destruct (JSSet.has (codeOf a) rest) eqn:E; auto.
          apply JSSetFacts.has_In in E. congruence. }
        rewrite Hrest. simpl. rewrite andb_true_r.
        unfold firesIn. now rewrite Heq, Hfetch.
      * replace st' with (fst (evaluate delivered code stockData st))
          by now rewrite Hev.
        now rewrite firesIn_frame.
Qed.

Lemma visitAll_count stockCodes : forall st out,
  users_ok st -> NoDup stockCodes ->
  count p (snd (visitAll fetchStockData delivered stockCodes (st, out)))
  = count p out
    + length (filter
        (fun a => JSSet.has (codeOf a) stockCodes && FiresIn st a && pa a)
        (listByUser userId (proj st))).
Proof.
  induction stockCodes as [|code rest IH]; intros st out Hok Hnd.
  - simpl. rewrite length_filter_false; auto.
  - inversion Hnd as [|? ? Hnotin Hnd']; subst.
    rewrite visitAll_cons.
    pose proof (users_ok_visit fetchStockData delivered st out code Hok) as Hok'.
    unfold visit in *.
    destruct (fetchStockData code) as [| |stockData] eqn:Hfetch.
    + rewrite IH by assumption. rewrite count_app. unfold count at 2. simpl.
      rewrite p_fetchFailed. simpl. rewrite Nat.add_0_r. f_equal. f_equal.
      apply filter_ext. intros a. unfold firesIn. rewrite ?JSSetFacts.has_cons.
      destruct (String.eqb_spec (codeOf a) code) as [->|Hne]; simpl; auto.
      now rewrite Hfetch, !andb_false_r.
    + rewrite IH by assumption. f_equal. f_equal.
      apply filter_ext. intros a. unfold firesIn. rewrite ?JSSetFacts.has_cons.
      destruct (String.eqb_spec (codeOf a) code) as [->|Hne]; simpl; auto.
      now rewrite Hfetch, !andb_false_r.
    + pose proof (proj_evaluate delivered code stockData st Hok) as Hproj.
      pose proof (count_evaluate delivered code stockData st Hok) as Hcount.
      destruct (evaluate delivered code stockData st) as [st' fired] eqn:Hev.
      simpl in Hok', Hproj, Hcount.
      rewrite IH by assumption. rewrite count_app, Hcount, Hproj.
      rewrite listByUser_sweptMap by now apply proj_users.
      unfold kept. rewrite filter_filter. rewrite <- Nat.add_assoc. f_equal.
      apply length_filter_split. intros a _.
      unfold fires. rewrite ?JSSetFacts.has_cons.
      destruct (String.eqb_spec (codeOf a) code) as [Heq|Hne]; simpl.
      * assert (Hrest : JSSet.has (codeOf a) rest = false).
        { destruct (JSSet.has (codeOf a) rest) eqn:E; auto.
          apply JSSetFacts.has_In in E. congruence. }
        rewrite Hrest. unfold firesIn. rewrite Heq, Hfetch.
        destruct (trig st code stockData a), (pa a); reflexivity.
      * replace st' with (fst (evaluate delivered code stockData st))
          by now rewrite Hev.
        now rewrite firesIn_frame by assumption.
Qed.

Variable text : string -> StockData -> A -> message.

Hypothesis In_evaluate : forall delivered stockCode stockData st user a,
  users_ok st ->
  In a (listByUser user (proj st)) ->
  fires codeOf stockCode (trig st stockCode stockData) a = true ->
  In (pushMessage user (text stockCode stockData a))
     (snd (evaluate delivered stockCode stockData st)).

Lemma visitAll_out_mono stockCodes : forall st out e,
  In e out ->
  In e (snd (visitAll fetchStockData delivered stockCodes (st, out))).
Proof.
  induction stockCodes as [|code rest IH]; intros st out e Hin; auto.
  rewrite visitAll_cons. unfold visit.
  destruct (fetchStockData code) as [| |stockData].
  - apply IH. apply in_or_app. now left.
  - now apply IH.
  - destruct (evaluate delivered code stockData st) as [st' fired].
    apply IH. apply in_or_app. now left.
Qed.

(** The push for an alert that fires carries the alert and the snapshot
    fetched for its code. *)
Lemma visitAll_In stockCodes : forall st out user a stockData,
  users_ok st ->
  In (codeOf a) stockCodes ->
  In a (listByUser user (proj st)) ->
  fetchStockData (codeOf a) = Data stockData ->
  trig st (codeOf a) stockData a = true ->
  In (pushMessage user (text (codeOf a) stockData a))
     (snd (visitAll fetchStockData delivered stockCodes (st, out))).
Proof.
  induction stockCodes as [|code rest IH];
    intros st out user a stockData Hok Hcode Hin Hfetch Htrig; [destruct Hcode|].
  rewrite visitAll_cons.
  pose proof (users_ok_visit fetchStockData delivered st out code Hok) as Hok'.
  unfold visit in *.
  destruct (String.eqb_spec (codeOf a) code) as [Heq|Hne].
  - rewrite <- Heq, Hfetch.
    pose proof (In_evaluate delivered (codeOf a) stockData st user a Hok Hin) as Hpush.
    destruct (evaluate delivered (codeOf a) stockData st) as [st' fired].
    apply visitAll_out_mono. apply in_or_app. right. apply Hpush.
    unfold fires. now rewrite String.eqb_refl.
  - destruct Hcode as [Hcode|Hcode]; [congruence|].
    destruct (fetchStockData code) as [| |stockData'] eqn:Hfetch'.
    + now apply IH.
    + now apply IH.
    + pose proof (proj_evaluate delivered code stockData' st Hok) as Hproj.
      pose proof (trig_frame delivered code stockData' st (codeOf a) stockData a Hne)
        as Hframe.
      destruct (evaluate delivered code stockData' st) as [st' fired].
      simpl in Hok', Hproj, Hframe.
      apply IH; auto.
      * rewrite Hproj, listByUser_sweptMap by now apply proj_users.
        apply filter_In. split; auto. unfold fires.
        apply String.eqb_neq in Hne. now rewrite Hne.
      * now rewrite Hframe.
Qed.

End Kind.

(** ** The codes a cycle visits *)

Section Codes.
Context {A : Type}.
Variable codeOf : A -> string.

Lemma addCodes_inner_NoDup (alerts : list A) : forall s,
  NoDup s -> NoDup (fold_left (fun s a => JSSet.add (codeOf a) s) alerts s).
Proof.
  induction alerts as [|a alerts IH]; intros s Hnd; simpl; auto.
  apply IH. now apply JSSetFacts.NoDup_add.
Qed.

Lemma addCodes_inner_mono (alerts : list A) : forall s x,
  In x s -> In x (fold_left (fun s a => JSSet.add (codeOf a) s) alerts s).
Proof.
  induction alerts as [|a alerts IH]; intros s x Hin; simpl; auto.
  apply IH. apply JSSetFacts.In_add. now right.
Qed.

Lemma addCodes_inner_In (alerts : list A) : forall s a,
  In a alerts ->
  In (codeOf a) (fold_left (fun s a => JSSet.add (codeOf a) s) alerts s).
Proof.
  induction alerts as [|b alerts IH]; intros s a Hin; simpl; [easy|].
  destruct Hin as [->|Hin].
  - apply addCodes_inner_mono. apply JSSetFacts.In_add. now left.
  - now apply IH.
Qed.

Local Abbreviation addAll := (fun (vs : list (list A)) (s : JSSet.t) =>
  fold_left
    (fun stockCodes alerts =>
       fold_left (fun stockCodes alert => JSSet.add (codeOf alert) stockCodes)
         alerts stockCodes)
    vs s).

Lemma addAll_NoDup (vs : list (list A)) : forall s, NoDup s -> NoDup (addAll vs s).
Proof.
  induction vs as [|alerts vs IH]; intros s Hnd; simpl; auto.
  apply IH. now apply addCodes_inner_NoDup.
Qed.

Lemma addAll_mono (vs : list (list A)) : forall s x, In x s -> In x (addAll vs s).
Proof.
  induction vs as [|alerts vs IH]; intros s x Hin; simpl; auto.
  apply IH. now apply addCodes_inner_mono.
Qed.

Lemma addAll_In (vs : list (list A)) : forall s alerts a,
  In alerts vs -> In a alerts -> In (codeOf a) (addAll vs s).
Proof.
  induction vs as [|l vs IH]; intros s alerts a Hl Ha; simpl; [easy|].
  destruct Hl as [->|Hl].
  - apply addAll_mono. now apply addCodes_inner_In.
  - now apply IH with (alerts := alerts).
Qed.

Lemma addCodes_NoDup (m : JSMap.t (list A)) s :
  NoDup s -> NoDup (addCodes codeOf m s).
Proof. apply addAll_NoDup. Qed.

Lemma addCodes_mono (m : JSMap.t (list A)) s x :
  In x s -> In x (addCodes codeOf m s).
Proof. apply addAll_mono. Qed.

Lemma addCodes_In (m : JSMap.t (list A)) s userId a :
  In a (listByUser userId m) -> In (codeOf a) (addCodes codeOf m s).
Proof.
  intros Ha. destruct (listByUser_values m userId) as [Hnil|Hin].
  - rewrite Hnil in Ha. destruct Ha.
  - now apply addAll_In with (alerts := listByUser userId m).
Qed.

End Codes.

Lemma collectCodes_NoDup st : NoDup (collectCodes st).
Proof.
  unfold collectCodes. repeat apply addCodes_NoDup. constructor.
Qed.

Lemma collectCodes_price st userId a :
  In a (listByUser userId (userPriceAlerts st)) ->
  JSSet.has (PriceAlert.stockCode a) (collectCodes st) = true.
Proof.
  intros Ha. apply JSSetFacts.has_In. unfold collectCodes.
  do 2 apply addCodes_mono. now apply addCodes_In with (userId := userId).
Qed.

Lemma collectCodes_volume st userId a :
  In a (listByUser userId (userVolumeAlerts st)) ->
  JSSet.has (VolumeAlert.stockCode a) (collectCodes st) = true.
Proof.
  intros Ha. apply JSSetFacts.has_In. unfold collectCodes.
  apply addCodes_mono. now apply addCodes_In with (userId := userId).
Qed.

Lemma collectCodes_change st userId a :
  In a (listByUser userId (userChangeAlerts st)) ->
  JSSet.has (ChangeAlert.stockCode a) (collectCodes st) = true.
Proof.
  intros Ha. apply JSSetFacts.has_In. unfold collectCodes.
  now apply addCodes_In with (userId := userId).
Qed.

(** ** The three kinds, one identifier at a time *)

Lemma price_evaluate delivered stockCode stockData st :
  users_ok st ->
  userPriceAlerts (fst (evaluate delivered stockCode stockData st))
  = sweptMap PriceAlert.stockCode stockCode
      (priceTrigger (currentPrice stockData)) (userPriceAlerts st).
Proof. intros Hok. now rewrite evaluate_eq. Qed.

Lemma change_evaluate delivered stockCode stockData st :
  users_ok st ->
  userChangeAlerts (fst (evaluate delivered stockCode stockData st))
  = sweptMap ChangeAlert.stockCode stockCode
      (changeTrigger (percentageChange stockData)) (userChangeAlerts st).
Proof. intros Hok. now rewrite evaluate_eq. Qed.

Lemma volume_evaluate delivered stockCode stockData st :
  users_ok st ->
  userVolumeAlerts (fst (evaluate delivered stockCode stockData st))
  = sweptMap VolumeAlert.stockCode stockCode
      (volumeTrigger (historyOf stockCode st) (currentVolume stockData))
      (userVolumeAlerts st).
Proof. intros Hok. now rewrite evaluate_eq. Qed.

Lemma price_count_evaluate userId code dir delivered stockCode stockData st :
  users_ok st ->
  count (isPricePush userId code dir)
    (snd (evaluate delivered stockCode stockData st))
  = length (filter
      (fun a => fires PriceAlert.stockCode stockCode
                  (priceTrigger (currentPrice stockData)) a
                && samePriceKey code dir a)
      (listByUser userId (userPriceAlerts st))).
Proof.
  intros Hok. rewrite evaluate_eq by assumption. destruct Hok as (Hp & Hv & Hc).
  cbn [snd]. rewrite !count_app.
  rewrite (count_sweptEffects _ _ _ _ _ _ (fun _ _ => eq_refl) userId
             (fun a => String.eqb stockCode code
                       && direction_eqb (PriceAlert.direction a) dir))
    by (auto; intros u a; simpl; now rewrite andb_assoc).
  rewrite !count_sweptEffects_none by reflexivity.
  rewrite !Nat.add_0_r. f_equal. apply filter_ext. intros a.
  unfold fires, samePriceKey.
  destruct (String.eqb_spec (PriceAlert.stockCode a) stockCode) as [->|Hne];
    reflexivity.
Qed.

Lemma change_count_evaluate userId code delivered stockCode stockData st :
  users_ok st ->
  count (isChangePush userId code)
    (snd (evaluate delivered stockCode stockData st))
  = length (filter
      (fun a => fires ChangeAlert.stockCode stockCode
                  (changeTrigger (percentageChange stockData)) a
                && String.eqb (ChangeAlert.stockCode a) code)
      (listByUser userId (userChangeAlerts st))).
Proof.
  intros Hok. rewrite evaluate_eq by assumption. destruct Hok as (Hp & Hv & Hc).
  cbn [snd]. rewrite !count_app.
  rewrite (count_sweptEffects ChangeAlert.stockCode _ _ _ _ _ (fun _ _ => eq_refl)
             userId (fun a => String.eqb stockCode code))
    by (auto; intros u a; reflexivity).
  rewrite !count_sweptEffects_none by reflexivity.
  rewrite Nat.add_0_r. simpl. f_equal. apply filter_ext. intros a.
  unfold fires.
  destruct (String.eqb_spec (ChangeAlert.stockCode a) stockCode) as [->|Hne];
    reflexivity.
Qed.

Lemma volume_count_evaluate userId code delivered stockCode stockData st :
  users_ok st ->
  count (isVolumePush userId code)
    (snd (evaluate delivered stockCode stockData st))
  = length (filter
      (fun a => fires VolumeAlert.stockCode stockCode
                  (volumeTrigger (historyOf stockCode st) (currentVolume stockData)) a
                && String.eqb (VolumeAlert.stockCode a) code)
      (listByUser userId (userVolumeAlerts st))).
Proof.
  intros Hok. rewrite evaluate_eq by assumption. destruct Hok as (Hp & Hv & Hc).
  cbn [snd]. rewrite !count_app.
  rewrite (count_sweptEffects VolumeAlert.stockCode _ _ _ _ _ (fun _ _ => eq_refl)
             userId (fun a => String.eqb stockCode code))
    by (auto; intros u a; reflexivity).
  rewrite !count_sweptEffects_none by reflexivity.
  simpl. f_equal. apply filter_ext. intros a.
  unfold fires.
  destruct (String.eqb_spec (VolumeAlert.stockCode a) stockCode) as [->|Hne];
    reflexivity.
Qed.

Lemma volumeTrigger_frame delivered stockCode stockData st code stockData' a :
  code <> stockCode ->
  volumeTrigger (historyOf code (fst (evaluate delivered stockCode stockData st)))
    (currentVolume stockData') a
  = volumeTrigger (historyOf code st) (currentVolume stockData') a.
Proof.
  intros Hne. rewrite historyOf_evaluate.
  destruct (String.eqb_spec stockCode code); [congruence | reflexivity].
Qed.

(** ** The three kinds through a cycle *)

Lemma cycle_price fetchStockData delivered st userId :
  users_ok st ->
  listByUser userId (userPriceAlerts (fst (checkAlerts fetchStockData delivered st)))
  = filter (fun a => negb (priceFires fetchStockData a))
      (listByUser userId (userPriceAlerts st)).
Proof.
  intros Hok. unfold checkAlerts.
  rewrite (visitAll_listByUser PriceAlert.stockCode userPriceAlerts
             (fun _ _ stockData => priceTrigger (currentPrice stockData)));
    auto using price_evaluate, collectCodes_NoDup.
  - apply filter_ext_in. intros a Ha.
    now rewrite (collectCodes_price st userId a Ha).
  - intros st' (Hp & _). exact Hp.
Qed.

Lemma cycle_change fetchStockData delivered st userId :
  users_ok st ->
  listByUser userId (userChangeAlerts (fst (checkAlerts fetchStockData delivered st)))
  = filter (fun a => negb (changeFires fetchStockData a))
      (listByUser userId (userChangeAlerts st)).
Proof.
  intros Hok. unfold checkAlerts.
  rewrite (visitAll_listByUser ChangeAlert.stockCode userChangeAlerts
             (fun _ _ stockData => changeTrigger (percentageChange stockData)));
    auto using change_evaluate, collectCodes_NoDup.
  - apply filter_ext_in. intros a Ha.
    now rewrite (collectCodes_change st userId a Ha).
  - intros st' (_ & _ & Hc). exact Hc.
Qed.

Lemma cycle_volume fetchStockData delivered st userId :
  users_ok st ->
  listByUser userId (userVolumeAlerts (fst (checkAlerts fetchStockData delivered st)))
  = filter (fun a => negb (volumeFires fetchStockData st a))
      (listByUser userId (userVolumeAlerts st)).
Proof.
  intros Hok. unfold checkAlerts.
  rewrite (visitAll_listByUser VolumeAlert.stockCode userVolumeAlerts
             (fun st code stockData =>
                volumeTrigger (historyOf code st) (currentVolume stockData)));
    auto using volume_evaluate, collectCodes_NoDup, volumeTrigger_frame.
  - apply filter_ext_in. intros a Ha.
    now rewrite (collectCodes_volume st userId a Ha).
  - intros st' (_ & Hv & _). exact Hv.
Qed.

Lemma cycle_price_count fetchStockData delivered st userId code dir :
  users_ok st ->
  count (isPricePush userId code dir) (snd (checkAlerts fetchStockData delivered st))
  = length (filter
      (fun a => priceFires fetchStockData a && samePriceKey code dir a)
      (listByUser userId (userPriceAlerts st))).
Proof.
  intros Hok. unfold checkAlerts.
  rewrite (visitAll_count PriceAlert.stockCode userPriceAlerts
             (fun _ _ stockData => priceTrigger (currentPrice stockData))
             userId (isPricePush userId code dir) (samePriceKey code dir));
    auto using price_evaluate, collectCodes_NoDup, price_count_evaluate.
  - simpl. f_equal. apply filter_ext_in. intros a Ha.
    now rewrite (collectCodes_price st userId a Ha).
  - intros st' (Hp & _). exact Hp.
Qed.

Lemma cycle_change_count fetchStockData delivered st userId code :
  users_ok st ->
  count (isChangePush userId code) (snd (checkAlerts fetchStockData delivered st))
  = length (filter
      (fun a => changeFires fetchStockData a
                && String.eqb (ChangeAlert.stockCode a) code)
      (listByUser userId (userChangeAlerts st))).
Proof.
  intros Hok. unfold checkAlerts.
  rewrite (visitAll_count ChangeAlert.stockCode userChangeAlerts
             (fun _ _ stockData => changeTrigger (percentageChange stockData))
             userId (isChangePush userId code)
             (fun a => String.eqb (ChangeAlert.stockCode a) code));
    auto using change_evaluate, collectCodes_NoDup, change_count_evaluate.
  - simpl. f_equal. apply filter_ext_in. intros a Ha.
    now rewrite (collectCodes_change st userId a Ha).
  - intros st' (_ & _ & Hc). exact Hc.
Qed.

Lemma cycle_volume_count fetchStockData delivered st userId code :
  users_ok st ->
  count (isVolumePush userId code) (snd (checkAlerts fetchStockData delivered st))
  = length (filter
      (fun a => volumeFires fetchStockData st a
                && String.eqb (VolumeAlert.stockCode a) code)
      (listByUser userId (userVolumeAlerts st))).
Proof.
  intros Hok. unfold checkAlerts.
  rewrite (visitAll_count VolumeAlert.stockCode userVolumeAlerts
             (fun st code stockData =>
                volumeTrigger (historyOf code st) (currentVolume stockData))
             userId (isVolumePush userId code)
             (fun a => String.eqb (VolumeAlert.stockCode a) code));
    auto using volume_evaluate, collectCodes_NoDup, volume_count_evaluate,
      volumeTrigger_frame.
  - simpl. f_equal. apply filter_ext_in. intros a Ha.
    now rewrite (collectCodes_volume st userId a Ha).
  - intros st' (_ & Hv & _). exact Hv.
Qed.

(** ** The push of an alert that fires *)

Lemma price_In_evaluate delivered stockCode stockData st user a :
  users_ok st ->
  In a (listByUser user (userPriceAlerts st)) ->
  fires PriceAlert.stockCode stockCode (priceTrigger (currentPrice stockData)) a = true ->
  In (pushMessage user
        (PriceMessage stockCode (PriceAlert.direction a) (PriceAlert.targetPrice a)
           (currentPrice stockData)))
     (snd (evaluate delivered stockCode stockData st)).
Proof.
  intros Hok Hin Hfires. rewrite evaluate_eq by assumption. cbn [snd].
  apply in_or_app. left.
  now apply (In_sweptEffects PriceAlert.stockCode delivered stockCode _
               (fun alert => PriceMessage stockCode (PriceAlert.direction alert)
                               (PriceAlert.targetPrice alert) (currentPrice stockData))).
Qed.

Lemma change_In_evaluate delivered stockCode stockData st user a :
  users_ok st ->
  In a (listByUser user (userChangeAlerts st)) ->
  fires ChangeAlert.stockCode stockCode
    (changeTrigger (percentageChange stockData)) a = true ->
  In (pushMessage user (ChangeMessage stockCode (percentageChange stockData)))
     (snd (evaluate delivered stockCode stockData st)).
Proof.
  intros Hok Hin Hfires. rewrite evaluate_eq by assumption. cbn [snd].
  apply in_or_app. right. apply in_or_app. left.
  now apply (In_sweptEffects ChangeAlert.stockCode delivered stockCode _
               (fun _ => ChangeMessage stockCode (percentageChange stockData))
               user a).
Qed.

Lemma volume_In_evaluate delivered stockCode stockData st user a :
  users_ok st ->
  In a (listByUser user (userVolumeAlerts st)) ->
  fires VolumeAlert.stockCode stockCode
    (volumeTrigger (historyOf stockCode st) (currentVolume stockData)) a = true ->
  In (pushMessage user
        (VolumeMessage stockCode (currentVolume stockData) (VolumeAlert.multiplier a)))
     (snd (evaluate delivered stockCode stockData st)).
Proof.
  intros Hok Hin Hfires. rewrite evaluate_eq by assumption. cbn [snd].
  apply in_or_app. right. apply in_or_app. right.
  now apply (In_sweptEffects VolumeAlert.stockCode delivered stockCode _
               (fun alert => VolumeMessage stockCode (currentVolume stockData)
                               (VolumeAlert.multiplier alert))).
Qed.

Lemma cycle_price_push fetchStockData delivered st userId a stockData :
  users_ok st ->
  In a (listByUser userId (userPriceAlerts st)) ->
  fetchStockData (PriceAlert.stockCode a) = Data stockData ->
  priceTrigger (currentPrice stockData) a = true ->
  In (pushMessage userId
        (PriceMessage (PriceAlert.stockCode a) (PriceAlert.direction a)
           (PriceAlert.targetPrice a) (currentPrice stockData)))
     (snd (checkAlerts fetchStockData delivered st)).
Proof.
  intros Hok Hin Hfetch Htrig. unfold checkAlerts.
  apply (visitAll_In PriceAlert.stockCode userPriceAlerts
           (fun _ _ stockData => priceTrigger (currentPrice stockData)))
    with (text := fun stockCode stockData alert =>
                    PriceMessage stockCode (PriceAlert.direction alert)
                      (PriceAlert.targetPrice alert) (currentPrice stockData)).
  - apply price_evaluate.
  - reflexivity.
  - intros st' (Hp & _). exact Hp.
  - apply price_In_evaluate.
  - exact Hok.
  - apply JSSetFacts.has_In. now apply (collectCodes_price st userId).
  - exact Hin.
  - exact Hfetch.
  - exact Htrig.
Qed.

Lemma cycle_change_push fetchStockData delivered st userId a stockData :
  users_ok st ->
  In a (listByUser userId (userChangeAlerts st)) ->
  fetchStockData (ChangeAlert.stockCode a) = Data stockData ->
  changeTrigger (percentageChange stockData) a = true ->
  In (pushMessage userId
        (ChangeMessage (ChangeAlert.stockCode a) (percentageChange stockData)))
     (snd (checkAlerts fetchStockData delivered st)).
Proof.
  intros Hok Hin Hfetch Htrig. unfold checkAlerts.
  apply (visitAll_In ChangeAlert.stockCode userChangeAlerts
           (fun _ _ stockData => changeTrigger (percentageChange stockData)))
    with (text := fun stockCode stockData _ =>
                    ChangeMessage stockCode (percentageChange stockData)).
  - apply change_evaluate.
  - reflexivity.
  - intros st' (_ & _ & Hc). exact Hc.
  - apply change_In_evaluate.
  - exact Hok.
  - apply JSSetFacts.has_In. now apply (collectCodes_change st userId).
  - exact Hin.
  - exact Hfetch.
  - exact Htrig.
Qed.

Lemma cycle_volume_push fetchStockData delivered st userId a stockData :
  users_ok st ->
  In a (listByUser userId (userVolumeAlerts st)) ->
  fetchStockData (VolumeAlert.stockCode a) = Data stockData ->
  volumeTrigger (historyOf (VolumeAlert.stockCode a) st) (currentVolume stockData) a
    = true ->
  In (pushMessage userId
        (VolumeMessage (VolumeAlert.stockCode a) (currentVolume stockData)
           (VolumeAlert.multiplier a)))
     (snd (checkAlerts fetchStockData delivered st)).
Proof.
  intros Hok Hin Hfetch Htrig. unfold checkAlerts.
  apply (visitAll_In VolumeAlert.stockCode userVolumeAlerts
           (fun st code stockData =>
              volumeTrigger (historyOf code st) (currentVolume stockData)))
    with (text := fun stockCode stockData alert =>
                    VolumeMessage stockCode (currentVolume stockData)
                      (VolumeAlert.multiplier alert)).
  - apply volume_evaluate.
  - intros. now apply volumeTrigger_frame.
  - intros st' (_ & Hv & _). exact Hv.
  - apply volume_In_evaluate.
  - exact Hok.
  - apply JSSetFacts.has_In. now apply (collectCodes_volume st userId).
  - exact Hin.
  - exact Hfetch.
  - exact Htrig.
Qed.

(** ** The history window *)

Lemma appendSample_length history sample :
  length (appendSample history sample) <= VOLUME_HISTORY_LIMIT.
Proof.
  unfold appendSample, JS.slice.
  destruct (VOLUME_HISTORY_LIMIT <? length (history ++ [sample])) eqn:E.
  - rewrite length_skipn. apply Nat.ltb_lt in E. lia.
  - apply Nat.ltb_ge in E. exact E.
Qed.

(** Appending keeps the newest [VOLUME_HISTORY_LIMIT] samples of what was
    there, in their order. *)
Lemma appendSample_suffix history sample :
  appendSample history sample
  = skipn (length (history ++ [sample]) - VOLUME_HISTORY_LIMIT) (history ++ [sample]).
Proof.
  unfold appendSample, JS.slice.
  destruct (VOLUME_HISTORY_LIMIT <? length (history ++ [sample])) eqn:E; auto.
  apply Nat.ltb_ge in E.
  replace (length (history ++ [sample]) - VOLUME_HISTORY_LIMIT) with 0 by lia.
  reflexivity.
Qed.

Lemma skipn_skipn_app {A : Type} (k : nat) (l : list A) (x : A) :
  k <= length l ->
  skipn (length (skipn k l ++ [x]) - VOLUME_HISTORY_LIMIT) (skipn k l ++ [x])
  = skipn (Nat.max k (length (l ++ [x]) - VOLUME_HISTORY_LIMIT)) (l ++ [x]).
Proof.
  intros Hk.
  assert (Happ : skipn k l ++ [x] = skipn k (l ++ [x])).
  { rewrite skipn_app. replace (k - length l) with 0 by lia. reflexivity. }
  rewrite Happ, skipn_skipn, length_skipn. f_equal.
  rewrite !length_app. simpl. lia.
Qed.

(** From an empty window, any run of appends leaves the newest
    [VOLUME_HISTORY_LIMIT] samples, oldest first. *)
Lemma appends_suffix samples : forall prefix,
  fold_left appendSample samples
    (skipn (length prefix - VOLUME_HISTORY_LIMIT) prefix)
  = skipn (length (prefix ++ samples) - VOLUME_HISTORY_LIMIT) (prefix ++ samples).
Proof.
  induction samples as [|x samples IH]; intros prefix; simpl.
  - now rewrite app_nil_r.
  - rewrite appendSample_suffix, skipn_skipn_app by lia.
    replace (Nat.max (length prefix - VOLUME_HISTORY_LIMIT)
               (length (prefix ++ [x]) - VOLUME_HISTORY_LIMIT))
      with (length (prefix ++ [x]) - VOLUME_HISTORY_LIMIT)
      by (rewrite length_app; simpl; lia).
    rewrite IH. now rewrite <- app_assoc.
Qed.

(** ** Upsert *)

Lemma set_set {V : Type} (m : JSMap.t V) k v0 v :
  JSMap.set k v (JSMap.set k v0 m) = JSMap.set k v m.
Proof.
  induction m as [|[k' v'] m IH]; simpl.
  - now rewrite String.eqb_refl.
  - destruct (String.eqb k' k) eqn:E; simpl.
    + now rewrite String.eqb_refl.
    + now rewrite E, IH.
Qed.

Lemma values_set {V : Type} (m : JSMap.t V) k v x :
  In x (JSMap.values (JSMap.set k v m)) -> x = v \/ In x (JSMap.values m).
Proof.
  induction m as [|[k' v'] m IH]; simpl.
  - intuition.
  - destruct (String.eqb k' k); simpl; intuition.
Qed.

Lemma values_delete {V : Type} (m : JSMap.t V) k x :
  In x (JSMap.values (JSMap.delete k m)) -> In x (JSMap.values m).
Proof.
  induction m as [|[k' v'] m IH]; simpl; auto.
  destruct (String.eqb k' k); simpl; intuition.
Qed.

Lemma findIndex_None {A : Type} (p : A -> bool) (l : list A) :
  JS.findIndex p l = None <-> forall a, In a l -> p a = false.
Proof.
  induction l as [|x l IH]; simpl.
  - split; [intros _ a [] | reflexivity].
  - destruct (p x) eqn:Hx.
    + split; [discriminate|]. intros H. specialize (H x (or_introl eq_refl)).
      congruence.
    + destruct (JS.findIndex p l) as [i|].
      * split; [discriminate|]. intros H.
        assert (Hnone : Some i = None); [|discriminate].
        apply IH. intros a Ha. apply H. now right.
      * split; auto. intros _ a [<-|Ha]; auto. now apply IH.
Qed.

Lemma findIndex_Some {A : Type} (p : A -> bool) (l : list A) i :
  JS.findIndex p l = Some i ->
  exists a, nth_error l i = Some a /\ p a = true
            /\ forall j b, j < i -> nth_error l j = Some b -> p b = false.
Proof.
  revert i. induction l as [|x l IH]; simpl; intros i; [discriminate|].
  destruct (p x) eqn:Hx.
  - intros H. injection H as <-. exists x. repeat split; auto. lia.
  - destruct (JS.findIndex p l) as [i'|]; [|discriminate].
    intros H. injection H as <-.
    destruct (IH i' eq_refl) as (a & Hnth & Hpa & Hbefore).
    exists a. repeat split; auto.
    intros [|j] b Hj Hb; simpl in Hb.
    + now injection Hb as <-.
    + apply (Hbefore j); auto. lia.
Qed.

Lemma update_length {A : Type} (f : A -> A) (l : list A) i :
  length (JS.update i f l) = length l.
Proof.
  revert i. induction l as [|x l IH]; intros [|i]; simpl; auto.
Qed.

Lemma update_nth_error {A : Type} (f : A -> A) (l : list A) i j :
  nth_error (JS.update i f l) j
  = if Nat.eqb j i then option_map f (nth_error l j) else nth_error l j.
Proof.
  revert i j. induction l as [|x l IH]; intros [|i] [|j]; simpl; auto.
  - now destruct (Nat.eqb j i).
Qed.

Lemma update_map {A K : Type} (key : A -> K) (f : A -> A) (l : list A) i :
  (forall a, key (f a) = key a) ->
  map key (JS.update i f l) = map key l.
Proof.
  intros Hkey. revert i. induction l as [|x l IH]; intros [|i]; simpl; auto.
  - now rewrite Hkey.
  - now rewrite IH.
Qed.

Section Upsert.
Context {A K : Type}.
Variable key : A -> K.
Variable eqb : K -> K -> bool.
Variable same : A -> bool.
Variable replace : A -> A.
Variable fresh : A.
Hypothesis eqb_eq : forall x y, eqb x y = true <-> x = y.
Hypothesis same_key : forall a, same a = true <-> key a = key fresh.
Hypothesis replace_key : forall a, key (replace a) = key a.

Local Abbreviation Upserted := (upserted same replace fresh).

Lemma upsert_eq m userId :
  upsert same replace fresh m userId
  = JSMap.set userId (Upserted (listByUser userId m)) m.
Proof.
  unfold upsert, getUserAlertBucket, upserted, JSMap.has, listByUser.
  destruct (JSMap.get userId m) as [alerts|] eqn:E; simpl.
  - now rewrite E.
  - rewrite JSMapFacts.get_set_same. simpl. now rewrite set_set.
Qed.

Lemma listByUser_upsert m userId user :
  listByUser user (upsert same replace fresh m userId)
  = if String.eqb userId user then Upserted (listByUser userId m)
    else listByUser user m.
Proof.
  rewrite upsert_eq. unfold listByUser at 1.
  destruct (String.eqb_spec userId user) as [->|Hne].
  - now rewrite JSMapFacts.get_set_same.
  - now rewrite JSMapFacts.get_set_other.
Qed.

Lemma upserted_nonempty alerts : Upserted alerts <> [].
Proof.
  unfold upserted. destruct (JS.findIndex same alerts) as [i|] eqn:E.
  - apply findIndex_Some in E. destruct E as (a & Hnth & _).
    intros Hnil. assert (Hlen := update_length replace alerts i).
    rewrite Hnil in Hlen. simpl in Hlen.
    destruct alerts; [destruct i; discriminate | discriminate].
  - destruct alerts; discriminate.
Qed.

Lemma upserted_NoDup alerts :
  NoDup (map key alerts) -> NoDup (map key (Upserted alerts)).
Proof.
  intros Hnd. unfold upserted.
  destruct (JS.findIndex same alerts) as [i|] eqn:E.
  - now rewrite update_map.
  - rewrite map_app. simpl.
    rewrite findIndex_None in E.
    apply NoDup_app; [assumption | constructor; [easy | constructor] |].
    intros k Hin [<-|[]].
    apply in_map_iff in Hin. destruct Hin as (a & Hk & Ha).
    apply same_key in Hk. rewrite (E a Ha) in Hk. discriminate.
Qed.

Lemma usersOk_upsert m userId :
  usersOk m = true -> usersOk (upsert same replace fresh m userId) = true.
Proof.
  rewrite !usersOk_NoDup, upsert_eq. apply JSMapFacts.NoDup_keys_set.
Qed.

Lemma bucketsOk_upsert m userId :
  bucketsOk eqb key m = true ->
  bucketsOk eqb key (upsert same replace fresh m userId) = true.
Proof.
  intros Hok. rewrite upsert_eq.
  apply (bucketsOk_NoDup eqb key _ eqb_eq). intros alerts Hin.
  apply values_set in Hin. destruct Hin as [->|Hin].
  - apply upserted_NoDup. now apply (bucketsOk_listByUser eqb).
  - now apply (bucketsOk_NoDup eqb key m eqb_eq).
Qed.

End Upsert.

Lemma pruned_spec {A : Type} (m : JSMap.t (list A)) :
  pruned m = true <-> forall alerts, In alerts (JSMap.values m) -> alerts <> [].
Proof.
  unfold pruned. rewrite forallb_forall. split; intros H alerts Hin.
  - specialize (H alerts Hin). destruct alerts; [discriminate | discriminate].
  - specialize (H alerts Hin). destruct alerts; [congruence | reflexivity].
Qed.

Lemma pruned_upsert {A : Type} (same : A -> bool) replace fresh m userId :
  pruned m = true -> pruned (upsert same replace fresh m userId) = true.
Proof.
  rewrite !pruned_spec, upsert_eq. intros H alerts Hin.
  apply values_set in Hin. destruct Hin as [->|Hin]; auto.
  apply upserted_nonempty.
Qed.

Lemma pruned_delete {A : Type} (m : JSMap.t (list A)) userId :
  pruned m = true -> pruned (JSMap.delete userId m) = true.
Proof.
  rewrite !pruned_spec. intros H alerts Hin. apply H.
  now apply values_delete in Hin.
Qed.

Lemma bucketsOk_delete {A K : Type} (eqb : K -> K -> bool) (key : A -> K) m userId :
  bucketsOk eqb key m = true -> bucketsOk eqb key (JSMap.delete userId m) = true.
Proof.
  unfold bucketsOk. rewrite !forallb_forall. intros H alerts Hin. apply H.
  now apply values_delete in Hin.
Qed.

Lemma usersOk_delete {A : Type} (m : JSMap.t (list A)) userId :
  usersOk m = true -> usersOk (JSMap.delete userId m) = true.
Proof. rewrite !usersOk_NoDup. apply JSMapFacts.NoDup_keys_delete. Qed.

(** With every collection non-empty, membership in the map is having an
    alert. *)
Lemma pruned_has {A : Type} (m : JSMap.t (list A)) userId :
  pruned m = true ->
  JSMap.has userId m = match listByUser userId m with [] => false | _ => true end.
Proof.
  rewrite pruned_spec. intros H. unfold JSMap.has, listByUser.
  destruct (JSMap.get userId m) as [alerts|] eqn:E; auto.
  assert (Hin : In alerts (JSMap.values m)).
  { apply JSMapFacts.get_In in E. unfold JSMap.values.
    change alerts with (snd (userId, alerts)). now apply in_map. }
  specialize (H alerts Hin). destruct alerts; congruence.
Qed.

(** ** The invariants along a run *)

Lemma NoDup_map_filter {A K : Type} (key : A -> K) (p : A -> bool) (l : list A) :
  NoDup (map key l) -> NoDup (map key (filter p l)).
Proof.
  induction l as [|a l IH]; simpl; intros Hnd; [constructor|].
  inversion Hnd as [|? ? Hnotin Hnd']; subst.
  destruct (p a); simpl; auto.
  constructor; auto. intros Hin. apply Hnotin.
  apply in_map_iff in Hin. destruct Hin as (b & Hk & Hb).
  apply filter_In in Hb. apply in_map_iff. exists b. tauto.
Qed.

Lemma usersOk_sweptMap {A : Type} (codeOf : A -> string) stockCode trigger m :
  usersOk m = true -> usersOk (sweptMap codeOf stockCode trigger m) = true.
Proof. rewrite !usersOk_NoDup. apply NoDup_keys_sweptMap. Qed.

Lemma bucketsOk_sweptMap {A K : Type} (eqb : K -> K -> bool) (key : A -> K)
    (codeOf : A -> string) stockCode trigger m :
  bucketsOk eqb key m = true ->
  bucketsOk eqb key (sweptMap codeOf stockCode trigger m) = true.
Proof.
  unfold bucketsOk. rewrite !forallb_forall. intros H remaining Hin.
  apply values_sweptMap in Hin. destruct Hin as (_ & alerts & Hin & ->).
  specialize (H alerts Hin). revert H. unfold kept.
  generalize (fun alert => negb (fires codeOf stockCode trigger alert)).
  intros p. clear. induction alerts as [|a alerts IH]; simpl; auto.
  rewrite andb_true_iff, negb_true_iff. intros [Ha Hrest].
  destruct (p a); simpl; auto.
  rewrite IH by assumption. rewrite andb_true_r, negb_true_iff.
  destruct (existsb (eqb (key a)) (map key (filter p alerts))) eqn:E; auto.
  apply existsb_exists in E. destruct E as (k & Hk & Heq).
  assert (existsb (eqb (key a)) (map key alerts) = true); [|congruence].
  apply existsb_exists. exists k. split; auto.
  apply in_map_iff in Hk. destruct Hk as (b & <- & Hb).
  apply filter_In in Hb. apply in_map. tauto.
Qed.

Lemma pruned_sweptMap {A : Type} (codeOf : A -> string) stockCode trigger m :
  pruned (sweptMap codeOf stockCode trigger m) = true.
Proof.
  apply pruned_spec. intros remaining Hin.
  now apply values_sweptMap in Hin.
Qed.

Lemma registry_ok_evaluate delivered stockCode stockData st :
  registry_ok st = true ->
  registry_ok (fst (evaluate delivered stockCode stockData st)) = true.
Proof.
  intros Hok. rewrite evaluate_eq by now apply registry_ok_users.
  unfold registry_ok in *. cbn [fst userPriceAlerts userVolumeAlerts userChangeAlerts].
  rewrite !andb_true_iff in *.
  destruct Hok as (((((H1 & H2) & H3) & H4) & H5) & H6).
  repeat split;
    auto using @usersOk_sweptMap, @bucketsOk_sweptMap.
Qed.

Lemma pruned_ok_evaluate delivered stockCode stockData st :
  registry_ok st = true ->
  pruned_ok (fst (evaluate delivered stockCode stockData st)) = true.
Proof.
  intros Hok. rewrite evaluate_eq by now apply registry_ok_users.
  unfold pruned_ok. cbn [fst userPriceAlerts userVolumeAlerts userChangeAlerts].
  now rewrite !pruned_sweptMap.
Qed.

Lemma bounded_evaluate delivered stockCode stockData st :
  bounded st = true ->
  bounded (fst (evaluate delivered stockCode stockData st)) = true.
Proof.
  unfold bounded, evaluate.
  destruct (sweep PriceAlert.stockCode _ _ _ _ _) as [prices out1].
  destruct (sweep ChangeAlert.stockCode _ _ _ _ _) as [changes out2].
  destruct (sweep VolumeAlert.stockCode _ _ _ _ _) as [volumes out3].
  cbn [fst volumeHistory]. rewrite !forallb_forall. intros H history Hin.
  apply values_set in Hin. destruct Hin as [->|Hin]; auto.
  apply Nat.leb_le. apply appendSample_length.
Qed.

Lemma samePriceKey_key stockCode dir targetPrice a :
  samePriceKey stockCode dir a = true
  <-> priceKey a = priceKey (PriceAlert.mk stockCode dir targetPrice).
Proof.
  unfold samePriceKey, priceKey. simpl.
  rewrite andb_true_iff, String.eqb_eq, direction_eqb_eq.
  split; [intros [-> ->] | intros H; injection H]; auto.
Qed.

Lemma registry_ok_handleEvent fetchStockData userId cmd st :
  registry_ok st = true ->
  registry_ok (handleEvent fetchStockData userId cmd st) = true.
Proof.
  intros Hok.
  assert (Hprice : forall stockCode dir targetPrice,
    registry_ok (upsertPrice stockCode dir targetPrice userId st) = true).
  { intros stockCode dir targetPrice.
    unfold registry_ok, upsertPrice in *. simpl.
    rewrite !andb_true_iff in *.
    destruct Hok as (((((H1 & H2) & H3) & H4) & H5) & H6).
    repeat split; auto using @usersOk_upsert.
    apply (bucketsOk_upsert priceKey priceKey_eqb); auto using priceKey_eqb_eq.
    intros a. apply samePriceKey_key. }
  destruct cmd; simpl; auto.
  - destruct (fetchStockData stockCode); auto.
  - unfold registry_ok, upsertChange in *. simpl.
    rewrite !andb_true_iff in *.
    destruct Hok as (((((H1 & H2) & H3) & H4) & H5) & H6).
    repeat split; auto using @usersOk_upsert.
    apply (bucketsOk_upsert ChangeAlert.stockCode String.eqb);
      auto using String.eqb_eq.
  - unfold registry_ok in *. simpl.
    rewrite !andb_true_iff in *.
    destruct Hok as (((((H1 & H2) & H3) & H4) & H5) & H6).
    repeat split; auto using @usersOk_delete, @bucketsOk_delete.
  - destruct (negb (is_finite multiplier) || JS.le multiplier 1%float); auto.
    unfold registry_ok, upsertVolume in *. simpl.
    rewrite !andb_true_iff in *.
    destruct Hok as (((((H1 & H2) & H3) & H4) & H5) & H6).
    repeat split; auto using @usersOk_upsert.
    apply (bucketsOk_upsert VolumeAlert.stockCode String.eqb);
      auto using String.eqb_eq.
  - unfold registry_ok in *. simpl.
    rewrite !andb_true_iff in *.
    destruct Hok as (((((H1 & H2) & H3) & H4) & H5) & H6).
    repeat split; auto using @usersOk_delete, @bucketsOk_delete.
Qed.

Lemma pruned_ok_handleEvent fetchStockData userId cmd st :
  pruned_ok st = true ->
  pruned_ok (handleEvent fetchStockData userId cmd st) = true.
Proof.
  intros Hok.
  assert (Hprice : forall stockCode dir targetPrice,
    pruned_ok (upsertPrice stockCode dir targetPrice userId st) = true).
  { intros stockCode dir targetPrice.
    unfold pruned_ok, upsertPrice in *. simpl.
    rewrite !andb_true_iff in *. destruct Hok as ((H1 & H2) & H3).
    repeat split; auto using @pruned_upsert. }
  destruct cmd; simpl; auto.
  - destruct (fetchStockData stockCode); auto.
  - unfold pruned_ok, upsertChange in *. simpl.
    rewrite !andb_true_iff in *. destruct Hok as ((H1 & H2) & H3).
    repeat split; auto using @pruned_upsert.
  - unfold pruned_ok in *. simpl.
    rewrite !andb_true_iff in *. destruct Hok as ((H1 & H2) & H3).
    repeat split; auto using @pruned_delete.
  - destruct (negb (is_finite multiplier) || JS.le multiplier 1%float); auto.
    unfold pruned_ok, upsertVolume in *. simpl.
    rewrite !andb_true_iff in *. destruct Hok as ((H1 & H2) & H3).
    repeat split; auto using @pruned_upsert.
  - unfold pruned_ok in *. simpl.
    rewrite !andb_true_iff in *. destruct Hok as ((H1 & H2) & H3).
    repeat split; auto using @pruned_delete.
Qed.

Lemma bounded_handleEvent fetchStockData userId cmd st :
  bounded (handleEvent fetchStockData userId cmd st) = bounded st.
Proof.
  destruct cmd; simpl; auto.
  - destruct (fetchStockData stockCode); auto.
  - destruct (negb (is_finite multiplier) || JS.le multiplier 1%float); auto.
Qed.

Lemma run_snoc trace e : run (trace ++ [e]) = perform (run trace) e.
Proof. unfold run. now rewrite fold_left_app. Qed.

(** Every state of a run satisfies the three invariants. *)
Lemma run_invariant trace :
  registry_ok (run trace) = true
  /\ pruned_ok (run trace) = true
  /\ bounded (run trace) = true.
Proof.
  induction trace as [|e trace IH] using rev_ind.
  - repeat split.
  - rewrite run_snoc. destruct IH as (Hreg & Hpruned & Hbounded).
    destruct e as [fetchStockData userId cmd | delivered stockCode stockData]; simpl.
    + repeat split.
      * now apply registry_ok_handleEvent.
      * now apply pruned_ok_handleEvent.
      * now rewrite bounded_handleEvent.
    + repeat split.
      * now apply registry_ok_evaluate.
      * now apply pruned_ok_evaluate.
      * now apply bounded_evaluate.
Qed.

(** A cycle is a run of evaluations, one for each code whose fetch gave a
    snapshot. *)
Lemma visitAll_perform fetchStockData delivered stockCodes : forall st out,
  fst (visitAll fetchStockData delivered stockCodes (st, out))
  = fold_left perform
      (flat_map
         (fun stockCode =>
            match fetchStockData stockCode with
            | Data stockData => [Evaluated delivered stockCode stockData]
            | _ => []
            end) stockCodes)
      st.
Proof.
  induction stockCodes as [|code rest IH]; intros st out; auto.
  rewrite visitAll_cons. unfold visit.
  cbn [flat_map]. rewrite fold_left_app.
  destruct (fetchStockData code) as [| |stockData]; simpl; auto.
  destruct (evaluate delivered code stockData st) as [st' fired].
  now rewrite IH.
Qed.

Lemma checkAlerts_run fetchStockData delivered trace :
  exists evaluations,
    fst (checkAlerts fetchStockData delivered (run trace))
    = run (trace ++ evaluations).
Proof.
  eexists. unfold checkAlerts. rewrite visitAll_perform.
  symmetry. unfold run. apply fold_left_app.
Qed.

(** ** The history through a cycle *)

Lemma visitAll_history fetchStockData delivered stockCodes : forall st out code,
  NoDup stockCodes ->
  historyOf code (fst (visitAll fetchStockData delivered stockCodes (st, out)))
  = match fetchStockData code with
    | Data stockData =>
        if JSSet.has code stockCodes
        then appendSample (historyOf code st) (currentVolume stockData)
        else historyOf code st
    | _ => historyOf code st
    end.
Proof.
  induction stockCodes as [|c rest IH]; intros st out code Hnd.
  - simpl. now destruct (fetchStockData code).
  - inversion Hnd as [|? ? Hnotin Hnd']; subst.
    rewrite visitAll_cons, JSSetFacts.has_cons. unfold visit.
    destruct (fetchStockData c) as [| |stockData] eqn:Hfetch.
    + rewrite IH by assumption.
      destruct (String.eqb_spec code c) as [->|Hne]; simpl; auto.
      now rewrite Hfetch.
    + rewrite IH by assumption.
      destruct (String.eqb_spec code c) as [->|Hne]; simpl; auto.
      now rewrite Hfetch.
    + pose proof (historyOf_evaluate delivered c stockData st code) as Hhist.
      destruct (evaluate delivered c stockData st) as [st' fired].
      simpl in Hhist. rewrite IH by assumption. rewrite Hhist.
      destruct (String.eqb_spec code c) as [->|Hne]; simpl.
      * rewrite String.eqb_refl, Hfetch.
        destruct (JSSet.has c rest) eqn:E; auto.
        apply JSSetFacts.has_In in E. contradiction.
      * destruct (String.eqb_spec c code); [congruence | reflexivity].
Qed.

(** ** One alert for each dedup key *)

Lemma length_filter_key {A K : Type} (key : A -> K) (sel f : A -> bool)
    (l : list A) (a : A) :
  NoDup (map key l) -> In a l ->
  (forall b, sel b = true <-> key b = key a) ->
  length (filter (fun b => f b && sel b) l) = if f a then 1 else 0.
Proof.
  intros Hnd Hin Hsel. induction l as [|x l IH]; [destruct Hin|].
  simpl in Hnd. inversion Hnd as [|? ? Hnotin Hnd']; subst.
  destruct Hin as [->|Hin]; simpl.
  - assert (Ha : sel a = true) by now apply Hsel.
    rewrite Ha, andb_true_r.
    assert (Hrest : length (filter (fun b => f b && sel b) l) = 0).
    { apply length_filter_false. intros b Hb.
      destruct (sel b) eqn:E; [|apply andb_false_r].
      apply Hsel in E. exfalso. apply Hnotin. rewrite <- E. now apply in_map. }
    destruct (f a); simpl; now rewrite Hrest.
  - assert (Hx : sel x = false).
    { destruct (sel x) eqn:E; auto. apply Hsel in E.
      exfalso. apply Hnotin. rewrite E. now apply in_map. }
    rewrite Hx, andb_false_r. now apply IH.
Qed.

Lemma registry_ok_price st userId :
  registry_ok st = true ->
  NoDup (map priceKey (listByUser userId (userPriceAlerts st))).
Proof.
  unfold registry_ok. rewrite !andb_true_iff. intros H.
  apply (bucketsOk_listByUser priceKey_eqb); [apply priceKey_eqb_eq | tauto].
Qed.

Lemma registry_ok_volume st userId :
  registry_ok st = true ->
  NoDup (map VolumeAlert.stockCode (listByUser userId (userVolumeAlerts st))).
Proof.
  unfold registry_ok. rewrite !andb_true_iff. intros H.
  apply (bucketsOk_listByUser String.eqb); [apply String.eqb_eq | tauto].
Qed.

Lemma registry_ok_change st userId :
  registry_ok st = true ->
  NoDup (map ChangeAlert.stockCode (listByUser userId (userChangeAlerts st))).
Proof.
  unfold registry_ok. rewrite !andb_true_iff. intros H.
  apply (bucketsOk_listByUser String.eqb); [apply String.eqb_eq | tauto].
Qed.

(** ** Numbers *)

Lemma Prim2SF_zero : Prim2SF 0%float = S754_zero false.
Proof. reflexivity. Qed.

(** A positive number is not [<= 0]. *)
Lemma positive_not_le_zero (x : JS.number) :
  JS.gt x 0%float = true -> JS.le x 0%float = false.
Proof.
  unfold JS.gt, JS.le. rewrite FloatAxioms.ltb_spec, FloatAxioms.leb_spec, Prim2SF_zero.
  destruct (Prim2SF x) as [s|s| |s m e]; try destruct s;
    cbv [SFltb SFleb SFcompare]; congruence.
Qed.

(** A finite number that is not zero is neither [NaN] nor an infinity. *)
Lemma finite_nonzero (x : JS.number) :
  PrimFloat.is_finite x = true -> PrimFloat.eqb x 0%float = false ->
  exists s m e, Prim2SF x = S754_finite s m e.
Proof.
  unfold PrimFloat.is_finite, PrimFloat.is_nan, PrimFloat.is_infinity.
  rewrite !FloatAxioms.eqb_spec, abs_spec, Prim2SF_zero.
  change (Prim2SF infinity) with (S754_infinity false).
  destruct (Prim2SF x) as [s|s| |s m e]; intros Hfin Hnz.
  - destruct s; discriminate Hnz.
  - destruct s; discriminate Hfin.
  - discriminate Hfin.
  - now exists s, m, e.
Qed.

Lemma SFsub_diag s m e :
  SF64sub (S754_finite s m e) (S754_finite s m e) = S754_zero false.
Proof.
  unfold SF64sub, SFsub. rewrite Z.sub_diag. reflexivity.
Qed.

(** [(x - x) / x * 100] is a zero for every finite [x] other than zero. *)
Lemma self_change_zero (x : JS.number) :
  PrimFloat.is_finite x = true -> PrimFloat.eqb x 0%float = false ->
  PrimFloat.eqb ((x - x) / x * 100)%float 0%float = true.
Proof.
  intros Hfin Hnz. destruct (finite_nonzero x Hfin Hnz) as (s & m & e & Hx).
  rewrite FloatAxioms.eqb_spec, FloatAxioms.mul_spec, FloatAxioms.div_spec,
    FloatAxioms.sub_spec, Hx, SFsub_diag, Prim2SF_zero.
  change (Prim2SF 100%float) with (S754_finite false 7036874417766400 (-46)).
  reflexivity.
Qed.

(** ** Delivery does not reach the registry *)

Lemma evaluate_delivered delivered delivered' stockCode stockData st :
  users_ok st ->
  fst (evaluate delivered stockCode stockData st)
  = fst (evaluate delivered' stockCode stockData st).
Proof. intros Hok. now rewrite !evaluate_eq. Qed.

Lemma visitAll_delivered fetchStockData delivered delivered' stockCodes :
  forall st out out',
  users_ok st ->
  fst (visitAll fetchStockData delivered stockCodes (st, out))
  = fst (visitAll fetchStockData delivered' stockCodes (st, out')).
Proof.
  induction stockCodes as [|code rest IH]; intros st out out' Hok; auto.
  rewrite !visitAll_cons. unfold visit.
  destruct (fetchStockData code) as [| |stockData]; auto.
  pose proof (evaluate_delivered delivered delivered' code stockData st Hok) as Heq.
  pose proof (users_ok_evaluate delivered code stockData st Hok) as Hok'.
  destruct (evaluate delivered code stockData st) as [st1 fired1].
  destruct (evaluate delivered' code stockData st) as [st2 fired2].
  simpl in Heq, Hok'. subst st2. now apply IH.
Qed.

(* ================================================================= *)
(** * Scenarios of the specification, run on the model *)

(** 2330 closed at 600 and trades at 650: U1's alert for a rise to 640
    fires, with 650 in the text, and so does the 5% change alert. *)
Example scenario_price_fires :
  snd (checkAlerts exampleFeed (fun _ _ => true) exampleState)
  = [ pushMessage "U1" (PriceMessage "2330" ABOVE 640%float 650%float);
      pushMessage "U1" (ChangeMessage "2330" (50 / 600 * 100)%float);
      fetchFailed "2454";
      pushMessage "U2" (VolumeMessage "2317" 250%float 2%float) ].
Proof. reflexivity. Qed.

(** The alert set again after it fired fires again in the next cycle. *)
Example scenario_price_fires_again :
  let st1 := fst (checkAlerts exampleFeed silent exampleState) in
  let st2 := handleEvent noFeed "U1" (AlertDirected "2330" ABOVE 640%float) st1 in
  count (isPricePush "U1" "2330" ABOVE) (snd (checkAlerts exampleFeed silent st2)) = 1
  /\ listByUser "U1" (userPriceAlerts (fst (checkAlerts exampleFeed silent st2)))
     = [PriceAlert.mk "2454" ABOVE 1000%float].
Proof. split; reflexivity. Qed.

(** Samples [100; 100; 100] and a multiplier of 2: a volume of 250 fires,
    and with two samples only it does not. *)
Example scenario_volume_gate :
  volumeTrigger [100; 100; 100]%float 250%float (VolumeAlert.mk "2317" 2%float) = true
  /\ volumeTrigger [100; 100]%float 250%float (VolumeAlert.mk "2317" 2%float) = false
  /\ averageVolume [100; 100; 100]%float = 100%float.
Proof. repeat split; reflexivity. Qed.

(** The twenty-first sample pushes the first one out. *)
Example scenario_window :
  fold_left appendSample
    [1; 2; 3; 4; 5; 6; 7; 8; 9; 10; 11; 12; 13; 14; 15; 16; 17; 18; 19; 20; 21]%float
    []
  = [2; 3; 4; 5; 6; 7; 8; 9; 10; 11; 12; 13; 14; 15; 16; 17; 18; 19; 20; 21]%float.
Proof. reflexivity. Qed.

(** The simple form of ALERT picks the direction from the current price. *)
Example scenario_simple_alert :
  listByUser "U3"
    (userPriceAlerts (handleEvent exampleFeed "U3" (AlertSimple "2330" 700%float) initial))
  = [PriceAlert.mk "2330" ABOVE 700%float]
  /\ listByUser "U3"
    (userPriceAlerts (handleEvent exampleFeed "U3" (AlertSimple "2330" 600%float) initial))
  = [PriceAlert.mk "2330" BELOW 600%float].
Proof. split; reflexivity. Qed.

(* ================================================================= *)
(** * The claims *)

(** C1 -- At-most-once firing.  An alert of any kind that is in the
    registry when a cycle begins and whose trigger test holds on the
    snapshot the cycle fetches for its code is not in the registry when the
    cycle ends, and the cycle dispatched exactly one push for it, built
    from the alert and that snapshot.  This is so whatever becomes of the
    pushes: the registry the cycle leaves is the one it would leave had
    every delivery failed. *)
Theorem at_most_once_firing fetchStockData delivered st :
  registry_ok st = true ->
  let st' := fst (checkAlerts fetchStockData delivered st) in
  let out := snd (checkAlerts fetchStockData delivered st) in
  (forall userId alert stockData,
     In alert (listByUser userId (userPriceAlerts st)) ->
     fetchStockData (PriceAlert.stockCode alert) = Data stockData ->
     priceTrigger (currentPrice stockData) alert = true ->
     ~ In alert (listByUser userId (userPriceAlerts st'))
     /\ count (isPricePush userId (PriceAlert.stockCode alert)
                 (PriceAlert.direction alert)) out = 1
     /\ In (pushMessage userId
              (PriceMessage (PriceAlert.stockCode alert) (PriceAlert.direction alert)
                 (PriceAlert.targetPrice alert) (currentPrice stockData))) out)
  /\ (forall userId alert stockData,
     In alert (listByUser userId (userChangeAlerts st)) ->
     fetchStockData (ChangeAlert.stockCode alert) = Data stockData ->
     changeTrigger (percentageChange stockData) alert = true ->
     ~ In alert (listByUser userId (userChangeAlerts st'))
     /\ count (isChangePush userId (ChangeAlert.stockCode alert)) out = 1
     /\ In (pushMessage userId
              (ChangeMessage (ChangeAlert.stockCode alert)
                 (percentageChange stockData))) out)
  /\ (forall userId alert stockData,
     In alert (listByUser userId (userVolumeAlerts st)) ->
     fetchStockData (VolumeAlert.stockCode alert) = Data stockData ->
     volumeTrigger (historyOf (VolumeAlert.stockCode alert) st)
       (currentVolume stockData) alert = true ->
     ~ In alert (listByUser userId (userVolumeAlerts st'))
     /\ count (isVolumePush userId (VolumeAlert.stockCode alert)) out = 1
     /\ In (pushMessage userId
              (VolumeMessage (VolumeAlert.stockCode alert) (currentVolume stockData)
                 (VolumeAlert.multiplier alert))) out)
  /\ st' = fst (checkAlerts fetchStockData (fun _ _ => false) st).
Proof.
  intros Hreg st' out. pose proof (registry_ok_users st Hreg) as Hok.
  unfold st', out. split; [|split; [|split]].
  - intros userId alert stockData Hin Hfetch Htrig.
    assert (Hfires : priceFires fetchStockData alert = true).
    { unfold priceFires. now rewrite Hfetch. }
    split; [|split].
    + rewrite cycle_price by assumption. rewrite filter_In, Hfires.
      intros [_ Hf]. discriminate.
    + rewrite cycle_price_count by assumption.
      rewrite (length_filter_key priceKey _ _ _ alert), Hfires;
        auto using registry_ok_price.
      intros b. apply (samePriceKey_key _ _ (PriceAlert.targetPrice alert)).
    + now apply cycle_price_push.
  - intros userId alert stockData Hin Hfetch Htrig.
    assert (Hfires : changeFires fetchStockData alert = true).
    { unfold changeFires. now rewrite Hfetch. }
    split; [|split].
    + rewrite cycle_change by assumption. rewrite filter_In, Hfires.
      intros [_ Hf]. discriminate.
    + rewrite cycle_change_count by assumption.
      rewrite (length_filter_key ChangeAlert.stockCode _ _ _ alert), Hfires;
        auto using registry_ok_change.
      intros b. apply String.eqb_eq.
    + now apply cycle_change_push.
  - intros userId alert stockData Hin Hfetch Htrig.
    assert (Hfires : volumeFires fetchStockData st alert = true).
    { unfold volumeFires. now rewrite Hfetch. }
    split; [|split].
    + rewrite cycle_volume by assumption. rewrite filter_In, Hfires.
      intros [_ Hf]. discriminate.
    + rewrite cycle_volume_count by assumption.
      rewrite (length_filter_key VolumeAlert.stockCode _ _ _ alert), Hfires;
        auto using registry_ok_volume.
      intros b. apply String.eqb_eq.
    + now apply cycle_volume_push.
  - unfold checkAlerts. now apply visitAll_delivered.
Qed.

Lemma at_most_once_firing_witness :
  registry_ok exampleState = true
  /\ ~ In (PriceAlert.mk "2330" ABOVE 640%float)
         (listByUser "U1"
            (userPriceAlerts (fst (checkAlerts exampleFeed silent exampleState))))
  /\ count (isPricePush "U1" "2330" ABOVE)
       (snd (checkAlerts exampleFeed silent exampleState)) = 1
  /\ In (pushMessage "U1" (PriceMessage "2330" ABOVE 640%float 650%float))
       (snd (checkAlerts exampleFeed silent exampleState)).
Proof.
  split; [reflexivity|].
  destruct (at_most_once_firing exampleFeed silent exampleState eq_refl)
    as (Hprice & _).
  exact (Hprice "U1"%string (PriceAlert.mk "2330" ABOVE 640%float)
           (mkStockData 650%float 600%float 1000%float)
           (or_introl eq_refl) eq_refl eq_refl).
Defined.

(** C7 -- Non-firing retention.  An alert that does not fire in a cycle --
    its code was not fetched, or the trigger test failed on the snapshot --
    is in the registry after the cycle as it was before, the same record
    with the same fields; and nothing is in a collection after the cycle
    that was not in it before.  Within the cycle, evaluating one
    identifier leaves every alert on another identifier in place. *)
Theorem non_firing_retention fetchStockData delivered st :
  registry_ok st = true ->
  (forall userId alert,
     In alert (listByUser userId (userPriceAlerts st)) ->
     priceFires fetchStockData alert = false ->
     In alert (listByUser userId
                 (userPriceAlerts (fst (checkAlerts fetchStockData delivered st)))))
  /\ (forall userId alert,
     In alert (listByUser userId (userChangeAlerts st)) ->
     changeFires fetchStockData alert = false ->
     In alert (listByUser userId
                 (userChangeAlerts (fst (checkAlerts fetchStockData delivered st)))))
  /\ (forall userId alert,
     In alert (listByUser userId (userVolumeAlerts st)) ->
     volumeFires fetchStockData st alert = false ->
     In alert (listByUser userId
                 (userVolumeAlerts (fst (checkAlerts fetchStockData delivered st)))))
  /\ (forall userId,
     incl (listByUser userId
             (userPriceAlerts (fst (checkAlerts fetchStockData delivered st))))
          (listByUser userId (userPriceAlerts st))
     /\ incl (listByUser userId
                (userChangeAlerts (fst (checkAlerts fetchStockData delivered st))))
             (listByUser userId (userChangeAlerts st))
     /\ incl (listByUser userId
                (userVolumeAlerts (fst (checkAlerts fetchStockData delivered st))))
             (listByUser userId (userVolumeAlerts st)))
  /\ (forall stockCode stockData userId,
     (forall alert,
        In alert (listByUser userId (userPriceAlerts st)) ->
        PriceAlert.stockCode alert <> stockCode ->
        In alert (listByUser userId
          (userPriceAlerts (fst (evaluate delivered stockCode stockData st)))))
     /\ (forall alert,
        In alert (listByUser userId (userChangeAlerts st)) ->
        ChangeAlert.stockCode alert <> stockCode ->
        In alert (listByUser userId
          (userChangeAlerts (fst (evaluate delivered stockCode stockData st)))))
     /\ (forall alert,
        In alert (listByUser userId (userVolumeAlerts st)) ->
        VolumeAlert.stockCode alert <> stockCode ->
        In alert (listByUser userId
          (userVolumeAlerts (fst (evaluate delivered stockCode stockData st)))))).
Proof.
  intros Hreg. pose proof (registry_ok_users st Hreg) as Hok.
  pose proof Hok as (Hp & Hv & Hc).
  split; [|split; [|split; [|split]]].
  - intros userId alert Hin Hfires.
    rewrite cycle_price by assumption. apply filter_In. now rewrite Hfires.
  - intros userId alert Hin Hfires.
    rewrite cycle_change by assumption. apply filter_In. now rewrite Hfires.
  - intros userId alert Hin Hfires.
    rewrite cycle_volume by assumption. apply filter_In. now rewrite Hfires.
  - intros userId.
    rewrite cycle_price, cycle_change, cycle_volume by assumption.
    repeat split; apply incl_filter.
  - intros stockCode stockData userId.
    rewrite price_evaluate, change_evaluate, volume_evaluate by assumption.
    rewrite !listByUser_sweptMap by assumption.
    unfold kept, fires.
    repeat split; intros alert Hin Hne; apply filter_In; split; auto;
      apply String.eqb_neq in Hne; now rewrite Hne.
Qed.

Lemma non_firing_retention_witness :
  registry_ok exampleState = true
  /\ In (PriceAlert.mk "2330" BELOW 500%float)
       (listByUser "U2"
          (userPriceAlerts (fst (checkAlerts exampleFeed silent exampleState))))
  /\ In (PriceAlert.mk "2454" ABOVE 1000%float)
       (listByUser "U1"
          (userPriceAlerts (fst (checkAlerts exampleFeed silent exampleState)))).
Proof.
  split; [reflexivity|].
  destruct (non_firing_retention exampleFeed silent exampleState eq_refl)
    as (Hprice & _).
  split; apply Hprice; try reflexivity; simpl; auto.
Defined.

(** C3 -- Volume trigger.  In a cycle that fetches a snapshot for its
    code, a volume alert fires -- one push, and the alert leaves the
    registry -- exactly when the history the code had before the cycle
    holds at least [VOLUME_MIN_SAMPLES] samples, their arithmetic mean is
    positive, and the current volume is at least the mean times the
    multiplier.  With fewer samples it does not fire, whatever the current
    volume is.  Either way the current volume is appended to the history,
    which keeps its newest [VOLUME_HISTORY_LIMIT] samples. *)
Theorem volume_trigger_evaluation fetchStockData delivered st userId alert stockData :
  registry_ok st = true ->
  In alert (listByUser userId (userVolumeAlerts st)) ->
  fetchStockData (VolumeAlert.stockCode alert) = Data stockData ->
  let history := historyOf (VolumeAlert.stockCode alert) st in
  let n := length history in
  let avg := (JS.sum history / JS.of_length n)%float in
  let fired :=
    (VOLUME_MIN_SAMPLES <=? n) && JS.gt avg 0%float
    && JS.ge (currentVolume stockData) (avg * VolumeAlert.multiplier alert)%float in
  let st' := fst (checkAlerts fetchStockData delivered st) in
  let out := snd (checkAlerts fetchStockData delivered st) in
  count (isVolumePush userId (VolumeAlert.stockCode alert)) out
    = (if fired then 1 else 0)
  /\ (In alert (listByUser userId (userVolumeAlerts st')) <-> fired = false)
  /\ (n < VOLUME_MIN_SAMPLES -> fired = false)
  /\ historyOf (VolumeAlert.stockCode alert) st'
     = appendSample history (currentVolume stockData).
Proof.
  intros Hreg Hin Hfetch history n avg fired st' out.
  pose proof (registry_ok_users st Hreg) as Hok.
  assert (Hfires : volumeFires fetchStockData st alert = fired).
  { unfold volumeFires. rewrite Hfetch. unfold volumeTrigger, averageVolume.
    fold history. fold n. unfold fired, VOLUME_MIN_SAMPLES.
    destruct n as [|[|[|n']]]; reflexivity. }
  split; [|split; [|split]].
  - unfold out. rewrite cycle_volume_count by assumption.
    rewrite (length_filter_key VolumeAlert.stockCode _ _ _ alert), Hfires;
      auto using registry_ok_volume.
    intros b. apply String.eqb_eq.
  - unfold st'. rewrite cycle_volume by assumption.
    rewrite filter_In, Hfires, negb_true_iff. tauto.
  - intros Hn. unfold fired.
    apply Nat.leb_gt in Hn. now rewrite Hn.
  - unfold st', checkAlerts.
    rewrite visitAll_history by apply collectCodes_NoDup.
    rewrite Hfetch. now rewrite (collectCodes_volume st userId alert Hin).
Qed.

Lemma volume_trigger_evaluation_witness :
  registry_ok exampleState = true
  /\ count (isVolumePush "U2" "2317")
       (snd (checkAlerts exampleFeed silent exampleState)) = 1
  /\ historyOf "2317" (fst (checkAlerts exampleFeed silent exampleState))
     = [100; 100; 100; 250]%float.
Proof.
  split; [reflexivity|].
  destruct (volume_trigger_evaluation exampleFeed silent exampleState "U2"
              (VolumeAlert.mk "2317" 2%float)
              (mkStockData 100%float nan 250%float) eq_refl)
    as (Hcount & _ & _ & Hhistory).
  - simpl. auto.
  - reflexivity.
  - split; [exact Hcount | exact Hhistory].
Defined.

(** C5 -- Fail-soft fetch.  When the fetch for an identifier throws or
    gives nothing, the cycle skips it: every alert on it, of each kind,
    stays in the registry, no push mentions it and its history is what it
    was.  The other identifiers are processed all the same: each one the
    cycle visits and gets a snapshot for has that snapshot's volume
    appended to its history, and its alerts that fire are removed. *)
Theorem fail_soft_fetch fetchStockData delivered st stockCode :
  registry_ok st = true ->
  fetchStockData stockCode = Rejected \/ fetchStockData stockCode = NoData ->
  let st' := fst (checkAlerts fetchStockData delivered st) in
  let out := snd (checkAlerts fetchStockData delivered st) in
  (forall userId,
     (forall alert, In alert (listByUser userId (userPriceAlerts st)) ->
        PriceAlert.stockCode alert = stockCode ->
        In alert (listByUser userId (userPriceAlerts st')))
     /\ (forall alert, In alert (listByUser userId (userChangeAlerts st)) ->
        ChangeAlert.stockCode alert = stockCode ->
        In alert (listByUser userId (userChangeAlerts st')))
     /\ (forall alert, In alert (listByUser userId (userVolumeAlerts st)) ->
        VolumeAlert.stockCode alert = stockCode ->
        In alert (listByUser userId (userVolumeAlerts st'))))
  /\ (forall userId,
     (forall dir, count (isPricePush userId stockCode dir) out = 0)
     /\ count (isChangePush userId stockCode) out = 0
     /\ count (isVolumePush userId stockCode) out = 0)
  /\ historyOf stockCode st' = historyOf stockCode st
  /\ (forall other stockData,
     fetchStockData other = Data stockData ->
     JSSet.has other (collectCodes st) = true ->
     historyOf other st' = appendSample (historyOf other st) (currentVolume stockData))
  /\ (forall userId alert,
     In alert (listByUser userId (userPriceAlerts st)) ->
     priceFires fetchStockData alert = true ->
     ~ In alert (listByUser userId (userPriceAlerts st'))).
Proof.
  intros Hreg Hfail st' out. pose proof (registry_ok_users st Hreg) as Hok.
  assert (HnoData : forall stockData, fetchStockData stockCode <> Data stockData).
  { intros stockData. destruct Hfail as [H|H]; rewrite H; discriminate. }
  assert (Hprice : forall alert, PriceAlert.stockCode alert = stockCode ->
            priceFires fetchStockData alert = false).
  { intros alert <-. unfold priceFires.
    destruct (fetchStockData (PriceAlert.stockCode alert)) eqn:E; auto.
    destruct (HnoData _ eq_refl). }
  assert (Hchange : forall alert, ChangeAlert.stockCode alert = stockCode ->
            changeFires fetchStockData alert = false).
  { intros alert <-. unfold changeFires.
    destruct (fetchStockData (ChangeAlert.stockCode alert)) eqn:E; auto.
    destruct (HnoData _ eq_refl). }
  assert (Hvolume : forall alert, VolumeAlert.stockCode alert = stockCode ->
            volumeFires fetchStockData st alert = false).
  { intros alert <-. unfold volumeFires.
    destruct (fetchStockData (VolumeAlert.stockCode alert)) eqn:E; auto.
    destruct (HnoData _ eq_refl). }
  unfold st', out. split; [|split; [|split; [|split]]].
  - intros userId.
    rewrite cycle_price, cycle_change, cycle_volume by assumption.
    repeat split; intros alert Hin Hcode; apply filter_In; split; auto.
    + now rewrite Hprice.
    + now rewrite Hchange.
    + now rewrite Hvolume.
  - intros userId. split; [intros dir|split].
    + rewrite cycle_price_count by assumption.
      apply length_filter_false. intros alert _.
      unfold samePriceKey.
      destruct (String.eqb_spec (PriceAlert.stockCode alert) stockCode) as [Heq|Hne].
      * now rewrite Hprice.
      * simpl. apply andb_false_r.
    + rewrite cycle_change_count by assumption.
      apply length_filter_false. intros alert _.
      destruct (String.eqb_spec (ChangeAlert.stockCode alert) stockCode) as [Heq|Hne].
      * now rewrite Hchange.
      * apply andb_false_r.
    + rewrite cycle_volume_count by assumption.
      apply length_filter_false. intros alert _.
      destruct (String.eqb_spec (VolumeAlert.stockCode alert) stockCode) as [Heq|Hne].
      * now rewrite Hvolume.
      * apply andb_false_r.
  - unfold checkAlerts. rewrite visitAll_history by apply collectCodes_NoDup.
    destruct (fetchStockData stockCode) eqn:E; auto.
    destruct (HnoData _ eq_refl).
  - intros other stockData Hfetch Hvisited.
    unfold checkAlerts. rewrite visitAll_history by apply collectCodes_NoDup.
    now rewrite Hfetch, Hvisited.
  - intros userId alert Hin Hfires.
    rewrite cycle_price by assumption. rewrite filter_In, Hfires.
    intros [_ Hf]. discriminate.
Qed.

Lemma fail_soft_fetch_witness :
  registry_ok exampleState = true
  /\ exampleFeed "2454" = Rejected
  /\ In (PriceAlert.mk "2454" ABOVE 1000%float)
       (listByUser "U1"
          (userPriceAlerts (fst (checkAlerts exampleFeed silent exampleState))))
  /\ historyOf "2330" (fst (checkAlerts exampleFeed silent exampleState))
     = [1000%float].
Proof.
  split; [reflexivity|]. split; [reflexivity|].
  destruct (fail_soft_fetch exampleFeed silent exampleState "2454" eq_refl
              (or_introl eq_refl))
    as (Hkept & _ & _ & Hothers & _).
  split.
  - apply (Hkept "U1"%string); [simpl; auto | reflexivity].
  - apply (Hothers "2330"%string (mkStockData 650%float 600%float 1000%float));
      reflexivity.
Defined.

(** C4 -- History bound.  An append leaves at most
    [VOLUME_HISTORY_LIMIT] samples, namely the newest ones of the window
    followed by the new sample, in arrival order; so any number of appends
    to an empty window leaves exactly the last [VOLUME_HISTORY_LIMIT]
    samples that arrived, oldest first.  In every state the program
    reaches, and after every cycle run from such a state, each identifier's
    history is within the bound. *)
Theorem history_bound :
  (forall history sample,
     length (appendSample history sample) <= 20
     /\ appendSample history sample
        = skipn (length (history ++ [sample]) - 20) (history ++ [sample]))
  /\ (forall samples,
     fold_left appendSample samples [] = skipn (length samples - 20) samples
     /\ length (fold_left appendSample samples []) = Nat.min (length samples) 20)
  /\ (forall trace stockCode,
     length (historyOf stockCode (run trace)) <= 20)
  /\ (forall trace fetchStockData delivered stockCode,
     length (historyOf stockCode
               (fst (checkAlerts fetchStockData delivered (run trace)))) <= 20).
Proof.
  assert (Hsuffix : forall samples,
    fold_left appendSample samples [] = skipn (length samples - 20) samples).
  { intros samples. exact (appends_suffix samples []). }
  assert (Hrun : forall trace stockCode,
    length (historyOf stockCode (run trace)) <= 20).
  { intros trace stockCode.
    destruct (run_invariant trace) as (_ & _ & Hbounded).
    unfold bounded in Hbounded. rewrite forallb_forall in Hbounded.
    unfold historyOf.
    destruct (listByUser_values (volumeHistory (run trace)) stockCode) as [->|Hin].
    - simpl. lia.
    - apply Nat.leb_le. now apply Hbounded. }
  split; [|split; [|split]].
  - intros history sample. split.
    + apply appendSample_length.
    + apply appendSample_suffix.
  - intros samples. split; [apply Hsuffix|].
    rewrite Hsuffix, length_skipn. lia.
  - exact Hrun.
  - intros trace fetchStockData delivered stockCode.
    destruct (checkAlerts_run fetchStockData delivered trace) as [evaluations ->].
    apply Hrun.
Qed.

Lemma filter_nonempty {A : Type} (p : A -> bool) (l : list A) :
  match filter p l with [] => false | _ => true end = existsb p l.
Proof.
  induction l as [|a l IH]; simpl; auto.
  destruct (p a); simpl; auto.
Qed.

Lemma has_delete {V : Type} (m : JSMap.t V) k :
  JSMap.has k (JSMap.delete k m) = false.
Proof. unfold JSMap.has. now rewrite JSMapFacts.get_delete_same. Qed.

(** C6 -- Pruning.  In every state the program reaches by commands and
    evaluations, and in each of the three maps, a user is a key exactly
    when the user has an alert of that kind: no key is mapped to an empty
    collection.  After a cycle a user is a key of a map exactly when one of
    the user's alerts there did not fire, so a user whose last alert fired
    is gone from the map; after a clear command the user is gone from the
    maps it clears; and an upsert leaves the user with a non-empty
    collection. *)
Theorem pruning_invariant :
  (forall trace userId,
     (JSMap.has userId (userPriceAlerts (run trace)) = true
        <-> listByUser userId (userPriceAlerts (run trace)) <> [])
     /\ (JSMap.has userId (userVolumeAlerts (run trace)) = true
        <-> listByUser userId (userVolumeAlerts (run trace)) <> [])
     /\ (JSMap.has userId (userChangeAlerts (run trace)) = true
        <-> listByUser userId (userChangeAlerts (run trace)) <> []))
  /\ (forall trace fetchStockData delivered userId,
     let st := run trace in
     let st' := fst (checkAlerts fetchStockData delivered st) in
     JSMap.has userId (userPriceAlerts st')
       = existsb (fun a => negb (priceFires fetchStockData a))
           (listByUser userId (userPriceAlerts st))
     /\ JSMap.has userId (userVolumeAlerts st')
       = existsb (fun a => negb (volumeFires fetchStockData st a))
           (listByUser userId (userVolumeAlerts st))
     /\ JSMap.has userId (userChangeAlerts st')
       = existsb (fun a => negb (changeFires fetchStockData a))
           (listByUser userId (userChangeAlerts st)))
  /\ (forall fetchStockData userId st,
     JSMap.has userId (userPriceAlerts (handleEvent fetchStockData userId AlertClear st))
       = false
     /\ JSMap.has userId (userChangeAlerts (handleEvent fetchStockData userId AlertClear st))
       = false
     /\ JSMap.has userId (userVolumeAlerts (handleEvent fetchStockData userId VolClear st))
       = false)
  /\ (forall fetchStockData userId st stockCode dir number,
     listByUser userId
       (userPriceAlerts
          (handleEvent fetchStockData userId (AlertDirected stockCode dir number) st))
       <> []
     /\ listByUser userId
       (userChangeAlerts
          (handleEvent fetchStockData userId (AlertChange stockCode number) st))
       <> []
     /\ (negb (PrimFloat.is_finite number) || JS.le number 1%float = false ->
         listByUser userId
           (userVolumeAlerts
              (handleEvent fetchStockData userId (Vol stockCode number) st))
           <> [])).
Proof.
  assert (Hiff : forall (A : Type) (m : JSMap.t (list A)) userId,
    pruned m = true ->
    (JSMap.has userId m = true <-> listByUser userId m <> [])).
  { intros A m userId Hpruned. rewrite pruned_has by assumption.
    destruct (listByUser userId m); split; congruence. }
  split; [|split; [|split]].
  - intros trace userId.
    destruct (run_invariant trace) as (_ & Hpruned & _).
    unfold pruned_ok in Hpruned. rewrite !andb_true_iff in Hpruned.
    destruct Hpruned as ((Hp & Hv) & Hc). auto.
  - intros trace fetchStockData delivered userId st st'.
    destruct (run_invariant trace) as (Hreg & _ & _).
    pose proof (registry_ok_users _ Hreg) as Hok.
    assert (Hpruned : pruned_ok st' = true).
    { unfold st', st.
      destruct (checkAlerts_run fetchStockData delivered trace) as [evaluations ->].
      apply run_invariant. }
    unfold pruned_ok in Hpruned. rewrite !andb_true_iff in Hpruned.
    destruct Hpruned as ((Hp & Hv) & Hc).
    rewrite !pruned_has by assumption. unfold st'.
    rewrite cycle_price, cycle_volume, cycle_change by assumption.
    now rewrite !filter_nonempty.
  - intros fetchStockData userId st. simpl. now rewrite !has_delete.
  - intros fetchStockData userId st stockCode dir number. simpl.
    unfold upsertPrice, upsertChange. simpl.
    rewrite !listByUser_upsert, !String.eqb_refl.
    repeat split; try apply upserted_nonempty.
    intros Hvalid. rewrite Hvalid. unfold upsertVolume. simpl.
    rewrite listByUser_upsert, String.eqb_refl. apply upserted_nonempty.
Qed.

Lemma pruning_invariant_witness :
  negb (PrimFloat.is_finite 2%float) || JS.le 2%float 1%float = false
  /\ listByUser "U2"
       (userVolumeAlerts (handleEvent noFeed "U2" (Vol "2317" 2%float) initial))
     <> [].
Proof.
  split; [reflexivity|].
  destruct pruning_invariant as (_ & _ & _ & Hupsert).
  destruct (Hupsert noFeed "U2"%string initial "2317"%string ABOVE 2%float)
    as (_ & _ & Hvol).
  apply Hvol. reflexivity.
Defined.

(** C9 -- Dedup replace.  Setting a price alert for a user looks for the
    first alert in the user's collection with the same identifier and
    direction.  When there is one, its target price is overwritten where it
    stands: the collection keeps its length and every other element, and
    the element at that index is the alert with the new target.  When
    there is none, which is when no alert of the collection has that pair,
    the new alert is appended. *)
Theorem dedup_replace fetchStockData userId stockCode dir targetPrice st :
  let alerts := listByUser userId (userPriceAlerts st) in
  let alerts' :=
    listByUser userId
      (userPriceAlerts
         (handleEvent fetchStockData userId
            (AlertDirected stockCode dir targetPrice) st)) in
  match JS.findIndex (samePriceKey stockCode dir) alerts with
  | Some existingIndex =>
      length alerts' = length alerts
      /\ nth_error alerts' existingIndex
         = Some (PriceAlert.mk stockCode dir targetPrice)
      /\ (exists old,
            nth_error alerts existingIndex
            = Some (PriceAlert.mk stockCode dir old))
      /\ (forall i, i <> existingIndex -> nth_error alerts' i = nth_error alerts i)
  | None =>
      alerts' = alerts ++ [PriceAlert.mk stockCode dir targetPrice]
      /\ existsb (samePriceKey stockCode dir) alerts = false
  end.
Proof.
  intros alerts alerts'.
  assert (Heq : alerts' = upserted (samePriceKey stockCode dir)
                   (fun alert => PriceAlert.mk (PriceAlert.stockCode alert)
                                   (PriceAlert.direction alert) targetPrice)
                   (PriceAlert.mk stockCode dir targetPrice) alerts).
  { unfold alerts', alerts. simpl. unfold upsertPrice. simpl.
    now rewrite listByUser_upsert, String.eqb_refl. }
  rewrite Heq. unfold upserted.
  destruct (JS.findIndex (samePriceKey stockCode dir) alerts) as [i|] eqn:E.
  - apply findIndex_Some in E. destruct E as (a & Hnth & Hsame & _).
    unfold samePriceKey in Hsame. apply andb_true_iff in Hsame.
    destruct Hsame as [Hcode Hdir].
    apply String.eqb_eq in Hcode. apply direction_eqb_eq in Hdir.
    destruct a as [c d t]. simpl in Hcode, Hdir. subst c d.
    repeat split.
    + apply update_length.
    + rewrite update_nth_error, Nat.eqb_refl, Hnth. reflexivity.
    + now exists t.
    + intros j Hne. rewrite update_nth_error.
      apply Nat.eqb_neq in Hne. now rewrite Hne.
  - split; auto.
    rewrite findIndex_None in E.
    destruct (existsb (samePriceKey stockCode dir) alerts) eqn:Hex; auto.
    apply existsb_exists in Hex. destruct Hex as (a & Hin & Hsame).
    rewrite (E a Hin) in Hsame. discriminate.
Qed.

Lemma dedup_replace_witness :
  let alerts' :=
    listByUser "U1"
      (userPriceAlerts
         (handleEvent noFeed "U1" (AlertDirected "2330" ABOVE 700%float) exampleState)) in
  length alerts' = 2
  /\ nth_error alerts' 0 = Some (PriceAlert.mk "2330" ABOVE 700%float)
  /\ (exists old,
        nth_error (listByUser "U1" (userPriceAlerts exampleState)) 0
        = Some (PriceAlert.mk "2330" ABOVE old))
  /\ (forall i, i <> 0 ->
        nth_error alerts' i
        = nth_error (listByUser "U1" (userPriceAlerts exampleState)) i).
Proof.
  exact (dedup_replace noFeed "U1" "2330" ABOVE 700%float exampleState).
Defined.

(** C10 -- A price that does not parse.  When the price field of the
    snapshot reads as [NaN] or as zero, the evaluator takes the current
    price to be 0.  In that cycle every BELOW alert on the identifier fires
    and is removed, whatever its target price is among the numbers the
    command patterns accept, and no ABOVE alert with a positive target
    fires. *)
Theorem unparsed_price_is_zero fetchStockData delivered st userId alert stockData :
  registry_ok st = true ->
  In alert (listByUser userId (userPriceAlerts st)) ->
  fetchStockData (PriceAlert.stockCode alert) = Data stockData ->
  JS.truthy (z stockData) = false ->
  let st' := fst (checkAlerts fetchStockData delivered st) in
  let out := snd (checkAlerts fetchStockData delivered st) in
  currentPrice stockData = 0%float
  /\ (PriceAlert.direction alert = BELOW ->
      unsignedDecimal (PriceAlert.targetPrice alert) = true ->
      ~ In alert (listByUser userId (userPriceAlerts st'))
      /\ count (isPricePush userId (PriceAlert.stockCode alert) BELOW) out = 1)
  /\ (PriceAlert.direction alert = ABOVE ->
      JS.gt (PriceAlert.targetPrice alert) 0%float = true ->
      In alert (listByUser userId (userPriceAlerts st'))
      /\ count (isPricePush userId (PriceAlert.stockCode alert) ABOVE) out = 0).
Proof.
  intros Hreg Hin Hfetch Hz st' out.
  pose proof (registry_ok_users st Hreg) as Hok.
  assert (Hzero : currentPrice stockData = 0%float).
  { unfold currentPrice, JS.or_else. now rewrite Hz. }
  assert (Hcount : forall dir, PriceAlert.direction alert = dir ->
    count (isPricePush userId (PriceAlert.stockCode alert) dir) out
    = if priceFires fetchStockData alert then 1 else 0).
  { intros dir <-. unfold out. rewrite cycle_price_count by assumption.
    apply (length_filter_key priceKey); auto using registry_ok_price.
    intros b. apply (samePriceKey_key _ _ (PriceAlert.targetPrice alert)). }
  split; [exact Hzero|]. split.
  - intros Hdir Htarget.
    assert (Hfires : priceFires fetchStockData alert = true).
    { unfold priceFires, priceTrigger. rewrite Hfetch, Hzero, Hdir. simpl.
      exact Htarget. }
    split.
    + unfold st'. rewrite cycle_price by assumption. rewrite filter_In, Hfires.
      intros [_ Hf]. discriminate.
    + now rewrite Hcount, Hfires.
  - intros Hdir Htarget.
    assert (Hfires : priceFires fetchStockData alert = false).
    { unfold priceFires, priceTrigger. rewrite Hfetch, Hzero, Hdir. simpl.
      rewrite orb_false_r. unfold JS.ge.
      now apply positive_not_le_zero. }
    split.
    + unfold st'. rewrite cycle_price by assumption.
      apply filter_In. now rewrite Hfires.
    + now rewrite Hcount, Hfires.
Qed.

Lemma unparsed_price_is_zero_witness :
  registry_ok exampleState = true
  /\ JS.truthy nan = false
  /\ ~ In (PriceAlert.mk "2330" BELOW 500%float)
         (listByUser "U2"
            (userPriceAlerts (fst (checkAlerts exampleFeedNoTrade silent exampleState))))
  /\ In (PriceAlert.mk "2330" ABOVE 640%float)
       (listByUser "U1"
          (userPriceAlerts (fst (checkAlerts exampleFeedNoTrade silent exampleState)))).
Proof.
  split; [reflexivity|]. split; [reflexivity|]. split.
  - destruct (unparsed_price_is_zero exampleFeedNoTrade silent exampleState "U2"
                (PriceAlert.mk "2330" BELOW 500%float)
                (mkStockData nan 600%float 0%float) eq_refl)
      as (_ & Hbelow & _); try reflexivity.
    + simpl. auto.
    + now apply Hbelow.
  - destruct (unparsed_price_is_zero exampleFeedNoTrade silent exampleState "U1"
                (PriceAlert.mk "2330" ABOVE 640%float)
                (mkStockData nan 600%float 0%float) eq_refl)
      as (_ & _ & Habove); try reflexivity.
    + simpl. auto.
    + now apply Habove.
Defined.

(** C8, as stated, fails: with no previous close the fallback makes the
    derived change 0 only for a finite price.  For a price that reads as
    [Infinity] the change is [NaN]; an alert with threshold 0, which a
    change of 0 would fire, then stays. *)
Lemma change_fallback_counterexample :
  ~ (forall stockData,
       JS.truthy (y stockData) = false ->
       PrimFloat.eqb (percentageChange stockData) 0%float = true).
Proof.
  intros H.
  specialize (H (mkStockData infinity nan 0%float) eq_refl).
  vm_compute in H. discriminate.
Qed.

(** C8, amended -- Change trigger.  In a cycle that fetches a snapshot for
    its code, a change alert fires -- one push, and it leaves the registry
    -- exactly when the absolute value of the percent change is at least
    its threshold.  The percent change is (currentPrice - previousClose) /
    previousClose * 100, and 0 when previousClose is 0; previousClose is
    the snapshot's when that reads as a number other than zero and the
    current price otherwise, which makes the change 0 whenever the current
    price is finite.  A close at 100 and a price of 94 give -6, which fires
    a threshold of 5. *)
Theorem change_trigger fetchStockData delivered st userId alert stockData :
  registry_ok st = true ->
  In alert (listByUser userId (userChangeAlerts st)) ->
  fetchStockData (ChangeAlert.stockCode alert) = Data stockData ->
  let price := currentPrice stockData in
  let close := previousClose stockData in
  let change := percentageChange stockData in
  let fired := JS.ge (PrimFloat.abs change) (ChangeAlert.changePercent alert) in
  let st' := fst (checkAlerts fetchStockData delivered st) in
  let out := snd (checkAlerts fetchStockData delivered st) in
  count (isChangePush userId (ChangeAlert.stockCode alert)) out
    = (if fired then 1 else 0)
  /\ (In alert (listByUser userId (userChangeAlerts st')) <-> fired = false)
  /\ close = (if JS.truthy (y stockData) then y stockData else price)
  /\ change = (if JS.strict_ne close 0%float
               then ((price - close) / close * 100)%float else 0%float)
  /\ (JS.truthy (y stockData) = false -> PrimFloat.is_finite price = true ->
      PrimFloat.eqb change 0%float = true)
  /\ (PrimFloat.eqb close 0%float = true -> change = 0%float)
  /\ percentageChange (mkStockData 94%float 100%float 0%float) = (-6)%float
  /\ changeTrigger (-6)%float (ChangeAlert.mk (ChangeAlert.stockCode alert) 5%float)
     = true.
Proof.
  intros Hreg Hin Hfetch price close change fired st' out.
  pose proof (registry_ok_users st Hreg) as Hok.
  assert (Hfires : changeFires fetchStockData alert = fired).
  { unfold changeFires. now rewrite Hfetch. }
  repeat split.
  - unfold out. rewrite cycle_change_count by assumption.
    rewrite (length_filter_key ChangeAlert.stockCode _ _ _ alert), Hfires;
      auto using registry_ok_change.
    intros b. apply String.eqb_eq.
  - unfold st'. rewrite cycle_change by assumption.
    rewrite filter_In, Hfires, negb_true_iff. tauto.
  - unfold st'. rewrite cycle_change by assumption.
    rewrite filter_In, Hfires, negb_true_iff. tauto.
  - intros Habsent Hfinite.
    unfold change, percentageChange, priceChange, previousClose, JS.or_else.
    rewrite Habsent. fold price. unfold JS.strict_ne.
    destruct (PrimFloat.eqb price 0%float) eqn:Hzero; simpl.
    + reflexivity.
    + now apply self_change_zero.
  - intros Hclose. unfold change, percentageChange, JS.strict_ne.
    fold close. now rewrite Hclose.
Qed.

Lemma change_trigger_witness :
  registry_ok exampleState = true
  /\ count (isChangePush "U1" "2330")
       (snd (checkAlerts exampleFeedDrop silent exampleState)) = 1
  /\ PrimFloat.eqb (percentageChange (mkStockData 100%float nan 250%float)) 0%float
     = true.
Proof.
  split; [reflexivity|]. split.
  - exact (proj1 (change_trigger exampleFeedDrop silent exampleState "U1"
                    (ChangeAlert.mk "2330" 5%float)
                    (mkStockData 94%float 100%float 1000%float)
                    eq_refl (or_introl eq_refl) eq_refl)).
  - destruct (change_trigger exampleFeed silent exampleState "U2"
                (ChangeAlert.mk "2317" 5%float)
                (mkStockData 100%float nan 250%float)
                eq_refl (or_introl eq_refl) eq_refl)
      as (_ & _ & _ & _ & Hzero & _).
    apply Hzero; reflexivity.
Defined.

(** C2, as stated, fails: the timer starts cycle [n+1] one period after
    cycle [n] began, whether or not that one has settled.  With cycles of
    61 seconds the second cycle starts while the first is still running. *)
Lemma scheduler_overlap_counterexample :
  ~ (forall (duration : nat -> Z) (n : nat),
       (cycleEnd duration n <= cycleStart (S n))%Z).
Proof.
  intros H. specialize (H (fun _ => 61000%Z) 0).
  vm_compute in H. now apply H.
Qed.

(** C2, amended -- The scheduler runs the evaluator once at startup and
    then starts a cycle every [ALERT_POLL_INTERVAL_MS], at a fixed rate:
    cycle [n+1] starts one period after cycle [n] started.  It starts
    after cycle [n] has completed exactly when cycle [n] takes no longer
    than the period; when every cycle does, no two cycles ever run at the
    same time. *)
Theorem scheduler_fixed_rate :
  cycleStart 0 = 0%Z
  /\ (forall n, cycleStart (S n) = (cycleStart n + ALERT_POLL_INTERVAL_MS)%Z)
  /\ (forall duration n,
     (cycleEnd duration n <= cycleStart (S n))%Z
     <-> (duration n <= ALERT_POLL_INTERVAL_MS)%Z)
  /\ (forall duration,
     (forall n, (duration n <= ALERT_POLL_INTERVAL_MS)%Z) ->
     forall n m time,
       runningAt duration n time = true ->
       runningAt duration m time = true ->
       n = m).
Proof.
  assert (Hnext : forall n,
    cycleStart (S n) = (cycleStart n + ALERT_POLL_INTERVAL_MS)%Z).
  { intros n. unfold cycleStart, ALERT_POLL_INTERVAL_MS. lia. }
  assert (Hmono : forall n m, n < m -> (cycleStart (S n) <= cycleStart m)%Z).
  { intros n m Hlt. unfold cycleStart, ALERT_POLL_INTERVAL_MS. lia. }
  split; [reflexivity|]. split; [exact Hnext|]. split.
  - intros duration n. rewrite Hnext. unfold cycleEnd. lia.
  - intros duration Hshort n m time Hn Hm.
    unfold runningAt, cycleEnd in Hn, Hm.
    apply andb_true_iff in Hn, Hm.
    destruct Hn as [Hn1 Hn2], Hm as [Hm1 Hm2].
    apply Z.leb_le in Hn1, Hm1. apply Z.ltb_lt in Hn2, Hm2.
    pose proof (Hshort n) as Hdn. pose proof (Hshort m) as Hdm.
    destruct (Nat.lt_trichotomy n m) as [Hlt|[Heq|Hgt]]; auto.
    + pose proof (Hmono n m Hlt) as H. rewrite Hnext in H. lia.
    + pose proof (Hmono m n Hgt) as H. rewrite Hnext in H. lia.
Qed.

Lemma scheduler_fixed_rate_witness :
  (forall n : nat, ((fun _ => 45000) n <= ALERT_POLL_INTERVAL_MS)%Z)
  /\ (forall n m time,
        runningAt (fun _ => 45000%Z) n time = true ->
        runningAt (fun _ => 45000%Z) m time = true ->
        n = m).
Proof.
  assert (Hshort : forall n : nat, ((fun _ => 45000) n <= ALERT_POLL_INTERVAL_MS)%Z).
  { intros n. unfold ALERT_POLL_INTERVAL_MS. lia. }
  split; [exact Hshort|].
  destruct scheduler_fixed_rate as (_ & _ & _ & Hdisjoint).
  exact (Hdisjoint (fun _ => 45000%Z) Hshort).
Defined.

(* ================================================================= *)
(** * Further properties of the code *)

(** ** The effects of a sweep, whatever the map *)

Lemma sweep_effects_acc {A : Type} (codeOf : A -> string) delivered stockCode
    trigger text (rest : list (string * list A)) : forall m out,
  snd (fold_left (sweepUser codeOf delivered stockCode trigger text) rest (m, out))
  = out ++ sweptEffects codeOf delivered stockCode trigger text rest.
Proof.
  induction rest as [|[userId alerts] rest IH]; intros m out; simpl.
  - now rewrite app_nil_r.
  - rewrite scan_eq, IH. unfold sweptEffects. simpl. now rewrite app_assoc.
Qed.

Lemma sweep_effects {A : Type} (codeOf : A -> string) delivered stockCode
    trigger text (m : JSMap.t (list A)) :
  snd (sweep codeOf delivered stockCode trigger text m)
  = sweptEffects codeOf delivered stockCode trigger text m.
Proof. unfold sweep, JSMap.entries. now rewrite sweep_effects_acc. Qed.

Lemma evaluate_effects delivered stockCode stockData st :
  snd (evaluate delivered stockCode stockData st)
  = sweptEffects PriceAlert.stockCode delivered stockCode
      (priceTrigger (currentPrice stockData))
      (fun alert => PriceMessage stockCode (PriceAlert.direction alert)
                      (PriceAlert.targetPrice alert) (currentPrice stockData))
      (userPriceAlerts st)
    ++ sweptEffects ChangeAlert.stockCode delivered stockCode
         (changeTrigger (percentageChange stockData))
         (fun _ => ChangeMessage stockCode (percentageChange stockData))
         (userChangeAlerts st)
    ++ sweptEffects VolumeAlert.stockCode delivered stockCode
         (volumeTrigger (historyOf stockCode st) (currentVolume stockData))
         (fun alert => VolumeMessage stockCode (currentVolume stockData)
                         (VolumeAlert.multiplier alert))
         (userVolumeAlerts st).
Proof.
  unfold evaluate.
  rewrite <- (sweep_effects PriceAlert.stockCode).
  rewrite <- (sweep_effects ChangeAlert.stockCode).
  rewrite <- (sweep_effects VolumeAlert.stockCode).
  destruct (sweep PriceAlert.stockCode _ _ _ _ _) as [prices out1].
  destruct (sweep ChangeAlert.stockCode _ _ _ _ _) as [changes out2].
  destruct (sweep VolumeAlert.stockCode _ _ _ _ _) as [volumes out3].
  reflexivity.
Qed.

(** ** Logging *)

Lemma failures_logged_nil delivered : failures_logged delivered [].
Proof. intros userId text. simpl. tauto. Qed.

Lemma failures_logged_app delivered out1 out2 :
  failures_logged delivered out1 -> failures_logged delivered out2 ->
  failures_logged delivered (out1 ++ out2).
Proof.
  intros H1 H2 userId text. rewrite !in_app_iff, (H1 userId text), (H2 userId text).
  tauto.
Qed.

Lemma failures_logged_notify delivered userId text :
  failures_logged delivered (notify delivered userId text).
Proof.
  intros u t. unfold notify.
  destruct (delivered userId text) eqn:E; simpl.
  - split.
    + intros [H|[]]. discriminate.
    + intros [[H|[]] Hd]. injection H as <- <-. congruence.
  - split.
    + intros [H|[H|[]]]; [discriminate|]. injection H as <- <-. auto.
    + intros [[H|[H|[]]] Hd]; [|discriminate]. injection H as <- <-. auto.
Qed.

Lemma failures_logged_swept {A : Type} (codeOf : A -> string) delivered stockCode
    trigger text (m : JSMap.t (list A)) :
  failures_logged delivered
    (sweptEffects codeOf delivered stockCode trigger text m).
Proof.
  unfold sweptEffects.
  induction m as [|[userId alerts] m IH]; simpl; [apply failures_logged_nil|].
  apply failures_logged_app; auto.
  unfold firedOf. clear IH.
  induction alerts as [|a alerts IH]; simpl; [apply failures_logged_nil|].
  apply failures_logged_app; auto.
  destruct (fires codeOf stockCode trigger a);
    [apply failures_logged_notify | apply failures_logged_nil].
Qed.

Lemma failures_logged_evaluate delivered stockCode stockData st :
  failures_logged delivered (snd (evaluate delivered stockCode stockData st)).
Proof.
  rewrite evaluate_effects.
  repeat apply failures_logged_app; apply failures_logged_swept.
Qed.

Lemma failures_logged_visitAll fetchStockData delivered stockCodes :
  forall st out,
  failures_logged delivered out ->
  failures_logged delivered
    (snd (visitAll fetchStockData delivered stockCodes (st, out))).
Proof.
  induction stockCodes as [|code rest IH]; intros st out Hout; auto.
  rewrite visitAll_cons. unfold visit.
  destruct (fetchStockData code) as [| |stockData].
  - apply IH. apply failures_logged_app; auto.
    intros u t. simpl. split.
    + intros [H|[]]. discriminate.
    + intros [[H|[]] _]. discriminate.
  - now apply IH.
  - pose proof (failures_logged_evaluate delivered code stockData st) as Hev.
    destruct (evaluate delivered code stockData st) as [st' fired].
    apply IH. now apply failures_logged_app.
Qed.

Lemma count_swept_none {A : Type} (codeOf : A -> string) delivered stockCode
    trigger text (m : JSMap.t (list A)) (p : effect -> bool) :
  (forall u t, p (pushMessage u t) = false) ->
  (forall u t, p (pushFailed u t) = false) ->
  count p (sweptEffects codeOf delivered stockCode trigger text m) = 0.
Proof.
  intros Hpush Hfail. apply count_sweptEffects_none; auto.
Qed.

Lemma count_fetchFailed_evaluate code delivered stockCode stockData st :
  count (isFetchFailed code) (snd (evaluate delivered stockCode stockData st)) = 0.
Proof.
  rewrite evaluate_effects, !count_app.
  now rewrite !count_swept_none.
Qed.

Lemma count_single p e : count p [e] = if p e then 1 else 0.
Proof. unfold count. simpl. now destruct (p e). Qed.

Lemma count_fetchFailed_visitAll fetchStockData delivered code stockCodes :
  forall st out,
  NoDup stockCodes ->
  count (isFetchFailed code)
    (snd (visitAll fetchStockData delivered stockCodes (st, out)))
  = count (isFetchFailed code) out
    + match fetchStockData code with
      | Rejected => if JSSet.has code stockCodes then 1 else 0
      | _ => 0
      end.
Proof.
  induction stockCodes as [|c rest IH]; intros st out Hnd.
  - simpl. destruct (fetchStockData code); lia.
  - inversion Hnd as [|? ? Hnotin Hnd']; subst.
    rewrite visitAll_cons, JSSetFacts.has_cons. unfold visit.
    pose proof (count_fetchFailed_evaluate code delivered c) as Hev.
    destruct (String.eqb_spec code c) as [->|Hne]; simpl.
    + assert (Hrest : JSSet.has c rest = false).
      { destruct (JSSet.has c rest) eqn:E; auto.
        apply JSSetFacts.has_In in E. contradiction. }
      rewrite Hrest in IH.
      destruct (fetchStockData c) as [| |stockData].
      * rewrite IH, count_app, count_single by assumption.
        simpl. rewrite String.eqb_refl. lia.
      * now rewrite IH.
      * specialize (Hev stockData st).
        destruct (evaluate delivered c stockData st) as [st' fired].
        simpl in Hev. rewrite IH, count_app, Hev by assumption. lia.
    + destruct (fetchStockData c) as [| |stockData].
      * rewrite IH, count_app, count_single by assumption. simpl.
        destruct (String.eqb_spec c code); [congruence|]. lia.
      * now rewrite IH.
      * specialize (Hev stockData st).
        destruct (evaluate delivered c stockData st) as [st' fired].
        simpl in Hev. rewrite IH, count_app, Hev by assumption. lia.
Qed.

(** ** The registry invariant through a cycle *)

Lemma registry_ok_visitAll fetchStockData delivered stockCodes : forall st out,
  registry_ok st = true ->
  registry_ok (fst (visitAll fetchStockData delivered stockCodes (st, out))) = true.
Proof.
  induction stockCodes as [|code rest IH]; intros st out Hok; auto.
  rewrite visitAll_cons. unfold visit.
  destruct (fetchStockData code) as [| |stockData]; auto.
  pose proof (registry_ok_evaluate delivered code stockData st Hok) as Hok'.
  destruct (evaluate delivered code stockData st) as [st' fired].
  now apply IH.
Qed.

Lemma registry_ok_checkAlerts fetchStockData delivered st :
  registry_ok st = true ->
  registry_ok (fst (checkAlerts fetchStockData delivered st)) = true.
Proof. apply registry_ok_visitAll. Qed.

(** ** Which codes a cycle collects *)

Lemma In_get {V : Type} (m : JSMap.t V) k v :
  NoDup (JSMap.keys m) -> In (k, v) m -> JSMap.get k m = Some v.
Proof.
  induction m as [|[k0 v0] m IH]; simpl; intros Hnd Hin; [destruct Hin|].
  inversion Hnd as [|? ? Hnotin Hnd']; subst.
  destruct Hin as [Heq|Hin].
  - injection Heq as -> ->. now rewrite String.eqb_refl.
  - destruct (String.eqb_spec k0 k) as [->|Hne]; auto.
    exfalso. apply Hnotin. unfold JSMap.keys.
    change k with (fst (k, v)). now apply in_map.
Qed.

Lemma values_listByUser {A : Type} (m : JSMap.t (list A)) alerts :
  NoDup (JSMap.keys m) -> In alerts (JSMap.values m) ->
  exists userId, listByUser userId m = alerts.
Proof.
  intros Hnd Hin. unfold JSMap.values in Hin. apply in_map_iff in Hin.
  destruct Hin as ([userId l] & Heq & Hin). simpl in Heq. subst l.
  exists userId. unfold listByUser. now rewrite (In_get m userId alerts).
Qed.

Section CodesConverse.
Context {A : Type}.
Variable codeOf : A -> string.

Lemma addCodes_inner_inv (alerts : list A) : forall s x,
  In x (fold_left (fun s a => JSSet.add (codeOf a) s) alerts s) ->
  In x s \/ exists a, In a alerts /\ codeOf a = x.
Proof.
  induction alerts as [|b alerts IH]; intros s x Hin; simpl in *; auto.
  apply IH in Hin. destruct Hin as [Hin|(a & Ha & Hx)].
  - apply JSSetFacts.In_add in Hin. destruct Hin as [->|Hin]; eauto.
  - eauto.
Qed.

Lemma addCodes_inv (m : JSMap.t (list A)) s x :
  In x (addCodes codeOf m s) ->
  In x s \/ exists alerts a,
    In alerts (JSMap.values m) /\ In a alerts /\ codeOf a = x.
Proof.
  unfold addCodes. revert s.
  induction (JSMap.values m) as [|l vs IH]; intros s Hin; simpl in *; auto.
  apply IH in Hin. destruct Hin as [Hin|(alerts & a & Hl & Ha & Hx)].
  - apply addCodes_inner_inv in Hin. destruct Hin as [Hin|(a & Ha & Hx)]; auto.
    right. exists l, a. auto.
  - right. exists alerts, a. auto.
Qed.

End CodesConverse.

(** ** The order of the codes does not matter *)

Lemma has_same_members stockCodes stockCodes' x :
  (forall c, In c stockCodes <-> In c stockCodes') ->
  JSSet.has x stockCodes = JSSet.has x stockCodes'.
Proof.
  intros Hsame.
  destruct (JSSet.has x stockCodes) eqn:E1, (JSSet.has x stockCodes') eqn:E2; auto.
  - apply JSSetFacts.has_In, Hsame, JSSetFacts.has_In in E1. congruence.
  - apply JSSetFacts.has_In, Hsame, JSSetFacts.has_In in E2. congruence.
Qed.

(** ** Multipliers and samples *)

Lemma Forall_upserted {A : Type} (P : A -> Prop) same replace fresh (alerts : list A) :
  Forall P alerts -> P fresh -> (forall a, P a -> P (replace a)) ->
  Forall P (upserted same replace fresh alerts).
Proof.
  intros Hall Hfresh Hreplace. unfold upserted.
  destruct (JS.findIndex same alerts) as [i|].
  - clear Hfresh. revert i.
    induction Hall as [|a alerts Ha Hall IH]; intros [|i]; simpl; auto.
  - apply Forall_app. split; auto.
Qed.

Lemma forallb_values_set {V : Type} (p : V -> bool) (m : JSMap.t V) k v :
  forallb p (JSMap.values m) = true -> p v = true ->
  forallb p (JSMap.values (JSMap.set k v m)) = true.
Proof.
  rewrite !forallb_forall. intros Hm Hv x Hin.
  apply values_set in Hin. destruct Hin as [->|Hin]; auto.
Qed.

Lemma forallb_listByUser {A : Type} (p : list A -> bool) (m : JSMap.t (list A)) userId :
  p [] = true -> forallb p (JSMap.values m) = true ->
  p (listByUser userId m) = true.
Proof.
  intros Hnil Hall.
  destruct (listByUser_values m userId) as [->|Hin]; auto.
  rewrite forallb_forall in Hall. auto.
Qed.

Lemma multipliers_ok_upsertVolume stockCode multiplier userId st :
  validMultiplier multiplier = true ->
  multipliers_ok st = true ->
  multipliers_ok (upsertVolume stockCode multiplier userId st) = true.
Proof.
  intros Hvalid Hok. unfold multipliers_ok, upsertVolume in *. simpl.
  rewrite upsert_eq. apply forallb_values_set; auto.
  apply forallb_forall. apply Forall_forall.
  apply Forall_upserted; auto.
  apply Forall_forall. apply forallb_forall.
  now apply (forallb_listByUser
               (forallb (fun alert => validMultiplier (VolumeAlert.multiplier alert)))).
Qed.

Lemma multipliers_ok_handleEvent fetchStockData userId cmd st :
  multipliers_ok st = true ->
  multipliers_ok (handleEvent fetchStockData userId cmd st) = true.
Proof.
  intros Hok. destruct cmd; simpl; auto.
  - destruct (fetchStockData stockCode); auto.
  - destruct (negb (is_finite multiplier) || JS.le multiplier 1%float) eqn:E; auto.
    apply multipliers_ok_upsertVolume; auto.
    apply orb_false_iff in E. destruct E as [Hfin Hle].
    apply negb_false_iff in Hfin. unfold validMultiplier.
    now rewrite Hfin, Hle.
  - unfold multipliers_ok in *. simpl.
    rewrite forallb_forall in *. intros alerts Hin. apply Hok.
    now apply values_delete in Hin.
Qed.

Lemma multipliers_ok_evaluate delivered stockCode stockData st :
  users_ok st ->
  multipliers_ok st = true ->
  multipliers_ok (fst (evaluate delivered stockCode stockData st)) = true.
Proof.
  intros Husers Hok. rewrite evaluate_eq by assumption.
  unfold multipliers_ok in *. cbn [fst userVolumeAlerts].
  rewrite forallb_forall in *. intros remaining Hin.
  apply values_sweptMap in Hin. destruct Hin as (_ & alerts & Hin & ->).
  specialize (Hok alerts Hin). rewrite forallb_forall in *.
  intros a Ha. apply filter_In in Ha. now apply Hok.
Qed.

Lemma is_nan_or_else x d :
  PrimFloat.is_nan d = false -> PrimFloat.is_nan (JS.or_else x d) = false.
Proof.
  intros Hd. unfold JS.or_else, JS.truthy.
  destruct (PrimFloat.is_nan x) eqn:E; simpl; auto.
  destruct (PrimFloat.is_zero x); simpl; auto.
Qed.

Lemma samples_ok_evaluate delivered stockCode stockData st :
  samples_ok st = true ->
  samples_ok (fst (evaluate delivered stockCode stockData st)) = true.
Proof.
  intros Hok. unfold samples_ok, evaluate in *.
  destruct (sweep PriceAlert.stockCode _ _ _ _ _) as [prices out1].
  destruct (sweep ChangeAlert.stockCode _ _ _ _ _) as [changes out2].
  destruct (sweep VolumeAlert.stockCode _ _ _ _ _) as [volumes out3].
  cbn [fst volumeHistory]. apply forallb_values_set; auto.
  rewrite appendSample_suffix. apply forallb_forall. intros sample Hin.
  assert (Hin' : In sample (historyOf stockCode st ++ [currentVolume stockData])).
  { rewrite <- (firstn_skipn
                 (length (historyOf stockCode st ++ [currentVolume stockData])
                  - VOLUME_HISTORY_LIMIT)).
    apply in_or_app. now right. }
  apply in_app_iff in Hin'. destruct Hin' as [Hold|[<-|[]]].
  - assert (Hall : forallb (fun sample => negb (PrimFloat.is_nan sample))
                     (historyOf stockCode st) = true).
    { unfold historyOf. now apply forallb_listByUser. }
    rewrite forallb_forall in Hall. auto.
  - unfold currentVolume. now rewrite is_nan_or_else.
Qed.

Lemma samples_ok_handleEvent fetchStockData userId cmd st :
  samples_ok (handleEvent fetchStockData userId cmd st) = samples_ok st.
Proof.
  destruct cmd; simpl; auto.
  - destruct (fetchStockData stockCode); auto.
  - destruct (negb (is_finite multiplier) || JS.le multiplier 1%float); auto.
Qed.

Lemma run_more_invariants trace :
  multipliers_ok (run trace) = true /\ samples_ok (run trace) = true.
Proof.
  induction trace as [|e trace IH] using rev_ind.
  - split; reflexivity.
  - rewrite run_snoc. destruct IH as (Hmult & Hsamples).
    destruct (run_invariant trace) as (Hreg & _ & _).
    destruct e as [fetchStockData userId cmd | delivered stockCode stockData]; simpl.
    + split.
      * now apply multipliers_ok_handleEvent.
      * now rewrite samples_ok_handleEvent.
    + split.
      * apply multipliers_ok_evaluate; auto. now apply registry_ok_users.
      * now apply samples_ok_evaluate.
Qed.

(** ** What an upsert does to the collection *)

Lemma upserted_spec {A : Type} (same : A -> bool) replace fresh (alerts : list A) :
  match JS.findIndex same alerts with
  | Some existingIndex =>
      length (upserted same replace fresh alerts) = length alerts
      /\ (exists old,
            nth_error alerts existingIndex = Some old /\ same old = true
            /\ nth_error (upserted same replace fresh alerts) existingIndex
               = Some (replace old))
      /\ (forall i, i <> existingIndex ->
            nth_error (upserted same replace fresh alerts) i = nth_error alerts i)
  | None =>
      upserted same replace fresh alerts = alerts ++ [fresh]
      /\ existsb same alerts = false
  end.
Proof.
  unfold upserted.
  destruct (JS.findIndex same alerts) as [i|] eqn:E.
  - apply findIndex_Some in E. destruct E as (old & Hnth & Hsame & _).
    split; [apply update_length|]. split.
    + exists old. repeat split; auto.
      now rewrite update_nth_error, Nat.eqb_refl, Hnth.
    + intros j Hne. rewrite update_nth_error.
      apply Nat.eqb_neq in Hne. now rewrite Hne.
  - split; auto. rewrite findIndex_None in E.
    destruct (existsb same alerts) eqn:Hex; auto.
    apply existsb_exists in Hex. destruct Hex as (a & Hin & Hsame).
    rewrite (E a Hin) in Hsame. discriminate.
Qed.

(** X1 -- [ALERT code CHANGE percent] keeps one change alert per
    identifier for a user: when the user's collection already has an alert
    on the identifier, the first such element gets the new threshold where
    it stands, and the length and every other element stay; otherwise, and
    only when no element is on the identifier, the new alert goes to the
    end. *)
Theorem change_upsert_by_identifier fetchStockData userId stockCode changePercent st :
  let alerts := listByUser userId (userChangeAlerts st) in
  let alerts' :=
    listByUser userId
      (userChangeAlerts
         (handleEvent fetchStockData userId (AlertChange stockCode changePercent) st)) in
  match JS.findIndex
          (fun alert => String.eqb (ChangeAlert.stockCode alert) stockCode) alerts with
  | Some existingIndex =>
      length alerts' = length alerts
      /\ nth_error alerts' existingIndex
         = Some (ChangeAlert.mk stockCode changePercent)
      /\ (forall i, i <> existingIndex -> nth_error alerts' i = nth_error alerts i)
  | None =>
      alerts' = alerts ++ [ChangeAlert.mk stockCode changePercent]
      /\ (forall alert, In alert alerts -> ChangeAlert.stockCode alert <> stockCode)
  end.
Proof.
  intros alerts alerts'.
  assert (Heq : alerts'
    = upserted (fun alert => String.eqb (ChangeAlert.stockCode alert) stockCode)
        (fun alert => ChangeAlert.mk (ChangeAlert.stockCode alert) changePercent)
        (ChangeAlert.mk stockCode changePercent) alerts).
  { unfold alerts', alerts. simpl. unfold upsertChange. simpl.
    now rewrite listByUser_upsert, String.eqb_refl. }
  rewrite Heq.
  pose proof (upserted_spec
    (fun alert => String.eqb (ChangeAlert.stockCode alert) stockCode)
    (fun alert => ChangeAlert.mk (ChangeAlert.stockCode alert) changePercent)
    (ChangeAlert.mk stockCode changePercent) alerts) as Hspec.
  destruct (JS.findIndex _ alerts) as [i|].
  - destruct Hspec as (Hlen & (old & Hold & Hsame & Hnew) & Hothers).
    repeat split; auto.
    apply String.eqb_eq in Hsame. now rewrite Hnew, Hsame.
  - destruct Hspec as (Happ & Hnone). split; auto.
    intros alert Hin Hcode.
    assert (existsb (fun alert => String.eqb (ChangeAlert.stockCode alert) stockCode)
              alerts = true); [|congruence].
    apply existsb_exists. exists alert. split; auto. now apply String.eqb_eq.
Qed.

(** X2 -- [VOL code multiplier] with a multiplier that is not finite or
    not above 1 changes nothing.  With a valid one it keeps one volume
    alert per identifier for a user: an alert already on the identifier
    gets the new multiplier where it stands, the rest staying as it is;
    otherwise the new alert goes to the end. *)
Theorem volume_upsert_by_identifier fetchStockData userId stockCode multiplier st :
  let alerts := listByUser userId (userVolumeAlerts st) in
  let st' := handleEvent fetchStockData userId (Vol stockCode multiplier) st in
  let alerts' := listByUser userId (userVolumeAlerts st') in
  if validMultiplier multiplier
  then
    match JS.findIndex
            (fun alert => String.eqb (VolumeAlert.stockCode alert) stockCode) alerts with
    | Some existingIndex =>
        length alerts' = length alerts
        /\ nth_error alerts' existingIndex
           = Some (VolumeAlert.mk stockCode multiplier)
        /\ (forall i, i <> existingIndex -> nth_error alerts' i = nth_error alerts i)
    | None =>
        alerts' = alerts ++ [VolumeAlert.mk stockCode multiplier]
        /\ (forall alert, In alert alerts -> VolumeAlert.stockCode alert <> stockCode)
    end
  else st' = st.
Proof.
  intros alerts st' alerts'. unfold alerts', st'. simpl.
  unfold validMultiplier.
  destruct (PrimFloat.is_finite multiplier); simpl; auto.
  destruct (JS.le multiplier 1%float); simpl; auto.
  unfold upsertVolume. simpl. rewrite listByUser_upsert, String.eqb_refl.
  fold alerts.
  pose proof (upserted_spec
    (fun alert => String.eqb (VolumeAlert.stockCode alert) stockCode)
    (fun alert => VolumeAlert.mk (VolumeAlert.stockCode alert) multiplier)
    (VolumeAlert.mk stockCode multiplier) alerts) as Hspec.
  destruct (JS.findIndex _ alerts) as [i|].
  - destruct Hspec as (Hlen & (old & Hold & Hsame & Hnew) & Hothers).
    repeat split; auto.
    apply String.eqb_eq in Hsame. now rewrite Hnew, Hsame.
  - destruct Hspec as (Happ & Hnone). split; auto.
    intros alert Hin Hcode.
    assert (existsb (fun alert => String.eqb (VolumeAlert.stockCode alert) stockCode)
              alerts = true); [|congruence].
    apply existsb_exists. exists alert. split; auto. now apply String.eqb_eq.
Qed.

(** X3 -- Whatever commands and evaluations have run, every volume alert
    in the registry has a finite multiplier above 1: the check in the
    [VOL] branch is the only way in, and nothing else writes a
    multiplier.  The same holds after a cycle. *)
Theorem stored_multipliers_valid trace userId :
  forallb
    (fun alert =>
       PrimFloat.is_finite (VolumeAlert.multiplier alert)
       && negb (JS.le (VolumeAlert.multiplier alert) 1%float))
    (listByUser userId (userVolumeAlerts (run trace))) = true
  /\ forall fetchStockData delivered,
     forallb
       (fun alert =>
          PrimFloat.is_finite (VolumeAlert.multiplier alert)
          && negb (JS.le (VolumeAlert.multiplier alert) 1%float))
       (listByUser userId
          (userVolumeAlerts (fst (checkAlerts fetchStockData delivered (run trace)))))
     = true.
Proof.
  assert (Hrun : forall trace',
    forallb (fun alert => validMultiplier (VolumeAlert.multiplier alert))
      (listByUser userId (userVolumeAlerts (run trace'))) = true).
  { intros trace'. destruct (run_more_invariants trace') as (Hmult & _).
    now apply (forallb_listByUser
                 (forallb (fun alert => validMultiplier (VolumeAlert.multiplier alert)))). }
  split; [apply Hrun|].
  intros fetchStockData delivered.
  destruct (checkAlerts_run fetchStockData delivered trace) as [evaluations ->].
  apply Hrun.
Qed.

Lemma In_upserted {A : Type} (same : A -> bool) replace fresh (alerts : list A) :
  (forall old, same old = true -> replace old = fresh) ->
  In fresh (upserted same replace fresh alerts).
Proof.
  intros Hreplace.
  pose proof (upserted_spec same replace fresh alerts) as Hspec.
  destruct (JS.findIndex same alerts) as [i|].
  - destruct Hspec as (_ & (old & _ & Hsame & Hnew) & _).
    rewrite (Hreplace old Hsame) in Hnew. now apply nth_error_In in Hnew.
  - destruct Hspec as (-> & _). apply in_or_app. right. now left.
Qed.

Lemma In_upsertPrice stockCode dir targetPrice userId st :
  In (PriceAlert.mk stockCode dir targetPrice)
    (listByUser userId
       (userPriceAlerts (upsertPrice stockCode dir targetPrice userId st))).
Proof.
  unfold upsertPrice. simpl. rewrite listByUser_upsert, String.eqb_refl.
  apply In_upserted. intros [c d t] Hsame.
  unfold samePriceKey in Hsame. simpl in Hsame.
  apply andb_true_iff in Hsame. destruct Hsame as [Hc Hd].
  apply String.eqb_eq in Hc. apply direction_eqb_eq in Hd. simpl. now subst.
Qed.

Lemma NoDup_map_inj {A K : Type} (key : A -> K) (l : list A) a b :
  NoDup (map key l) -> In a l -> In b l -> key a = key b -> a = b.
Proof.
  induction l as [|x l IH]; simpl; intros Hnd Ha Hb Hkey; [destruct Ha|].
  inversion Hnd as [|? ? Hnotin Hnd']; subst.
  destruct Ha as [->|Ha], Hb as [->|Hb]; auto.
  - exfalso. apply Hnotin. rewrite Hkey. now apply in_map.
  - exfalso. apply Hnotin. rewrite <- Hkey. now apply in_map.
Qed.

(** X4 -- The simple form [ALERT code price].  When the quote cannot be
    fetched the registry stays as it is.  Otherwise the command acts as
    the directed one with ABOVE when the current price is at most the
    target and BELOW when it is not, and the alert it stores does not fire
    on the very snapshot it was made from unless the price is both at most
    and at least the target: a next cycle that fetches the same snapshot
    leaves it in place. *)
Theorem simple_alert_direction fetchStockData delivered userId stockCode targetPrice st :
  registry_ok st = true ->
  let st1 := handleEvent fetchStockData userId (AlertSimple stockCode targetPrice) st in
  match fetchStockData stockCode with
  | Data stockData =>
      let price := currentPrice stockData in
      let dir := if JS.le price targetPrice then ABOVE else BELOW in
      let alert := PriceAlert.mk stockCode dir targetPrice in
      st1 = handleEvent fetchStockData userId
              (AlertDirected stockCode dir targetPrice) st
      /\ In alert (listByUser userId (userPriceAlerts st1))
      /\ priceTrigger price alert = JS.le price targetPrice && JS.ge price targetPrice
      /\ (JS.le price targetPrice && JS.ge price targetPrice = false ->
          In alert
            (listByUser userId
               (userPriceAlerts (fst (checkAlerts fetchStockData delivered st1)))))
  | _ => st1 = st
  end.
Proof.
  intros Hreg st1. unfold st1. simpl.
  destruct (fetchStockData stockCode) as [| |stockData] eqn:Hfetch; auto.
  set (price := currentPrice stockData).
  set (dir := if JS.le price targetPrice then ABOVE else BELOW).
  set (alert := PriceAlert.mk stockCode dir targetPrice).
  assert (Htrig : priceTrigger price alert
                  = JS.le price targetPrice && JS.ge price targetPrice).
  { unfold priceTrigger, alert, dir. simpl.
    destruct (JS.le price targetPrice) eqn:Hle; simpl.
    - now rewrite orb_false_r.
    - reflexivity. }
  split; [reflexivity|]. split; [apply In_upsertPrice|]. split; [exact Htrig|].
  intros Hnot.
  assert (Hreg1 : registry_ok (upsertPrice stockCode dir targetPrice userId st) = true).
  { exact (registry_ok_handleEvent fetchStockData userId
             (AlertDirected stockCode dir targetPrice) st Hreg). }
  rewrite cycle_price by now apply registry_ok_users.
  apply filter_In. split; [apply In_upsertPrice|].
  unfold priceFires. simpl. rewrite Hfetch. fold price.
  change (negb (priceTrigger price alert) = true).
  now rewrite Htrig, Hnot.
Qed.

Lemma simple_alert_direction_witness :
  registry_ok exampleState = true
  /\ In (PriceAlert.mk "2330" ABOVE 700%float)
       (listByUser "U2"
          (userPriceAlerts
             (fst (checkAlerts exampleFeed silent
                     (handleEvent exampleFeed "U2" (AlertSimple "2330" 700%float)
                        exampleState))))).
Proof.
  split; [reflexivity|].
  destruct (simple_alert_direction exampleFeed silent "U2" "2330" 700%float
              exampleState eq_refl) as (_ & _ & _ & Hkept).
  apply Hkept. reflexivity.
Defined.

(** X5 -- What a command leaves alone.  A command from one user changes
    no other user's collection of any kind, and no command changes the
    volume history.  Setting an alert of one kind leaves the maps of the
    other kinds as they are; [ALERT CLEAR] leaves the volume alerts and
    [VOL CLEAR] the price and change alerts; the list commands and
    anything unmatched leave the whole state. *)
Theorem command_frame fetchStockData userId cmd st :
  let st' := handleEvent fetchStockData userId cmd st in
  (forall other, other <> userId ->
     listByUser other (userPriceAlerts st') = listByUser other (userPriceAlerts st)
     /\ listByUser other (userVolumeAlerts st') = listByUser other (userVolumeAlerts st)
     /\ listByUser other (userChangeAlerts st') = listByUser other (userChangeAlerts st))
  /\ volumeHistory st' = volumeHistory st
  /\ match cmd with
     | AlertDirected _ _ _ | AlertSimple _ _ =>
         userVolumeAlerts st' = userVolumeAlerts st
         /\ userChangeAlerts st' = userChangeAlerts st
     | AlertChange _ _ =>
         userPriceAlerts st' = userPriceAlerts st
         /\ userVolumeAlerts st' = userVolumeAlerts st
     | AlertClear =>
         userVolumeAlerts st' = userVolumeAlerts st
         /\ listByUser userId (userPriceAlerts st') = []
         /\ listByUser userId (userChangeAlerts st') = []
     | Vol _ _ =>
         userPriceAlerts st' = userPriceAlerts st
         /\ userChangeAlerts st' = userChangeAlerts st
     | VolClear =>
         userPriceAlerts st' = userPriceAlerts st
         /\ userChangeAlerts st' = userChangeAlerts st
         /\ listByUser userId (userVolumeAlerts st') = []
     | AlertList | VolList | Other => st' = st
     end.
Proof.
  intros st'. unfold st'.
  assert (Hdelete : forall (A : Type) (m : JSMap.t (list A)) other,
    other <> userId ->
    listByUser other (JSMap.delete userId m) = listByUser other m).
  { intros A m other Hne. unfold listByUser.
    rewrite JSMapFacts.get_delete_other; auto. }
  assert (Hcleared : forall (A : Type) (m : JSMap.t (list A)),
    listByUser userId (JSMap.delete userId m) = []).
  { intros A m. unfold listByUser. now rewrite JSMapFacts.get_delete_same. }
  assert (Hupsert : forall (A : Type) same replace fresh (m : JSMap.t (list A)) other,
    other <> userId ->
    listByUser other (upsert same replace fresh m userId) = listByUser other m).
  { intros A same replace fresh m other Hne. rewrite listByUser_upsert.
    destruct (String.eqb_spec userId other); [congruence | reflexivity]. }
  destruct cmd; simpl;
    try destruct (fetchStockData stockCode);
    try destruct (negb (is_finite multiplier) || JS.le multiplier 1%float);
    simpl; repeat split; auto.
Qed.

Lemma command_frame_witness :
  "U2"%string <> "U1"%string
  /\ listByUser "U2"
       (userPriceAlerts (handleEvent noFeed "U1" AlertClear exampleState))
     = [PriceAlert.mk "2330" BELOW 500%float].
Proof.
  assert (Hne : "U2"%string <> "U1"%string) by discriminate.
  split; [exact Hne|].
  destruct (command_frame noFeed "U1" AlertClear exampleState) as (Hothers & _).
  destruct (Hothers "U2"%string Hne) as (Hprice & _).
  rewrite Hprice. reflexivity.
Defined.

(** X6 -- Set, then look up.  After [ALERT code ABOVE|BELOW price] the
    user's collection holds the alert with that target, it is the only alert
    of the collection with that identifier and direction, and the registry
    still has no duplicate key. *)
Theorem price_upsert_lookup fetchStockData userId stockCode dir targetPrice st :
  registry_ok st = true ->
  let st' :=
    handleEvent fetchStockData userId (AlertDirected stockCode dir targetPrice) st in
  let alerts' := listByUser userId (userPriceAlerts st') in
  In (PriceAlert.mk stockCode dir targetPrice) alerts'
  /\ (forall alert, In alert alerts' ->
        PriceAlert.stockCode alert = stockCode ->
        PriceAlert.direction alert = dir ->
        alert = PriceAlert.mk stockCode dir targetPrice)
  /\ length (filter (samePriceKey stockCode dir) alerts') = 1
  /\ registry_ok st' = true.
Proof.
  intros Hreg st' alerts'.
  assert (Hreg' : registry_ok st' = true) by now apply registry_ok_handleEvent.
  assert (Hin : In (PriceAlert.mk stockCode dir targetPrice) alerts')
    by apply In_upsertPrice.
  pose proof (registry_ok_price st' userId Hreg') as Hnd. fold alerts' in Hnd.
  split; [exact Hin|]. split; [|split; [|exact Hreg']].
  - intros alert Halert Hcode Hdir.
    apply (NoDup_map_inj priceKey alerts'); auto.
    unfold priceKey. simpl. now rewrite Hcode, Hdir.
  - rewrite <- (length_filter_key priceKey (samePriceKey stockCode dir)
                  (fun _ => true) alerts' (PriceAlert.mk stockCode dir targetPrice)
                  Hnd Hin).
    + f_equal.
    + intros b. apply samePriceKey_key.
Qed.

Lemma price_upsert_lookup_witness :
  registry_ok exampleState = true
  /\ In (PriceAlert.mk "2330" ABOVE 700%float)
       (listByUser "U1"
          (userPriceAlerts
             (handleEvent noFeed "U1" (AlertDirected "2330" ABOVE 700%float)
                exampleState))).
Proof.
  split; [reflexivity|].
  exact (proj1 (price_upsert_lookup noFeed "U1" "2330" ABOVE 700%float
                  exampleState eq_refl)).
Defined.

(** X7 -- No duplicates, ever.  In every state reached by commands and
    evaluations, and after a cycle from such a state, each map has each
    user once, no user has two price alerts with one identifier and
    direction, and no user has two change alerts or two volume alerts on
    one identifier. *)
Theorem registry_never_duplicates trace :
  let ok st :=
    NoDup (JSMap.keys (userPriceAlerts st))
    /\ NoDup (JSMap.keys (userVolumeAlerts st))
    /\ NoDup (JSMap.keys (userChangeAlerts st))
    /\ forall userId,
       NoDup (map priceKey (listByUser userId (userPriceAlerts st)))
       /\ NoDup (map VolumeAlert.stockCode (listByUser userId (userVolumeAlerts st)))
       /\ NoDup (map ChangeAlert.stockCode (listByUser userId (userChangeAlerts st))) in
  ok (run trace)
  /\ forall fetchStockData delivered,
     ok (fst (checkAlerts fetchStockData delivered (run trace))).
Proof.
  assert (Hok : forall st, registry_ok st = true ->
    NoDup (JSMap.keys (userPriceAlerts st))
    /\ NoDup (JSMap.keys (userVolumeAlerts st))
    /\ NoDup (JSMap.keys (userChangeAlerts st))
    /\ forall userId,
       NoDup (map priceKey (listByUser userId (userPriceAlerts st)))
       /\ NoDup (map VolumeAlert.stockCode (listByUser userId (userVolumeAlerts st)))
       /\ NoDup (map ChangeAlert.stockCode (listByUser userId (userChangeAlerts st)))).
  { intros st Hreg. destruct (registry_ok_users st Hreg) as (Hp & Hv & Hc).
    repeat split; auto using registry_ok_price, registry_ok_volume, registry_ok_change. }
  destruct (run_invariant trace) as (Hreg & _ & _).
  split.
  - now apply Hok.
  - intros fetchStockData delivered. apply Hok. now apply registry_ok_checkAlerts.
Qed.

(** X8 -- The codes a cycle fetches.  [checkAlerts] collects each code
    once, and a code is collected exactly when some user has a price, a
    volume or a change alert on it: one fetch serves all the alerts on an
    identifier, and nothing is fetched that nobody watches. *)
Theorem codes_collected st :
  registry_ok st = true ->
  NoDup (collectCodes st)
  /\ forall stockCode,
     In stockCode (collectCodes st)
     <-> (exists userId alert,
            In alert (listByUser userId (userPriceAlerts st))
            /\ PriceAlert.stockCode alert = stockCode)
         \/ (exists userId alert,
            In alert (listByUser userId (userVolumeAlerts st))
            /\ VolumeAlert.stockCode alert = stockCode)
         \/ (exists userId alert,
            In alert (listByUser userId (userChangeAlerts st))
            /\ ChangeAlert.stockCode alert = stockCode).
Proof.
  intros Hreg. destruct (registry_ok_users st Hreg) as (Hp & Hv & Hc).
  split; [apply collectCodes_NoDup|].
  intros stockCode. split.
  - unfold collectCodes. intros Hin.
    apply addCodes_inv in Hin. destruct Hin as [Hin|(alerts & a & Hl & Ha & Hx)].
    + apply addCodes_inv in Hin. destruct Hin as [Hin|(alerts & a & Hl & Ha & Hx)].
      * apply addCodes_inv in Hin.
        destruct Hin as [[]|(alerts & a & Hl & Ha & Hx)].
        left. destruct (values_listByUser _ alerts Hp Hl) as [userId <-].
        now exists userId, a.
      * right. left. destruct (values_listByUser _ alerts Hv Hl) as [userId <-].
        now exists userId, a.
    + right. right. destruct (values_listByUser _ alerts Hc Hl) as [userId <-].
      now exists userId, a.
  - intros [(userId & a & Hin & <-)|[(userId & a & Hin & <-)|(userId & a & Hin & <-)]];
      apply JSSetFacts.has_In.
    + now apply (collectCodes_price st userId).
    + now apply (collectCodes_volume st userId).
    + now apply (collectCodes_change st userId).
Qed.

Lemma codes_collected_witness :
  registry_ok exampleState = true
  /\ In "2454"%string (collectCodes exampleState)
  /\ ~ In "3008"%string (collectCodes exampleState).
Proof.
  split; [reflexivity|].
  destruct (codes_collected exampleState eq_refl) as (_ & Hiff).
  split.
  - apply Hiff. left.
    exists "U1"%string, (PriceAlert.mk "2454" ABOVE 1000%float).
    split; [simpl; auto | reflexivity].
  - simpl. intros [H|[H|[H|[]]]]; discriminate.
Defined.

(** X9 -- What a cycle does to the histories.  The history of an
    identifier gets the fetched volume appended, once, when some alert
    watches the identifier and the fetch gave a snapshot; in every other
    case -- nobody watches it, the fetch threw or gave nothing -- the
    history is what it was. *)
Theorem cycle_history fetchStockData delivered st stockCode :
  historyOf stockCode (fst (checkAlerts fetchStockData delivered st))
  = match fetchStockData stockCode with
    | Data stockData =>
        if JSSet.has stockCode (collectCodes st)
        then appendSample (historyOf stockCode st) (currentVolume stockData)
        else historyOf stockCode st
    | _ => historyOf stockCode st
    end.
Proof.
  unfold checkAlerts. apply visitAll_history. apply collectCodes_NoDup.
Qed.

(** X10 -- One shot.  When a cycle is followed by another one that gets
    the same answers from the feed, the second cycle pushes nothing about
    any price or change alert and leaves the price and change collections
    as the first one left them: what could fire has fired and is gone. *)
Theorem second_cycle_is_quiet fetchStockData delivered delivered' st userId stockCode :
  registry_ok st = true ->
  let st1 := fst (checkAlerts fetchStockData delivered st) in
  let st2 := fst (checkAlerts fetchStockData delivered' st1) in
  let out2 := snd (checkAlerts fetchStockData delivered' st1) in
  (forall dir, count (isPricePush userId stockCode dir) out2 = 0)
  /\ count (isChangePush userId stockCode) out2 = 0
  /\ listByUser userId (userPriceAlerts st2) = listByUser userId (userPriceAlerts st1)
  /\ listByUser userId (userChangeAlerts st2) = listByUser userId (userChangeAlerts st1).
Proof.
  intros Hreg st1 st2 out2.
  pose proof (registry_ok_users st Hreg) as Hok.
  assert (Hok1 : users_ok st1).
  { apply registry_ok_users. now apply registry_ok_checkAlerts. }
  assert (Hprice : forall a, In a (listByUser userId (userPriceAlerts st1)) ->
            priceFires fetchStockData a = false).
  { intros a. unfold st1. rewrite cycle_price by assumption.
    rewrite filter_In, negb_true_iff. tauto. }
  assert (Hchange : forall a, In a (listByUser userId (userChangeAlerts st1)) ->
            changeFires fetchStockData a = false).
  { intros a. unfold st1. rewrite cycle_change by assumption.
    rewrite filter_In, negb_true_iff. tauto. }
  unfold st2, out2. split; [|split; [|split]].
  - intros dir. rewrite cycle_price_count by assumption.
    apply length_filter_false. intros a Ha. now rewrite Hprice.
  - rewrite cycle_change_count by assumption.
    apply length_filter_false. intros a Ha. now rewrite Hchange.
  - rewrite cycle_price by assumption. apply forallb_filter_id.
    apply forallb_forall. intros a Ha. now rewrite Hprice.
  - rewrite cycle_change by assumption. apply forallb_filter_id.
    apply forallb_forall. intros a Ha. now rewrite Hchange.
Qed.

Lemma second_cycle_is_quiet_witness :
  registry_ok exampleState = true
  /\ count (isPricePush "U1" "2330" ABOVE)
       (snd (checkAlerts exampleFeed silent
               (fst (checkAlerts exampleFeed silent exampleState)))) = 0.
Proof.
  split; [reflexivity|].
  destruct (second_cycle_is_quiet exampleFeed silent silent exampleState
              "U1" "2330" eq_refl) as (Hprice & _).
  apply Hprice.
Defined.

(** X11 -- A cycle deletes and does nothing else to a collection: what a
    user has after the cycle is what the user had before with the fired
    alerts taken out, the others in the order they were in. *)
Theorem cycle_keeps_order fetchStockData delivered st userId :
  registry_ok st = true ->
  let st' := fst (checkAlerts fetchStockData delivered st) in
  listByUser userId (userPriceAlerts st')
    = filter (fun a => negb (priceFires fetchStockData a))
        (listByUser userId (userPriceAlerts st))
  /\ listByUser userId (userChangeAlerts st')
    = filter (fun a => negb (changeFires fetchStockData a))
        (listByUser userId (userChangeAlerts st))
  /\ listByUser userId (userVolumeAlerts st')
    = filter (fun a => negb (volumeFires fetchStockData st a))
        (listByUser userId (userVolumeAlerts st)).
Proof.
  intros Hreg st'. pose proof (registry_ok_users st Hreg) as Hok. unfold st'.
  now rewrite cycle_price, cycle_change, cycle_volume.
Qed.

Lemma cycle_keeps_order_witness :
  registry_ok exampleState = true
  /\ listByUser "U1"
       (userPriceAlerts (fst (checkAlerts exampleFeed silent exampleState)))
     = [PriceAlert.mk "2454" ABOVE 1000%float].
Proof.
  split; [reflexivity|].
  destruct (cycle_keeps_order exampleFeed silent exampleState "U1" eq_refl)
    as (Hprice & _).
  rewrite Hprice. reflexivity.
Defined.

(** X12 -- The log of failed fetches.  A cycle logs a fetch failure for
    an identifier exactly once when some alert watches the identifier and
    the request threw, and never otherwise: a fetch that gave nothing is
    skipped without a line. *)
Theorem fetch_failures_logged fetchStockData delivered st stockCode :
  count (isFetchFailed stockCode) (snd (checkAlerts fetchStockData delivered st))
  = match fetchStockData stockCode with
    | Rejected => if JSSet.has stockCode (collectCodes st) then 1 else 0
    | _ => 0
    end.
Proof.
  unfold checkAlerts.
  now rewrite count_fetchFailed_visitAll by apply collectCodes_NoDup.
Qed.

(** X13 -- The log of failed pushes.  Among the effects of a cycle, a
    push is logged as failed exactly when it was dispatched and its
    delivery was rejected; so with every delivery fulfilled no failure is
    logged, and a failure is never logged for a push that was not made. *)
Theorem delivery_failures_logged fetchStockData delivered st userId text :
  let out := snd (checkAlerts fetchStockData delivered st) in
  (In (pushFailed userId text) out
   <-> In (pushMessage userId text) out /\ delivered userId text = false)
  /\ ~ In (pushFailed userId text)
         (snd (checkAlerts fetchStockData (fun _ _ => true) st)).
Proof.
  intros out. split.
  - unfold out, checkAlerts.
    apply (failures_logged_visitAll fetchStockData delivered).
    apply failures_logged_nil.
  - intros Hin. unfold checkAlerts in Hin.
    apply (failures_logged_visitAll fetchStockData (fun _ _ => true)) in Hin.
    + destruct Hin as [_ Hd]. discriminate.
    + apply failures_logged_nil.
Qed.

(** X14 -- No [NaN] gets in.  The price, the previous close and the
    volume the evaluator derives from a snapshot are never [NaN], whatever
    the fields read as; and in every state the program reaches, and after
    every cycle from one, no history holds a [NaN]. *)
Theorem no_nan_samples :
  (forall stockData,
     PrimFloat.is_nan (currentPrice stockData) = false
     /\ PrimFloat.is_nan (previousClose stockData) = false
     /\ PrimFloat.is_nan (currentVolume stockData) = false)
  /\ (forall trace stockCode,
     forallb (fun sample => negb (PrimFloat.is_nan sample))
       (historyOf stockCode (run trace)) = true)
  /\ (forall trace fetchStockData delivered stockCode,
     forallb (fun sample => negb (PrimFloat.is_nan sample))
       (historyOf stockCode (fst (checkAlerts fetchStockData delivered (run trace))))
     = true).
Proof.
  assert (Hrun : forall trace stockCode,
    forallb (fun sample => negb (PrimFloat.is_nan sample))
      (historyOf stockCode (run trace)) = true).
  { intros trace stockCode. destruct (run_more_invariants trace) as (_ & Hsamples).
    unfold historyOf. now apply forallb_listByUser. }
  split; [|split; [exact Hrun|]].
  - intros stockData.
    assert (Hprice : PrimFloat.is_nan (currentPrice stockData) = false).
    { unfold currentPrice. now apply is_nan_or_else. }
    repeat split; auto.
    + unfold previousClose. now apply is_nan_or_else.
    + unfold currentVolume. now apply is_nan_or_else.
  - intros trace fetchStockData delivered stockCode.
    destruct (checkAlerts_run fetchStockData delivered trace) as [evaluations ->].
    apply Hrun.
Qed.

(** ** Start-up *)

Lemma loaded_Some env config :
  loaded env = Some config ->
  CHANNEL_ACCESS_TOKEN env = Some (channelAccessToken config)
  /\ CHANNEL_SECRET env = Some (channelSecret config)
  /\ channelAccessToken config <> ""%string
  /\ channelSecret config <> ""%string.
Proof.
  unfold loaded.
  destruct (CHANNEL_ACCESS_TOKEN env) as [token|]; [|discriminate].
  destruct (CHANNEL_SECRET env) as [secret|]; [|discriminate].
  destruct (String.eqb_spec token ""); simpl; [discriminate|].
  destruct (String.eqb_spec secret ""); simpl; [discriminate|].
  intros H. injection H as <-. simpl. auto.
Qed.

Lemma tryFrom_spec env remaining : forall iTryCount,
  match tryFrom env iTryCount remaining with
  | (Some config, waits) =>
      waits < remaining
      /\ loaded (env (iTryCount + waits)) = Some config
      /\ forall j, j < waits -> loaded (env (iTryCount + j)) = None
  | (None, waits) =>
      waits = remaining
      /\ forall j, j < remaining -> loaded (env (iTryCount + j)) = None
  end.
Proof.
  induction remaining as [|remaining IH]; intros iTryCount; simpl.
  - split; auto. intros j Hj. lia.
  - destruct (loaded (env iTryCount)) as [config|] eqn:Hnow.
    + repeat split; [lia | now rewrite Nat.add_0_r | intros j Hj; lia].
    + specialize (IH (S iTryCount)).
      destruct (tryFrom env (S iTryCount) remaining) as [[config|] waits].
      * destruct IH as (Hlt & Hthen & Hbefore). repeat split; [lia | |].
        -- now rewrite Nat.add_succ_r.
        -- intros [|j] Hj; [now rewrite Nat.add_0_r|].
           rewrite Nat.add_succ_r. apply (Hbefore j). lia.
      * destruct IH as (-> & Hall). split; auto.
        intros [|j] Hj; [now rewrite Nat.add_0_r|].
        rewrite Nat.add_succ_r. apply (Hall j). lia.
Qed.

(** X15 -- [startBot] returns at the first try, of ten, that finds both
    variables defined and not empty, with those values, having waited two
    seconds after each earlier try; when no try finds them it throws, and
    only after a tenth wait, twenty seconds in all. *)
Theorem startBot_first_success env :
  match startBot env with
  | (Some config, waits) =>
      waits < 10
      /\ CHANNEL_ACCESS_TOKEN (env waits) = Some (channelAccessToken config)
      /\ CHANNEL_SECRET (env waits) = Some (channelSecret config)
      /\ channelAccessToken config <> ""%string
      /\ channelSecret config <> ""%string
      /\ forall j, j < waits -> loaded (env j) = None
  | (None, waits) =>
      (Z.of_nat waits * START_WAIT_MS = 20000)%Z
      /\ forall j, j < 10 -> loaded (env j) = None
  end.
Proof.
  unfold startBot. pose proof (tryFrom_spec env START_TRIES 0) as Hspec.
  destruct (tryFrom env 0 START_TRIES) as [[config|] waits]; simpl in Hspec.
  - destruct Hspec as (Hlt & Hthen & Hbefore).
    apply loaded_Some in Hthen. destruct Hthen as (Htoken & Hsecret & Hne1 & Hne2).
    repeat split; auto.
  - destruct Hspec as (-> & Hall). split; [reflexivity | exact Hall].
Qed.

(** X16 -- Set, then evaluate.  After [ALERT code ABOVE|BELOW price], a
    cycle that gets a snapshot for the identifier decides the alert by the
    new target alone: it pushes once and removes the alert when the test
    holds on the snapshot, and keeps it without a push when it does not,
    whatever target an earlier alert with that identifier and direction
    had. *)
Theorem set_then_cycle fetchStockData fetchStockData' delivered
    userId stockCode dir targetPrice stockData st :
  registry_ok st = true ->
  fetchStockData' stockCode = Data stockData ->
  let st1 :=
    handleEvent fetchStockData userId (AlertDirected stockCode dir targetPrice) st in
  let alert := PriceAlert.mk stockCode dir targetPrice in
  let fired := priceTrigger (currentPrice stockData) alert in
  count (isPricePush userId stockCode dir)
    (snd (checkAlerts fetchStockData' delivered st1))
    = (if fired then 1 else 0)
  /\ (In alert
        (listByUser userId
           (userPriceAlerts (fst (checkAlerts fetchStockData' delivered st1))))
      <-> fired = false).
Proof.
  intros Hreg Hfetch st1 alert fired.
  assert (Hreg1 : registry_ok st1 = true) by now apply registry_ok_handleEvent.
  pose proof (registry_ok_users st1 Hreg1) as Hok1.
  assert (Hin : In alert (listByUser userId (userPriceAlerts st1)))
    by apply In_upsertPrice.
  assert (Hfires : priceFires fetchStockData' alert = fired).
  { unfold priceFires. simpl. now rewrite Hfetch. }
  split.
  - rewrite cycle_price_count by assumption.
    rewrite (length_filter_key priceKey _ _ _ alert), Hfires;
      auto using registry_ok_price.
    intros b. apply samePriceKey_key.
  - rewrite cycle_price by assumption.
    rewrite filter_In, Hfires, negb_true_iff. tauto.
Qed.

Lemma set_then_cycle_witness :
  registry_ok exampleState = true
  /\ exampleFeed "2330" = Data (mkStockData 650%float 600%float 1000%float)
  /\ count (isPricePush "U1" "2330" ABOVE)
       (snd (checkAlerts exampleFeed silent
               (handleEvent noFeed "U1" (AlertDirected "2330" ABOVE 700%float)
                  exampleState))) = 0.
Proof.
  split; [reflexivity|]. split; [reflexivity|].
  exact (proj1 (set_then_cycle noFeed exampleFeed silent "U1" "2330" ABOVE 700%float
                  (mkStockData 650%float 600%float 1000%float) exampleState
                  eq_refl eq_refl)).
Defined.

(** X17 -- The order in which the loop of [checkAlerts] meets the codes
    does not matter: two runs of the loop over the same codes, each once,
    in different orders leave every user the same collections and every
    identifier the same history. *)
Theorem visit_order_irrelevant fetchStockData delivered st stockCodes stockCodes' :
  registry_ok st = true ->
  NoDup stockCodes -> NoDup stockCodes' ->
  (forall code, In code stockCodes <-> In code stockCodes') ->
  let st1 := fst (visitAll fetchStockData delivered stockCodes (st, [])) in
  let st2 := fst (visitAll fetchStockData delivered stockCodes' (st, [])) in
  (forall userId,
     listByUser userId (userPriceAlerts st1) = listByUser userId (userPriceAlerts st2)
     /\ listByUser userId (userVolumeAlerts st1)
        = listByUser userId (userVolumeAlerts st2)
     /\ listByUser userId (userChangeAlerts st1)
        = listByUser userId (userChangeAlerts st2))
  /\ forall code, historyOf code st1 = historyOf code st2.
Proof.
  intros Hreg Hnd Hnd' Hsame st1 st2.
  pose proof (registry_ok_users st Hreg) as Hok. unfold st1, st2.
  split.
  - intros userId. split; [|split].
    + rewrite !(visitAll_listByUser PriceAlert.stockCode userPriceAlerts
                  (fun _ _ stockData => priceTrigger (currentPrice stockData)));
        auto using price_evaluate; try (intros st' (Hp & _); exact Hp).
      apply filter_ext. intros a.
      now rewrite (has_same_members stockCodes stockCodes').
    + rewrite !(visitAll_listByUser VolumeAlert.stockCode userVolumeAlerts
                  (fun st code stockData =>
                     volumeTrigger (historyOf code st) (currentVolume stockData)));
        auto using volume_evaluate, volumeTrigger_frame;
        try (intros st' (_ & Hv & _); exact Hv).
      apply filter_ext. intros a.
      now rewrite (has_same_members stockCodes stockCodes').
    + rewrite !(visitAll_listByUser ChangeAlert.stockCode userChangeAlerts
                  (fun _ _ stockData => changeTrigger (percentageChange stockData)));
        auto using change_evaluate; try (intros st' (_ & _ & Hc); exact Hc).
      apply filter_ext. intros a.
      now rewrite (has_same_members stockCodes stockCodes').
  - intros code. rewrite !visitAll_history by assumption.
    now rewrite (has_same_members stockCodes stockCodes').
Qed.

Lemma visit_order_irrelevant_witness :
  registry_ok exampleState = true
  /\ NoDup ["2330"; "2317"]%string /\ NoDup ["2317"; "2330"]%string
  /\ historyOf "2317"
       (fst (visitAll exampleFeed silent ["2330"; "2317"]%string (exampleState, [])))
     = historyOf "2317"
         (fst (visitAll exampleFeed silent ["2317"; "2330"]%string (exampleState, []))).
Proof.
  assert (Hnd : NoDup ["2330"; "2317"]%string).
  { repeat constructor; simpl; intuition discriminate. }
  assert (Hnd' : NoDup ["2317"; "2330"]%string).
  { repeat constructor; simpl; intuition discriminate. }
  split; [reflexivity|]. split; [exact Hnd|]. split; [exact Hnd'|].
  destruct (visit_order_irrelevant exampleFeed silent exampleState
              ["2330"; "2317"]%string ["2317"; "2330"]%string eq_refl Hnd Hnd')
    as (_ & Hhistory).
  - intros code. simpl. tauto.
  - apply Hhistory.
Defined.

(** ** Commands, seen from one user *)

Lemma listByUser_delete {A : Type} (m : JSMap.t (list A)) userId other :
  listByUser other (JSMap.delete userId m)
  = if String.eqb userId other then [] else listByUser other m.
Proof.
  unfold listByUser. destruct (String.eqb_spec userId other) as [->|Hne].
  - now rewrite JSMapFacts.get_delete_same.
  - now rewrite JSMapFacts.get_delete_other.
Qed.

Lemma handleEvent_listByUser fetchStockData userId cmd st other :
  let st' := handleEvent fetchStockData userId cmd st in
  listByUser other (userPriceAlerts st')
    = (if String.eqb userId other
       then ownPrice fetchStockData cmd (listByUser userId (userPriceAlerts st))
       else listByUser other (userPriceAlerts st))
  /\ listByUser other (userVolumeAlerts st')
    = (if String.eqb userId other
       then ownVolume cmd (listByUser userId (userVolumeAlerts st))
       else listByUser other (userVolumeAlerts st))
  /\ listByUser other (userChangeAlerts st')
    = (if String.eqb userId other
       then ownChange cmd (listByUser userId (userChangeAlerts st))
       else listByUser other (userChangeAlerts st)).
Proof.
  intros st'. unfold st'.
  assert (Hsame : forall (A : Type) (m : JSMap.t (list A)),
    listByUser other m
    = if String.eqb userId other then listByUser userId m else listByUser other m).
  { intros A m. destruct (String.eqb_spec userId other) as [->|]; reflexivity. }
  destruct cmd; simpl;
    try destruct (fetchStockData stockCode);
    unfold validMultiplier;
    try (destruct (is_finite multiplier); simpl);
    try (destruct (JS.le multiplier 1%float); simpl);
    unfold upsertPrice, upsertChange, upsertVolume; simpl;
    rewrite ?listByUser_upsert, ?listByUser_delete;
    repeat split; auto.
Qed.

Lemma volumeHistory_handleEvent fetchStockData userId cmd st :
  volumeHistory (handleEvent fetchStockData userId cmd st) = volumeHistory st.
Proof.
  destruct cmd; simpl; auto.
  - destruct (fetchStockData stockCode); auto.
  - destruct (negb (is_finite multiplier) || JS.le multiplier 1%float); auto.
Qed.

(** X19 -- Commands of different users do not interfere: served in either
    order they leave every user the same collections of each kind, and the
    same histories; each command works on its sender's collections and on
    nothing else. *)
Theorem commands_of_two_users_commute
    fetchStockData1 userId1 cmd1 fetchStockData2 userId2 cmd2 st :
  userId1 <> userId2 ->
  let st12 :=
    handleEvent fetchStockData2 userId2 cmd2
      (handleEvent fetchStockData1 userId1 cmd1 st) in
  let st21 :=
    handleEvent fetchStockData1 userId1 cmd1
      (handleEvent fetchStockData2 userId2 cmd2 st) in
  (forall userId,
     listByUser userId (userPriceAlerts st12) = listByUser userId (userPriceAlerts st21)
     /\ listByUser userId (userVolumeAlerts st12)
        = listByUser userId (userVolumeAlerts st21)
     /\ listByUser userId (userChangeAlerts st12)
        = listByUser userId (userChangeAlerts st21))
  /\ volumeHistory st12 = volumeHistory st21.
Proof.
  intros Hne st12 st21. unfold st12, st21. split.
  - intros userId.
    assert (H12 : String.eqb userId1 userId2 = false) by now apply String.eqb_neq.
    assert (H21 : String.eqb userId2 userId1 = false).
    { apply String.eqb_neq. congruence. }
    pose proof (handleEvent_listByUser fetchStockData2 userId2 cmd2
                  (handleEvent fetchStockData1 userId1 cmd1 st) userId) as (P1 & V1 & C1).
    pose proof (handleEvent_listByUser fetchStockData1 userId1 cmd1
                  (handleEvent fetchStockData2 userId2 cmd2 st) userId) as (P2 & V2 & C2).
    pose proof (handleEvent_listByUser fetchStockData1 userId1 cmd1 st) as Hfirst.
    pose proof (handleEvent_listByUser fetchStockData2 userId2 cmd2 st) as Hsecond.
    rewrite P1, V1, C1, P2, V2, C2.
    destruct (Hfirst userId) as (Pa & Va & Ca).
    destruct (Hfirst userId2) as (Pb & Vb & Cb).
    destruct (Hsecond userId) as (Pc & Vc & Cc).
    destruct (Hsecond userId1) as (Pd & Vd & Cd).
    rewrite Pa, Va, Ca, Pb, Vb, Cb, Pc, Vc, Cc, Pd, Vd, Cd, H12, H21.
    destruct (String.eqb_spec userId2 userId) as [Heq2|Hne2];
      destruct (String.eqb_spec userId1 userId) as [Heq1|Hne1];
      try congruence; repeat split; reflexivity.
  - now rewrite !volumeHistory_handleEvent.
Qed.

Lemma commands_of_two_users_commute_witness :
  "U1"%string <> "U2"%string
  /\ listByUser "U2"
       (userVolumeAlerts
          (handleEvent noFeed "U2" VolClear
             (handleEvent noFeed "U1" AlertClear exampleState)))
     = listByUser "U2"
         (userVolumeAlerts
            (handleEvent noFeed "U1" AlertClear
               (handleEvent noFeed "U2" VolClear exampleState))).
Proof.
  assert (Hne : "U1"%string <> "U2"%string) by discriminate.
  split; [exact Hne|].
  destruct (commands_of_two_users_commute noFeed "U1" AlertClear noFeed "U2" VolClear
              exampleState Hne) as (Hlists & _).
  apply Hlists.
Defined.

(** ** Repeating a command *)

Lemma findIndex_update {A : Type} (same : A -> bool) (f : A -> A) (l : list A) i :
  (forall a, same (f a) = same a) ->
  JS.findIndex same (JS.update i f l) = JS.findIndex same l.
Proof.
  intros Hsame. revert i.
  induction l as [|x l IH]; intros [|i]; simpl; auto.
  - now rewrite Hsame.
  - now rewrite IH.
Qed.

Lemma update_update {A : Type} (f : A -> A) (l : list A) i a :
  nth_error l i = Some a -> f (f a) = f a ->
  JS.update i f (JS.update i f l) = JS.update i f l.
Proof.
  revert i. induction l as [|x l IH]; intros [|i]; simpl; try discriminate.
  - intros H Hf. injection H as ->. now rewrite Hf.
  - intros H Hf. f_equal. now apply IH.
Qed.

Lemma findIndex_app_fresh {A : Type} (same : A -> bool) (l : list A) fresh :
  (forall a, In a l -> same a = false) -> same fresh = true ->
  JS.findIndex same (l ++ [fresh]) = Some (length l).
Proof.
  intros Hnone Hfresh. induction l as [|x l IH]; simpl.
  - now rewrite Hfresh.
  - rewrite (Hnone x) by now left.
    rewrite IH; auto. intros a Ha. apply Hnone. now right.
Qed.

Lemma update_last {A : Type} (f : A -> A) (l : list A) x :
  JS.update (length l) f (l ++ [x]) = l ++ [f x].
Proof. induction l as [|y l IH]; simpl; auto. now rewrite IH. Qed.

Lemma upserted_idempotent {A : Type} (same : A -> bool) replace fresh (l : list A) :
  same fresh = true ->
  (forall a, same (replace a) = same a) ->
  (forall a, same a = true -> replace a = fresh) ->
  upserted same replace fresh (upserted same replace fresh l)
  = upserted same replace fresh l.
Proof.
  intros Hfresh Hkeeps Hreplace. unfold upserted at 2 3.
  destruct (JS.findIndex same l) as [i|] eqn:E.
  - unfold upserted. rewrite findIndex_update, E by assumption.
    apply findIndex_Some in E. destruct E as (a & Hnth & Hsame & _).
    apply (update_update replace l i a Hnth).
    rewrite (Hreplace a Hsame). now apply Hreplace.
  - rewrite findIndex_None in E. unfold upserted.
    rewrite findIndex_app_fresh, update_last by assumption.
    now rewrite (Hreplace fresh Hfresh).
Qed.

Lemma upsert_idempotent {A : Type} (same : A -> bool) replace fresh
    (m : JSMap.t (list A)) userId :
  same fresh = true ->
  (forall a, same (replace a) = same a) ->
  (forall a, same a = true -> replace a = fresh) ->
  upsert same replace fresh (upsert same replace fresh m userId) userId
  = upsert same replace fresh m userId.
Proof.
  intros Hfresh Hkeeps Hreplace. rewrite !upsert_eq.
  unfold listByUser at 1. rewrite JSMapFacts.get_set_same.
  now rewrite upserted_idempotent, set_set.
Qed.

Lemma delete_delete {V : Type} (m : JSMap.t V) k :
  JSMap.delete k (JSMap.delete k m) = JSMap.delete k m.
Proof.
  apply JSMapFacts.delete_fresh. rewrite JSMapFacts.keys_delete. tauto.
Qed.

Lemma upsertPrice_idempotent stockCode dir targetPrice userId st :
  upsertPrice stockCode dir targetPrice userId
    (upsertPrice stockCode dir targetPrice userId st)
  = upsertPrice stockCode dir targetPrice userId st.
Proof.
  unfold upsertPrice. simpl. f_equal. apply upsert_idempotent.
  - unfold samePriceKey. simpl. rewrite String.eqb_refl. now destruct dir.
  - reflexivity.
  - intros [c d t] Hsame. unfold samePriceKey in Hsame. simpl in Hsame.
    apply andb_true_iff in Hsame. destruct Hsame as [Hc Hd].
    apply String.eqb_eq in Hc. apply direction_eqb_eq in Hd. simpl. now subst.
Qed.

(** X18 -- Serving the same command of the same user twice in a row,
    with the same answer from the feed, leaves the state the first
    serving left: a repeated alert is not stored twice, and a repeated
    clear has nothing more to clear. *)
Theorem command_idempotent fetchStockData userId cmd st :
  handleEvent fetchStockData userId cmd (handleEvent fetchStockData userId cmd st)
  = handleEvent fetchStockData userId cmd st.
Proof.
  destruct cmd; simpl; auto.
  - apply upsertPrice_idempotent.
  - destruct (fetchStockData stockCode) as [| |stockData]; auto.
    apply upsertPrice_idempotent.
  - unfold upsertChange. simpl. f_equal. apply upsert_idempotent.
    + simpl. apply String.eqb_refl.
    + reflexivity.
    + intros [c p] Hsame. simpl in *. apply String.eqb_eq in Hsame. now subst.
  - now rewrite !delete_delete.
  - destruct (negb (is_finite multiplier) || JS.le multiplier 1%float); auto.
    unfold upsertVolume. simpl. f_equal. apply upsert_idempotent.
    + simpl. apply String.eqb_refl.
    + reflexivity.
    + intros [c x] Hsame. simpl in *. apply String.eqb_eq in Hsame. now subst.
  - now rewrite delete_delete.
Qed.

(** ** No push without a cause *)

Lemma count_positive p (out : list effect) e :
  In e out -> p e = true -> 0 < count p out.
Proof.
  intros Hin Hp. unfold count.
  assert (Hf : In e (filter p out)) by now apply filter_In.
  destruct (filter p out); [destruct Hf | simpl; lia].
Qed.

Lemma filter_positive {A : Type} (p : A -> bool) (l : list A) :
  0 < length (filter p l) -> exists a, In a l /\ p a = true.
Proof.
  destruct (filter p l) as [|a rest] eqn:E; simpl; [lia|].
  intros _. exists a. apply filter_In. rewrite E. now left.
Qed.

(** X20 -- A cycle pushes nothing without a cause: every push among its
    effects goes to a user who, when the cycle began, had an alert of the
    message's kind on the message's identifier (and direction, for a price
    alert) that fired in the cycle. *)
Theorem pushes_have_cause fetchStockData delivered st userId text :
  registry_ok st = true ->
  In (pushMessage userId text) (snd (checkAlerts fetchStockData delivered st)) ->
  match text with
  | PriceMessage stockCode dir _ _ =>
      exists alert,
        In alert (listByUser userId (userPriceAlerts st))
        /\ PriceAlert.stockCode alert = stockCode
        /\ PriceAlert.direction alert = dir
        /\ priceFires fetchStockData alert = true
  | ChangeMessage stockCode _ =>
      exists alert,
        In alert (listByUser userId (userChangeAlerts st))
        /\ ChangeAlert.stockCode alert = stockCode
        /\ changeFires fetchStockData alert = true
  | VolumeMessage stockCode _ _ =>
      exists alert,
        In alert (listByUser userId (userVolumeAlerts st))
        /\ VolumeAlert.stockCode alert = stockCode
        /\ volumeFires fetchStockData st alert = true
  end.
Proof.
  intros Hreg Hin. pose proof (registry_ok_users st Hreg) as Hok.
  destruct text as [stockCode dir t p | stockCode p | stockCode v m].
  - assert (Hpos : 0 < count (isPricePush userId stockCode dir)
                         (snd (checkAlerts fetchStockData delivered st))).
    { apply (count_positive _ _ _ Hin). simpl.
      rewrite !String.eqb_refl. now destruct dir. }
    rewrite cycle_price_count in Hpos by assumption.
    apply filter_positive in Hpos. destruct Hpos as (a & Ha & Hp).
    apply andb_true_iff in Hp. destruct Hp as [Hfires Hkey].
    unfold samePriceKey in Hkey. apply andb_true_iff in Hkey.
    destruct Hkey as [Hc Hd].
    apply String.eqb_eq in Hc. apply direction_eqb_eq in Hd.
    exists a. auto.
  - assert (Hpos : 0 < count (isChangePush userId stockCode)
                         (snd (checkAlerts fetchStockData delivered st))).
    { apply (count_positive _ _ _ Hin). simpl. now rewrite !String.eqb_refl. }
    rewrite cycle_change_count in Hpos by assumption.
    apply filter_positive in Hpos. destruct Hpos as (a & Ha & Hp).
    apply andb_true_iff in Hp. destruct Hp as [Hfires Hc].
    apply String.eqb_eq in Hc. exists a. auto.
  - assert (Hpos : 0 < count (isVolumePush userId stockCode)
                         (snd (checkAlerts fetchStockData delivered st))).
    { apply (count_positive _ _ _ Hin). simpl. now rewrite !String.eqb_refl. }
    rewrite cycle_volume_count in Hpos by assumption.
    apply filter_positive in Hpos. destruct Hpos as (a & Ha & Hp).
    apply andb_true_iff in Hp. destruct Hp as [Hfires Hc].
    apply String.eqb_eq in Hc. exists a. auto.
Qed.

Lemma pushes_have_cause_witness :
  registry_ok exampleState = true
  /\ In (pushMessage "U1" (PriceMessage "2330" ABOVE 640%float 650%float))
       (snd (checkAlerts exampleFeed silent exampleState))
  /\ exists alert,
       In alert (listByUser "U1" (userPriceAlerts exampleState))
       /\ PriceAlert.stockCode alert = "2330"%string
       /\ PriceAlert.direction alert = ABOVE
       /\ priceFires exampleFeed alert = true.
Proof.
  assert (Hin : In (pushMessage "U1" (PriceMessage "2330" ABOVE 640%float 650%float))
                  (snd (checkAlerts exampleFeed silent exampleState))).
  { simpl. auto. }
  split; [reflexivity|]. split; [exact Hin|].
  exact (pushes_have_cause exampleFeed silent exampleState "U1"
           (PriceMessage "2330" ABOVE 640%float 650%float) eq_refl Hin).
Defined.
